(** * GLMT streaming bridge: frame parser, stream accumulator, transformer

    A shallow embedding of [bin/sse-parser.js], of the [DeltaAccumulator]
    class and of [bin/glmt-transformer.js].

    - JavaScript objects that are mutated in place become explicit state,
      threaded through a state-and-exception monad whose [Throw] outcome
      keeps the state reached when the exception left the method.
    - Strings are sequences of code units (below 256); numbers that count
      things are integers.
    - What the code takes from its platform is a parameter: [JSON.parse]
      for the parser, the SHA-256 digest and the reading of the clock for
      the transformer, the message identifier for the accumulator.
    - The streaming transformer reads payloads of the documented delta
      shape, given here as records; the buffered request transformation
      reads its request as a JSON value, since its failures are those of
      ill-shaped requests.  Writing the debug log and printing to the
      console are left out. *)

From Stdlib Require Import ZArith QArith String Ascii List Bool Lia.
From stdpp Require Import base option list gmap strings.

Set Warnings "-register-all".

(** [array.push(x)] *)
Definition push {A} (l : list A) (x : A) : list A := l ++ [x].

Local Open Scope string_scope.
Local Open Scope Z_scope.

(** ** Exceptions and the state monad *)

(** The exceptions the three classes raise.  The resource-limit errors carry
    the limit that the message text of the source interpolates. *)
Inductive Error : Type :=
| SSEBufferExceeded (maxBufferSize : Z)
| MaxBlocksExceeded (maxBlocks : Z)
| ThinkingBufferExceeded (maxBufferSize : Z)
| TextBufferExceeded (maxBufferSize : Z)
| TypeError (what : string).

Definition is_resource_limit (e : Error) : bool :=
  match e with
  | TypeError _ => false
  | _ => true
  end.

Inductive Res (S A : Type) : Type :=
| Ok (a : A) (s : S)
| Throw (e : Error) (s : S).
Arguments Ok {S A} a s.
Arguments Throw {S A} e s.

Definition M (S A : Type) : Type := S -> Res S A.

Definition ret {S A} (a : A) : M S A := fun s => Ok a s.
Definition bind {S A B} (m : M S A) (k : A -> M S B) : M S B :=
  fun s => match m s with
           | Ok a s' => k a s'
           | Throw e s' => Throw e s'
           end.
Definition throw {S A} (e : Error) : M S A := fun s => Throw e s.
Definition get {S} : M S S := fun s => Ok s s.
Definition gets {S A} (f : S -> A) : M S A := fun s => Ok (f s) s.
Definition modify {S} (f : S -> S) : M S unit := fun s => Ok tt (f s).
Definition when {S} (c : bool) (m : M S unit) : M S unit :=
  if c then m else ret tt.

Declare Scope js_scope.
Delimit Scope js_scope with js.
Notation "'let*' x := c1 'in' c2" := (bind c1 (fun x => c2))
  (at level 10, x name, c1 at level 100, c2 at level 200) : js_scope.
Notation "c1 ;; c2" := (bind c1 (fun _ => c2))
  (at level 100, c2 at level 200, right associativity) : js_scope.
Local Open Scope js_scope.

Definition state_of {S A} (r : Res S A) : S :=
  match r with Ok _ s => s | Throw _ s => s end.

Definition value_of {S A} (r : Res S A) : option A :=
  match r with Ok a _ => Some a | Throw _ _ => None end.

(** ** JavaScript strings *)

Definition dquote : ascii := "034"%char.
Definition newline : ascii := "010"%char.

(** [str.length] as a number. *)
Definition strlen (s : string) : Z := Z.of_nat (String.length s).

(** [str.substring(n)]. *)
Fixpoint substring_from (n : nat) (s : string) : string :=
  match n, s with
  | O, _ => s
  | S n', String _ s' => substring_from n' s'
  | S _, EmptyString => EmptyString
  end.

(** [str.startsWith(p)]. *)
Definition startsWith (p s : string) : bool := String.prefix p s.

(** White space that [trim] and [parseInt] skip, among code units < 256. *)
Definition is_space (c : ascii) : bool :=
  let n := nat_of_ascii c in
  ((9 <=? n)%nat && (n <=? 13)%nat) || (n =? 32)%nat || (n =? 160)%nat.

Fixpoint trimStart (s : string) : string :=
  match s with
  | String c s' => if is_space c then trimStart s' else s
  | EmptyString => EmptyString
  end.

Fixpoint trimEnd (s : string) : string :=
  match s with
  | EmptyString => EmptyString
  | String c s' =>
      match trimEnd s' with
      | EmptyString => if is_space c then EmptyString else String c EmptyString
      | t => String c t
      end
  end.

Definition trim (s : string) : string := trimEnd (trimStart s).

(** [str.split(sep)] for a one-character separator: never empty. *)
Fixpoint split (sep : ascii) (s : string) : list string :=
  match s with
  | EmptyString => [EmptyString]
  | String c s' =>
      if Ascii.eqb c sep then EmptyString :: split sep s'
      else match split sep s' with
           | l :: ls => String c l :: ls
           | [] => [String c EmptyString]
           end
  end.

(** [lines.pop()]: the last element and the array without it. *)
Fixpoint pop {A} (l : list A) : option (list A * A) :=
  match l with
  | [] => None
  | x :: l' =>
      match pop l' with
      | None => Some ([], x)
      | Some (init, last) => Some (x :: init, last)
      end
  end.

Definition is_digit (c : ascii) : bool :=
  let n := nat_of_ascii c in (48 <=? n)%nat && (n <=? 57)%nat.

Fixpoint digits_value (acc : Z) (s : string) : Z :=
  match s with
  | String c s' =>
      if is_digit c
      then digits_value (10 * acc + Z.of_nat (nat_of_ascii c - 48)) s'
      else acc
  | EmptyString => acc
  end.

(** [parseInt(str, 10)]; [None] is NaN.  (Magnitudes beyond 2^53 are kept
    exact here, where the source rounds them.) *)
Definition parseInt (s : string) : option Z :=
  match trimStart s with
  | String "-" (String c _ as ds) =>
      if is_digit c then Some (- digits_value 0 ds) else None
  | String "+" (String c _ as ds) =>
      if is_digit c then Some (digits_value 0 ds) else None
  | String c _ as ds =>
      if is_digit c then Some (digits_value 0 ds) else None
  | EmptyString => None
  end.

(** ** JSON values, as [JSON.parse] returns them *)
Inductive JSON : Type :=
| JNull
| JBool (b : bool)
| JNumber (q : Q)
| JString (s : string)
| JArray (elems : list JSON)
| JObject (fields : list (string * JSON)).

(** * The frame parser ([bin/sse-parser.js]) *)
Module SSEParser.

(** An event as [parse] pushes it.  A [done] event has [data = JNull] and
    neither [id] nor [retry]; [retry] holds what [parseInt] returned. *)
Record Event : Type := mkEvent {
  event : string;
  data : JSON;
  index : Z;
  id : option string;
  retry : option (option Z)
}.

(** The parser object. *)
Record t : Type := mk {
  buffer : string;
  eventCount : Z;
  maxBufferSize : Z
}.

(** [currentEvent], before its [data] is known. *)
Record Current : Type := mkCurrent {
  cur_event : string;
  cur_id : option string;
  cur_retry : option (option Z)
}.

Definition fresh_current : Current := mkCurrent "message" None None.

(** [options.maxBufferSize || 1024 * 1024] *)
Definition new (maxBufferSize_opt : option Z) : t :=
  mk "" 0
     (match maxBufferSize_opt with
      | Some n => if n =? 0 then 1024 * 1024 else n
      | None => 1024 * 1024
      end).

Definition DONE : string := "[DONE]".

Section Parse.

(** [JSON.parse]: [None] when it raises a SyntaxError. *)
Variable JSON_parse : string -> option JSON.

(** One turn of the [for (const line of lines)] loop: the parser's event
    count, the events pushed so far (in order) and [currentEvent]. *)
Definition parse_line (st : Z * list Event * Current) (line : string)
  : Z * list Event * Current :=
  let '(count, events, cur) := st in
  if startsWith "event: " line then
    (count, events,
     mkCurrent (trim (substring_from 7 line)) (cur_id cur) (cur_retry cur))
  else if startsWith "data: " line then
    let data := substring_from 6 line in
    if String.eqb data DONE then
      (count + 1,
       push events (mkEvent "done" JNull (count + 1) None None),
       fresh_current)
    else
      match JSON_parse data with
      | Some v =>
          (count + 1,
           push events (mkEvent (cur_event cur) v (count + 1)
                               (cur_id cur) (cur_retry cur)),
           fresh_current)
      | None => (count, events, cur)
      end
  else if startsWith "id: " line then
    (count, events,
     mkCurrent (cur_event cur) (Some (trim (substring_from 4 line)))
               (cur_retry cur))
  else if startsWith "retry: " line then
    (count, events,
     mkCurrent (cur_event cur) (cur_id cur)
               (Some (parseInt (substring_from 7 line))))
  else st.

Definition parse (chunk : string) : M t (list Event) :=
  fun p =>
    let buf := buffer p +:+ chunk in
    let p1 := mk buf (eventCount p) (maxBufferSize p) in
    if strlen buf >? maxBufferSize p then
      Throw (SSEBufferExceeded (maxBufferSize p)) p1
    else
      let '(lines, rest) :=
        match pop (split newline buf) with
        | Some (lines, last) => (lines, last)
        | None => ([], "")
        end in
      let '(count, events, _) :=
        fold_left parse_line lines (eventCount p, [], fresh_current) in
      Ok events (mk rest count (maxBufferSize p)).

End Parse.

Definition reset (p : t) : t := mk "" 0 (maxBufferSize p).

End SSEParser.

(** * The stream accumulator ([DeltaAccumulator])

    The class as the tail of [bin/glmt-transformer.js] has it, which extends
    the one of [bin/delta-accumulator.js] by the tool-call table and the
    [usageReceived] flag; the methods the two share agree, apart from what
    they print.  [thinkingConfig] and the loop-detection fields, which no
    method below reads, are left out. *)

(** A content block. *)
Module Block.
Record t : Type := mk {
  index : Z;
  type : string;
  content : string;
  started : bool;
  stopped : bool
}.
Definition set_content (c : string) (b : t) : t :=
  mk (index b) (type b) c (started b) (stopped b).
Definition set_stopped (v : bool) (b : t) : t :=
  mk (index b) (type b) (content b) (started b) v.
End Block.

(** An accumulated tool call; [name] and [arguments] are the fields of its
    nested [function] object. *)
Module ToolCall.
Record t : Type := mk {
  index : Z;
  id : string;
  type : string;
  name : string;
  arguments : string
}.
End ToolCall.

(** A tool-call fragment of an upstream delta; an absent [function] object
    is an absent [name] and [arguments]. *)
Module ToolCallDelta.
Record t : Type := mk {
  index : Z;
  id : option string;
  type : option string;
  name : option string;
  arguments : option string
}.
End ToolCallDelta.

(** The [usage] object of an upstream payload. *)
Module Usage.
Record t : Type := mk {
  prompt_tokens : option Z;
  input_tokens : option Z;
  completion_tokens : option Z;
  output_tokens : option Z
}.
End Usage.

(** An optional string property when it is truthy (present and not empty). *)
Definition truthy (s : option string) : option string :=
  match s with
  | Some EmptyString => None
  | _ => s
  end.

(** [a || b || 0] on optional numbers. *)
Definition or_zero (a b : option Z) : Z :=
  match a with
  | Some x => if x =? 0 then default 0 b else x
  | None => default 0 b
  end.

Module DeltaAccumulator.

(** [toolCallsIndex] owns the tool-call objects, keyed by call index;
    [toolCalls] is the array of references to them, each written as the
    key under which the object sits. *)
Record t : Type := mk {
  messageId : string;
  model : option string;
  role : string;
  contentBlocks : list Block.t;
  currentBlockIndex : Z;
  toolCalls : list Z;
  toolCallsIndex : gmap Z ToolCall.t;
  thinkingBuffer : string;
  textBuffer : string;
  maxBlocks : Z;
  maxBufferSize : Z;
  messageStarted : bool;
  finalized : bool;
  usageReceived : bool;
  inputTokens : Z;
  outputTokens : Z;
  finishReason : option string
}.

Definition set_model (v : option string) (a : t) : t :=
  mk (messageId a) v (role a) (contentBlocks a) (currentBlockIndex a)
     (toolCalls a) (toolCallsIndex a) (thinkingBuffer a) (textBuffer a)
     (maxBlocks a) (maxBufferSize a) (messageStarted a) (finalized a)
     (usageReceived a) (inputTokens a) (outputTokens a) (finishReason a).

Definition set_role (v : string) (a : t) : t :=
  mk (messageId a) (model a) v (contentBlocks a) (currentBlockIndex a)
     (toolCalls a) (toolCallsIndex a) (thinkingBuffer a) (textBuffer a)
     (maxBlocks a) (maxBufferSize a) (messageStarted a) (finalized a)
     (usageReceived a) (inputTokens a) (outputTokens a) (finishReason a).

Definition set_contentBlocks (v : list Block.t) (a : t) : t :=
  mk (messageId a) (model a) (role a) v (currentBlockIndex a) (toolCalls a)
     (toolCallsIndex a) (thinkingBuffer a) (textBuffer a) (maxBlocks a)
     (maxBufferSize a) (messageStarted a) (finalized a) (usageReceived a)
     (inputTokens a) (outputTokens a) (finishReason a).

Definition set_currentBlockIndex (v : Z) (a : t) : t :=
  mk (messageId a) (model a) (role a) (contentBlocks a) v (toolCalls a)
     (toolCallsIndex a) (thinkingBuffer a) (textBuffer a) (maxBlocks a)
     (maxBufferSize a) (messageStarted a) (finalized a) (usageReceived a)
     (inputTokens a) (outputTokens a) (finishReason a).

Definition set_toolCalls (v : list Z) (a : t) : t :=
  mk (messageId a) (model a) (role a) (contentBlocks a)
     (currentBlockIndex a) v (toolCallsIndex a) (thinkingBuffer a)
     (textBuffer a) (maxBlocks a) (maxBufferSize a) (messageStarted a)
     (finalized a) (usageReceived a) (inputTokens a) (outputTokens a)
     (finishReason a).

Definition set_toolCallsIndex (v : gmap Z ToolCall.t) (a : t) : t :=
  mk (messageId a) (model a) (role a) (contentBlocks a)
     (currentBlockIndex a) (toolCalls a) v (thinkingBuffer a) (textBuffer a)
     (maxBlocks a) (maxBufferSize a) (messageStarted a) (finalized a)
     (usageReceived a) (inputTokens a) (outputTokens a) (finishReason a).

Definition set_thinkingBuffer (v : string) (a : t) : t :=
  mk (messageId a) (model a) (role a) (contentBlocks a)
     (currentBlockIndex a) (toolCalls a) (toolCallsIndex a) v (textBuffer a)
     (maxBlocks a) (maxBufferSize a) (messageStarted a) (finalized a)
     (usageReceived a) (inputTokens a) (outputTokens a) (finishReason a).

Definition set_textBuffer (v : string) (a : t) : t :=
  mk (messageId a) (model a) (role a) (contentBlocks a)
     (currentBlockIndex a) (toolCalls a) (toolCallsIndex a)
     (thinkingBuffer a) v (maxBlocks a) (maxBufferSize a) (messageStarted a)
     (finalized a) (usageReceived a) (inputTokens a) (outputTokens a)
     (finishReason a).

Definition set_messageStarted (v : bool) (a : t) : t :=
  mk (messageId a) (model a) (role a) (contentBlocks a)
     (currentBlockIndex a) (toolCalls a) (toolCallsIndex a)
     (thinkingBuffer a) (textBuffer a) (maxBlocks a) (maxBufferSize a) v
     (finalized a) (usageReceived a) (inputTokens a) (outputTokens a)
     (finishReason a).

Definition set_finalized (v : bool) (a : t) : t :=
  mk (messageId a) (model a) (role a) (contentBlocks a)
     (currentBlockIndex a) (toolCalls a) (toolCallsIndex a)
     (thinkingBuffer a) (textBuffer a) (maxBlocks a) (maxBufferSize a)
     (messageStarted a) v (usageReceived a) (inputTokens a) (outputTokens a)
     (finishReason a).

Definition set_usageReceived (v : bool) (a : t) : t :=
  mk (messageId a) (model a) (role a) (contentBlocks a)
     (currentBlockIndex a) (toolCalls a) (toolCallsIndex a)
     (thinkingBuffer a) (textBuffer a) (maxBlocks a) (maxBufferSize a)
     (messageStarted a) (finalized a) v (inputTokens a) (outputTokens a)
     (finishReason a).

Definition set_inputTokens (v : Z) (a : t) : t :=
  mk (messageId a) (model a) (role a) (contentBlocks a)
     (currentBlockIndex a) (toolCalls a) (toolCallsIndex a)
     (thinkingBuffer a) (textBuffer a) (maxBlocks a) (maxBufferSize a)
     (messageStarted a) (finalized a) (usageReceived a) v (outputTokens a)
     (finishReason a).

Definition set_outputTokens (v : Z) (a : t) : t :=
  mk (messageId a) (model a) (role a) (contentBlocks a)
     (currentBlockIndex a) (toolCalls a) (toolCallsIndex a)
     (thinkingBuffer a) (textBuffer a) (maxBlocks a) (maxBufferSize a)
     (messageStarted a) (finalized a) (usageReceived a) (inputTokens a) v
     (finishReason a).

Definition set_finishReason (v : option string) (a : t) : t :=
  mk (messageId a) (model a) (role a) (contentBlocks a)
     (currentBlockIndex a) (toolCalls a) (toolCallsIndex a)
     (thinkingBuffer a) (textBuffer a) (maxBlocks a) (maxBufferSize a)
     (messageStarted a) (finalized a) (usageReceived a) (inputTokens a)
     (outputTokens a) v.

Record Options : Type := mkOptions {
  opt_maxBlocks : option Z;
  opt_maxBufferSize : option Z
}.

Definition no_options : Options := mkOptions None None.

(** [opt || dflt] *)
Definition or_default (opt : option Z) (dflt : Z) : Z :=
  match opt with
  | Some n => if n =? 0 then dflt else n
  | None => dflt
  end.

(** The constructor; [msgId] is the identifier it draws from the clock and
    the random generator. *)
Definition new (msgId : string) (options : Options) : t :=
  mk msgId None "assistant" [] (-1) [] ∅ "" ""
     (or_default (opt_maxBlocks options) 100)
     (or_default (opt_maxBufferSize options) (10 * 1024 * 1024))
     false false false 0 0 None.

Definition getCurrentBlock (a : t) : option Block.t :=
  if (0 <=? currentBlockIndex a)
     && (currentBlockIndex a <? Z.of_nat (length (contentBlocks a)))
  then contentBlocks a !! Z.to_nat (currentBlockIndex a)
  else None.

Definition startBlock (type : string) : M t Block.t :=
  fun a =>
    if Z.of_nat (length (contentBlocks a)) >=? maxBlocks a then
      Throw (MaxBlocksExceeded (maxBlocks a)) a
    else
      let a1 := set_currentBlockIndex (currentBlockIndex a + 1) a in
      let block := Block.mk (currentBlockIndex a1) type "" true false in
      let a2 := set_contentBlocks (push (contentBlocks a1) block) a1 in
      let a3 :=
        if String.eqb type "thinking" then set_thinkingBuffer "" a2
        else if String.eqb type "text" then set_textBuffer "" a2
        else a2 in
      Ok block a3.

(** [block.content = v] on the current block. *)
Definition set_current_content (v : string) (a : t) : t :=
  set_contentBlocks
    (alter (Block.set_content v) (Z.to_nat (currentBlockIndex a))
           (contentBlocks a)) a.

Definition addDelta (delta : string) : M t unit :=
  fun a =>
    match getCurrentBlock a with
    | None => Ok tt a
    | Some block =>
        if String.eqb (Block.type block) "thinking" then
          if strlen (thinkingBuffer a) + strlen delta >? maxBufferSize a then
            Throw (ThinkingBufferExceeded (maxBufferSize a)) a
          else
            let a1 := set_thinkingBuffer (thinkingBuffer a +:+ delta) a in
            Ok tt (set_current_content (thinkingBuffer a1) a1)
        else if String.eqb (Block.type block) "text" then
          if strlen (textBuffer a) + strlen delta >? maxBufferSize a then
            Throw (TextBufferExceeded (maxBufferSize a)) a
          else
            let a1 := set_textBuffer (textBuffer a +:+ delta) a in
            Ok tt (set_current_content (textBuffer a1) a1)
        else Ok tt a
    end.

Definition stopCurrentBlock : M t unit :=
  fun a =>
    match getCurrentBlock a with
    | Some _ =>
        Ok tt (set_contentBlocks
                 (alter (Block.set_stopped true)
                        (Z.to_nat (currentBlockIndex a)) (contentBlocks a)) a)
    | None => Ok tt a
    end.

Definition updateUsage (usage : option Usage.t) : M t unit :=
  fun a =>
    match usage with
    | Some u =>
        Ok tt
           (set_usageReceived true
              (set_outputTokens
                 (or_zero (Usage.completion_tokens u) (Usage.output_tokens u))
                 (set_inputTokens
                    (or_zero (Usage.prompt_tokens u) (Usage.input_tokens u))
                    a)))
    | None => Ok tt a
    end.

(** The tool call [toolCallDelta] updates, once it is in the table. *)
Definition apply_fragment (d : ToolCallDelta.t) (c : ToolCall.t) : ToolCall.t :=
  ToolCall.mk
    (ToolCall.index c)
    (default (ToolCall.id c) (truthy (ToolCallDelta.id d)))
    (default (ToolCall.type c) (truthy (ToolCallDelta.type d)))
    (ToolCall.name c +:+ default "" (truthy (ToolCallDelta.name d)))
    (ToolCall.arguments c
       +:+ default "" (truthy (ToolCallDelta.arguments d))).

Definition addToolCallDelta (toolCallDelta : ToolCallDelta.t) : M t unit :=
  fun a =>
    let index := ToolCallDelta.index toolCallDelta in
    let a1 :=
      match toolCallsIndex a !! index with
      | None =>
          let toolCall := ToolCall.mk index "" "function" "" "" in
          set_toolCallsIndex (<[index := toolCall]> (toolCallsIndex a))
            (set_toolCalls (push (toolCalls a) index) a)
      | Some _ => a
      end in
    Ok tt (set_toolCallsIndex
             (alter (apply_fragment toolCallDelta) index (toolCallsIndex a1))
             a1).

(** [getToolCalls()]: the array, each reference followed. *)
Definition getToolCalls (a : t) : list ToolCall.t :=
  omap (fun k => toolCallsIndex a !! k) (toolCalls a).

End DeltaAccumulator.

(** * The transformer ([GlmtTransformer]), streaming part *)

(** The delta payload shape the transformer consumes. *)
Module Delta.
Record t : Type := mk {
  role : option string;
  content : option string;
  reasoning_content : option string;
  tool_calls : list ToolCallDelta.t
}.
End Delta.

Module Choice.
Record t : Type := mk {
  delta : option Delta.t;
  finish_reason : option string
}.
End Choice.

Module Payload.
Record t : Type := mk {
  choices : list Choice.t;
  model : option string;
  usage : option Usage.t
}.
End Payload.

(** A parsed upstream event; [data = None] is [null]. *)
Module UpstreamEvent.
Record t : Type := mk {
  event : string;
  data : option Payload.t
}.
End UpstreamEvent.

(** What [_mapStopReason] returns: a string, or, for a key that the
    [mapping] literal inherits from [Object.prototype], that member. *)
Inductive StopReason : Type :=
| Reason (s : string)
| Inherited (key : string).

(** The downstream events, by their [event] name and the fields of [data]. *)
Inductive AnthropicEvent : Type :=
| message_start (id role model : string) (input_tokens output_tokens : Z)
| content_block_start (index : Z) (type : string)
| thinking_delta (index : Z) (thinking : string)
| text_delta (index : Z) (text : string)
| signature_delta (index : Z) (hash : string) (length timestamp : Z)
| content_block_stop (index : Z)
| message_delta (stop_reason : StopReason) (output_tokens : Z)
| message_stop.

(** The [event] field. *)
Definition event_name (e : AnthropicEvent) : string :=
  match e with
  | message_start _ _ _ _ _ => "message_start"
  | content_block_start _ _ => "content_block_start"
  | thinking_delta _ _ => "content_block_delta"
  | text_delta _ _ => "content_block_delta"
  | signature_delta _ _ _ _ => "signature_delta"
  | content_block_stop _ => "content_block_stop"
  | message_delta _ _ => "message_delta"
  | message_stop => "message_stop"
  end.

Module GlmtTransformer.
Import DeltaAccumulator.

Definition object_prototype_keys : list string :=
  [ "constructor"; "__proto__"; "hasOwnProperty"; "isPrototypeOf";
    "propertyIsEnumerable"; "toLocaleString"; "toString"; "valueOf";
    "__defineGetter__"; "__defineSetter__"; "__lookupGetter__";
    "__lookupSetter__" ].

Definition _mapStopReason (openaiReason : string) : StopReason :=
  if String.eqb openaiReason "stop" then Reason "end_turn"
  else if String.eqb openaiReason "length" then Reason "max_tokens"
  else if String.eqb openaiReason "tool_calls" then Reason "tool_use"
  else if String.eqb openaiReason "content_filter" then Reason "stop_sequence"
  else if bool_decide (openaiReason ∈ object_prototype_keys)
       then Inherited openaiReason
  else Reason "end_turn".

Section Streaming.

(** The hexadecimal SHA-256 digest of [crypto]. *)
Variable sha256_hex : string -> string.

(** [_generateThinkingSignature]; [now] is what [Date.now()] returns. *)
Definition _generateThinkingSignature (now : Z) (thinking : string)
  : string * Z * Z :=
  (String.substring 0 16 (sha256_hex thinking), strlen thinking, now).

Definition _createMessageStartEvent (a : t) : AnthropicEvent :=
  message_start (messageId a) (role a)
                (default "glm-4.6" (truthy (model a))) (inputTokens a) 0.

Definition _createContentBlockStartEvent (block : Block.t) : AnthropicEvent :=
  content_block_start (Block.index block) (Block.type block).

Definition _createSignatureDeltaEvent (now : Z) (block : Block.t)
  : AnthropicEvent :=
  let '(hash, len, ts) := _generateThinkingSignature now (Block.content block) in
  signature_delta (Block.index block) hash len ts.

Definition _createContentBlockStopEvent (block : Block.t) : AnthropicEvent :=
  content_block_stop (Block.index block).

(** [_createThinkingDeltaEvent] and [_createTextDeltaEvent] read
    [block.index]: a [null] block is a TypeError. *)
Definition _createThinkingDeltaEvent (block : option Block.t) (delta : string)
  : M t AnthropicEvent :=
  match block with
  | Some b => ret (thinking_delta (Block.index b) delta)
  | None => throw (TypeError "block is null")
  end.

Definition _createTextDeltaEvent (block : option Block.t) (delta : string)
  : M t AnthropicEvent :=
  match block with
  | Some b => ret (text_delta (Block.index b) delta)
  | None => throw (TypeError "block is null")
  end.

Definition is_type (ty : string) (block : option Block.t) : bool :=
  match block with
  | Some b => String.eqb (Block.type b) ty
  | None => false
  end.

Definition finalizeDelta (now : Z) : M t (list AnthropicEvent) :=
  fun a =>
    if finalized a then Ok [] a
    else
      (let* events :=
         (let* currentBlock := gets getCurrentBlock in
          match currentBlock with
          | Some b =>
              if negb (Block.stopped b) then
                let events :=
                  if String.eqb (Block.type b) "thinking"
                  then [_createSignatureDeltaEvent now b] else [] in
                let events := push events (_createContentBlockStopEvent b) in
                stopCurrentBlock ;; ret events
              else ret []
          | None => ret []
          end) in
       let* reason := gets finishReason in
       let* out := gets outputTokens in
       let events :=
         push events
              (message_delta
                 (_mapStopReason (default "stop" (truthy reason))) out) in
       let events := push events message_stop in
       modify (set_finalized true) ;;
       ret events) a.

(** The three parts of [transformDelta] that push events. *)
Definition message_start_part (payload : Payload.t)
           (events : list AnthropicEvent) : M t (list AnthropicEvent) :=
  fun a =>
    if messageStarted a then Ok events a
    else
      let a1 := match truthy (Payload.model payload) with
                | Some m => set_model (Some m) a
                | None => a
                end in
      Ok (push events (_createMessageStartEvent a1))
         (set_messageStarted true a1).

Definition reasoning_part (delta : Delta.t) (events : list AnthropicEvent)
  : M t (list AnthropicEvent) :=
  match truthy (Delta.reasoning_content delta) with
  | None => ret events
  | Some reasoning =>
      let* currentBlock := gets getCurrentBlock in
      let* events :=
        if negb (is_type "thinking" currentBlock) then
          let* block := startBlock "thinking" in
          ret (push events (_createContentBlockStartEvent block))
        else ret events in
      addDelta reasoning ;;
      let* block := gets getCurrentBlock in
      let* e := _createThinkingDeltaEvent block reasoning in
      ret (push events e)
  end.

Definition text_part (now : Z) (delta : Delta.t)
           (events : list AnthropicEvent) : M t (list AnthropicEvent) :=
  match truthy (Delta.content delta) with
  | None => ret events
  | Some text =>
      let* currentBlock := gets getCurrentBlock in
      let* events :=
        match currentBlock with
        | Some b =>
            if String.eqb (Block.type b) "thinking" && negb (Block.stopped b)
            then
              let events := push events (_createSignatureDeltaEvent now b) in
              let events := push events (_createContentBlockStopEvent b) in
              stopCurrentBlock ;; ret events
            else ret events
        | None => ret events
        end in
      let* currentBlock := gets getCurrentBlock in
      let* events :=
        if negb (is_type "text" currentBlock) then
          let* block := startBlock "text" in
          ret (push events (_createContentBlockStartEvent block))
        else ret events in
      addDelta text ;;
      let* block := gets getCurrentBlock in
      let* e := _createTextDeltaEvent block text in
      ret (push events e)
  end.

Definition transformDelta (now : Z) (openaiEvent : UpstreamEvent.t)
  : M t (list AnthropicEvent) :=
  if String.eqb (UpstreamEvent.event openaiEvent) "done" then finalizeDelta now
  else
    match UpstreamEvent.data openaiEvent with
    | None => ret []
    | Some payload =>
        match head (Payload.choices payload) with
        | None => ret []
        | Some choice =>
            match Choice.delta choice with
            | None => ret []
            | Some delta =>
                let* events := message_start_part payload [] in
                match truthy (Delta.role delta) with
                | Some r => modify (set_role r)
                | None => ret tt
                end ;;
                let* events := reasoning_part delta events in
                let* events := text_part now delta events in
                updateUsage (Payload.usage payload) ;;
                match truthy (Choice.finish_reason choice) with
                | Some r => modify (set_finishReason (Some r))
                | None => ret tt
                end ;;
                ret events
            end
        end
    end.

(** The caller's loop: each upstream event, with the clock reading of its
    turn, goes through [transformDelta]; the events are sent on in order.
    An exception ends the loop. *)
Fixpoint transformAll (input : list (Z * UpstreamEvent.t))
  : M t (list AnthropicEvent) :=
  match input with
  | [] => ret []
  | (now, ev) :: rest =>
      let* out := transformDelta now ev in
      let* outs := transformAll rest in
      ret (out ++ outs)%list
  end.

End Streaming.

(** ** The buffered request transformation *)

(** [try { body } catch (error) { handler }] *)
Definition try_catch {S A} (body : M S A) (handler : Error -> M S A) : M S A :=
  fun s => match body s with
           | Ok a s' => Ok a s'
           | Throw e s' => handler e s'
           end.

(** [transformRequest] writes no state of the transformer (the debug-log
    sink apart, which is no part of this model). *)
Definition Pure (A : Type) : Type := M unit A.

(** The directive configuration: [{ thinking, effort }]; the fallback of
    [transformRequest] has no [effort]. *)
Record ThinkingConfig : Type := mkThinkingConfig {
  thinking : bool;
  effort : option string
}.

(** The object [transformRequest] returns. *)
Record RequestResult : Type := mkRequestResult {
  openaiRequest : JSON;
  thinkingConfig : ThinkingConfig;
  error : option Error
}.

(** [v.k]; [None] is [undefined].  Reading a property of [null] raises;
    the keys read below are own properties of objects only.  (The keys of
    an object that [JSON.parse] built are distinct.) *)
Definition prop (k : string) (v : JSON) : Pure (option JSON) :=
  match v with
  | JNull => throw (TypeError "cannot read properties of null")
  | JObject fields => ret (snd <$> find (fun kv => String.eqb (fst kv) k) fields)
  | _ => ret None
  end.

Definition js_truthy (v : option JSON) : bool :=
  match v with
  | None | Some JNull | Some (JBool false) | Some (JString EmptyString) => false
  | Some (JNumber q) => negb (Qeq_bool q 0)
  | Some _ => true
  end.

(** [v || []] *)
Definition or_empty_array (v : option JSON) : JSON :=
  match v with
  | Some x => if js_truthy v then x else JArray []
  | None => JArray []
  end.

Definition chars (s : string) : list JSON :=
  (fun c => JString (String c EmptyString)) <$> list_ascii_of_string s.

(** The elements [for (const x of v)] visits. *)
Definition iterate (v : JSON) : Pure (list JSON) :=
  match v with
  | JArray l => ret l
  | JString s => ret (chars s)
  | _ => throw (TypeError "not iterable")
  end.

Definition to_lower (c : ascii) : ascii :=
  let n := nat_of_ascii c in
  if (65 <=? n)%nat && (n <=? 90)%nat then ascii_of_nat (n + 32) else c.

Fixpoint toLowerCase (s : string) : string :=
  match s with
  | EmptyString => EmptyString
  | String c s' => String (to_lower c) (toLowerCase s')
  end.

(** The leftmost place of [s] where one of [tags] begins, the earlier tag
    first: the match of a regular expression that is an alternation of
    literals. *)
Fixpoint first_match (tags : list (string * string)) (s : string)
  : option string :=
  match find (fun t => String.prefix (fst t) s) tags with
  | Some t => Some (snd t)
  | None =>
      match s with
      | EmptyString => None
      | String _ s' => first_match tags s'
      end
  end.

(** [content.match(/<Thinking:(On|Off)>/i)], group 1 in lower case. *)
Definition match_thinking (content : string) : option string :=
  first_match [("<thinking:on>", "on"); ("<thinking:off>", "off")]
              (toLowerCase content).

(** [content.match(/<Effort:(Low|Medium|High)>/i)], group 1 in lower case. *)
Definition match_effort (content : string) : option string :=
  first_match [("<effort:low>", "low"); ("<effort:medium>", "medium");
               ("<effort:high>", "high")]
              (toLowerCase content).

Definition is_string (v : option JSON) (s : string) : bool :=
  match v with
  | Some (JString s') => String.eqb s' s
  | _ => false
  end.

(** A property of an object literal: left out when the value is
    [undefined], as it is once the request is serialized. *)
Definition field (k : string) (v : option JSON) : list (string * JSON) :=
  match v with
  | Some x => [(k, x)]
  | None => []
  end.

Section Buffered.

Variable defaultThinking : bool.

Definition modelMaxTokens : list (string * Z) :=
  [("GLM-4.6", 128000); ("GLM-4.5", 96000); ("GLM-4.5-air", 16000)].

Definition _mapModel (anthropicModel : option JSON) : string := "GLM-4.6".

Definition _getMaxTokens (model : string) : Z :=
  match find (fun kv => String.eqb (fst kv) model) modelMaxTokens with
  | Some (_, n) => if n =? 0 then 128000 else n
  | None => 128000
  end.

(** One turn of the loop of [_extractThinkingControl]. *)
Definition extract_step (config : ThinkingConfig) (msg : JSON)
  : Pure ThinkingConfig :=
  let* role := prop "role" msg in
  if negb (is_string role "user") then ret config
  else
    let* content := prop "content" msg in
    match content with
    | Some (JString content) =>
        let config :=
          match match_thinking content with
          | Some m => mkThinkingConfig (String.eqb m "on") (effort config)
          | None => config
          end in
        ret match match_effort content with
            | Some m => mkThinkingConfig (thinking config) (Some m)
            | None => config
            end
    | _ => ret config
    end.

Fixpoint foldM {A B} (f : A -> B -> Pure A) (l : list B) (a : A) : Pure A :=
  match l with
  | [] => ret a
  | x :: l' => let* a' := f a x in foldM f l' a'
  end.

Definition _extractThinkingControl (messages : JSON) : Pure ThinkingConfig :=
  let* msgs := iterate messages in
  foldM extract_step msgs (mkThinkingConfig defaultThinking (Some "medium")).

Fixpoint mapM {A B} (f : A -> Pure B) (l : list A) : Pure (list B) :=
  match l with
  | [] => ret []
  | x :: l' => let* y := f x in let* ys := mapM f l' in ret (y :: ys)
  end.

(** [content.filter(block => block.type === 'text')] *)
Fixpoint filter_text (blocks : list JSON) : Pure (list JSON) :=
  match blocks with
  | [] => ret []
  | b :: bs =>
      let* ty := prop "type" b in
      let* rest := filter_text bs in
      ret (if is_string ty "text" then b :: rest else rest)
  end.

(** The callback of [messages.map] in [_sanitizeMessages]. *)
Definition sanitize_message (msg : JSON) : Pure JSON :=
  let* content := prop "content" msg in
  match content with
  | Some (JString _) => ret msg
  | Some (JArray blocks) =>
      let* sanitizedContent := filter_text blocks in
      let* role := prop "role" msg in
      match sanitizedContent with
      | [] => ret (JObject (field "role" role ++ [("content", JString "")]))
      | [block] =>
          let* text := prop "text" block in
          ret (JObject (field "role" role ++ field "content" text))
      | _ =>
          ret (JObject (field "role" role
                          ++ [("content", JArray sanitizedContent)]))
      end
  | _ => ret msg
  end.

Definition _sanitizeMessages (messages : JSON) : Pure JSON :=
  match messages with
  | JArray msgs => let* out := mapM sanitize_message msgs in ret (JArray out)
  | _ => throw (TypeError "messages.map is not a function")
  end.

(** The fields [_injectReasoningParams] adds to the request. *)
Definition _injectReasoningParams (config : ThinkingConfig)
  : list (string * JSON) :=
  [("do_sample", JBool true)]
    ++ (if thinking config
        then [("reasoning", JBool true)]
               ++ field "reasoning_effort" (JString <$> effort config)
        else []).

(** The [try] block of [transformRequest].  It builds new objects and
    assigns to none of the request's. *)
Definition transformRequest_body (anthropicRequest : JSON)
  : Pure RequestResult :=
  let* messages := prop "messages" anthropicRequest in
  let* thinkingConfig := _extractThinkingControl (or_empty_array messages) in
  let* model := prop "model" anthropicRequest in
  let glmModel := _mapModel model in
  let* messages := prop "messages" anthropicRequest in
  let* sanitized := _sanitizeMessages (or_empty_array messages) in
  let* stream := prop "stream" anthropicRequest in
  let* temperature := prop "temperature" anthropicRequest in
  let* top_p := prop "top_p" anthropicRequest in
  ret (mkRequestResult
         (JObject
            ([("model", JString glmModel);
              ("messages", sanitized);
              ("max_tokens", JNumber (inject_Z (_getMaxTokens glmModel)));
              ("stream", default (JBool false) stream)]
               ++ field "temperature" temperature
               ++ field "top_p" top_p
               ++ _injectReasoningParams thinkingConfig))
         thinkingConfig None).

Definition transformRequest (anthropicRequest : JSON) : Pure RequestResult :=
  try_catch
    (transformRequest_body anthropicRequest)
    (fun error =>
       ret (mkRequestResult anthropicRequest
                            (mkThinkingConfig false None) (Some error))).

End Buffered.

End GlmtTransformer.

(** * Inputs and predicates of the properties *)

Module Scenario.
Import DeltaAccumulator GlmtTransformer.

(** The two chunks of the partial-frame test, and the text and value of
    the payload they carry between them. *)
Definition payload_text : string :=
  "{" +:+ String dquote ("a" +:+ String dquote ":1}").
Definition chunk1 : string :=
  "data: {" +:+ String dquote ("a" +:+ String dquote ":1").
Definition chunk2 : string := String "}" (String newline (String newline "")).
Definition payload_a1 : JSON := JObject [("a", JNumber 1)].

(** A stand-in for [JSON.parse] that knows this one text. *)
Definition parse_a1 (s : string) : option JSON :=
  if String.eqb s payload_text then Some payload_a1 else None.

(** A chunk made of one complete frame. *)
Definition done_frame : string :=
  "data: [DONE]" +:+ String newline (String newline "").

(** Every call of [parse] in a row of calls raises. *)
Fixpoint all_throw (JSON_parse : string -> option JSON)
         (chunks : list string) (p : SSEParser.t) : Prop :=
  match chunks with
  | [] => True
  | c :: cs =>
      exists p', SSEParser.parse JSON_parse c p
                 = Throw (SSEBufferExceeded (SSEParser.maxBufferSize p)) p'
                 /\ all_throw JSON_parse cs p'
  end.

(** Upstream events with one choice. *)
Definition delta_event (d : Delta.t) (finish : option string)
           (usage : option Usage.t) : UpstreamEvent.t :=
  UpstreamEvent.mk "message"
    (Some (Payload.mk [Choice.mk (Some d) finish] None usage)).

Definition reasoning_event (s : string) : UpstreamEvent.t :=
  delta_event (Delta.mk None None (Some s) []) None None.
Definition text_event (s : string) : UpstreamEvent.t :=
  delta_event (Delta.mk None (Some s) None []) None None.
Definition finish_event (s : string) : UpstreamEvent.t :=
  delta_event (Delta.mk None None None []) (Some s) None.
Definition done_event : UpstreamEvent.t := UpstreamEvent.mk "done" None.

(** The closing chunk of an OpenAI-style stream: usage and no choice. *)
Definition closing_usage : Usage.t := Usage.mk (Some 10) None (Some 20) None.
Definition usage_only_event : UpstreamEvent.t :=
  UpstreamEvent.mk "message" (Some (Payload.mk [] None (Some closing_usage))).

(** A last delta that carries text, the finish reason and the usage, the
    usage under its other naming. *)
Definition last_usage : Usage.t := Usage.mk None (Some 7) None (Some 9).
Definition last_delta : Delta.t := Delta.mk None (Some "hi") None [].
Definition last_choice : Choice.t := Choice.mk (Some last_delta) (Some "stop").
Definition last_payload : Payload.t :=
  Payload.mk [last_choice] None (Some last_usage).
Definition last_event : UpstreamEvent.t :=
  UpstreamEvent.mk "message" (Some last_payload).

(** Requests on which the buffered transformation fails: in directive
    extraction (a message that is [null]) and in message sanitization (a
    content block that is [null]). *)
Definition null_message_request : JSON :=
  JObject [("model", JString "claude"); ("messages", JArray [JNull])].
Definition null_block_request : JSON :=
  JObject [("messages",
            JArray [JObject [("role", JString "user");
                             ("content", JArray [JNull])]])].

(** A block is open when it has started and has not stopped. *)
Definition is_open (b : Block.t) : bool :=
  Block.started b && negb (Block.stopped b).

Definition open_count (a : DeltaAccumulator.t) : nat :=
  length (filter (fun b => is_open b = true) (contentBlocks a)).

(** The working buffer of a block type; [tool_use] blocks, and any other
    type, have none. *)
Definition workingBuffer (a : DeltaAccumulator.t) (type : string)
  : option string :=
  if String.eqb type "thinking" then Some (thinkingBuffer a)
  else if String.eqb type "text" then Some (textBuffer a)
  else None.

(** [n] calls of [startBlock] in a row. *)
Fixpoint startBlocks (n : nat) (type : string) : M DeltaAccumulator.t unit :=
  match n with
  | O => ret tt
  | S n' => let* _ := startBlock type in startBlocks n' type
  end.


Definition without_usage (ev : UpstreamEvent.t) : UpstreamEvent.t :=
  UpstreamEvent.mk (UpstreamEvent.event ev)
    ((fun p => Payload.mk (Payload.choices p) (Payload.model p) None)
       <$> UpstreamEvent.data ev).

(** Tool-call fragments. *)
Definition fragment (i : Z) (id name args : string) : ToolCallDelta.t :=
  ToolCallDelta.mk i (Some id) None (Some name) (Some args).

(** The entry [addToolCallDelta] finds or creates for a call index. *)
Definition entry (a : DeltaAccumulator.t) (i : Z) : ToolCall.t :=
  default (ToolCall.mk i "" "function" "" "") (toolCallsIndex a !! i).

(** A digest for the examples. *)
Definition no_digest (s : string) : string := "".

(** A fresh accumulator with the default limits, and one whose blocks
    hold a single character. *)
Definition fresh : DeltaAccumulator.t := DeltaAccumulator.new "msg_1" no_options.
Definition tiny : DeltaAccumulator.t :=
  DeltaAccumulator.new "msg_1" (mkOptions None (Some 1)).

(** An event that shows no output-token count of the accumulator: no
    [message_delta], and a [message_start] only with its constant zero. *)
Definition no_output_count (e : AnthropicEvent) : Prop :=
  match e with
  | message_delta _ _ => False
  | message_start _ _ _ _ out => out = 0
  | _ => True
  end.



(** [openaiEvent.data?.choices?.[0]?.delta] *)
Definition first_delta (ev : UpstreamEvent.t) : option Delta.t :=
  match UpstreamEvent.data ev with
  | Some payload =>
      match head (Payload.choices payload) with
      | Some choice => Choice.delta choice
      | None => None
      end
  | None => None
  end.

(** The tool-call table of an accumulator. *)
Definition tool_table (a : DeltaAccumulator.t) : list Z * gmap Z ToolCall.t :=
  (toolCalls a, toolCallsIndex a).

Definition has_tools (table : list Z * gmap Z ToolCall.t)
           (a : DeltaAccumulator.t) : Prop :=
  tool_table a = table.

(** A computation that keeps an invariant [I] of the state, whether it
    returns or raises. *)
Definition preserves {S A} (I : S -> Prop) (m : M S A) : Prop :=
  forall s, I s -> I (state_of (m s)).

(** The current block is the last one recorded, and its content is the
    working buffer of its type, when the type has one. *)
Definition in_sync (a : DeltaAccumulator.t) : Prop :=
  currentBlockIndex a = Z.of_nat (length (contentBlocks a)) - 1
  /\ forall block buf,
      getCurrentBlock a = Some block ->
      workingBuffer a (Block.type block) = Some buf ->
      Block.content block = buf.

End Scenario.

(** ** Running the monad backwards *)

Ltac inv_run :=
  repeat match goal with
         | H : bind _ _ _ = Ok _ _ |- _ =>
             let x := fresh "x" in
             let s := fresh "s" in
             let Hm := fresh "Hm" in
             unfold bind in H at 1;
             match type of H with
             | match ?m ?a with _ => _ end = _ =>
                 destruct (m a) as [x s|? ?] eqn:Hm; [|discriminate H]
             end
         | H : ret _ _ = Ok _ _ |- _ =>
             unfold ret in H; injection H as ? ?; subst
         | H : gets _ _ = Ok _ _ |- _ =>
             unfold gets in H; injection H as ? ?; subst
         | H : modify _ _ = Ok _ _ |- _ =>
             unfold modify in H; injection H as ?; subst
         | H : throw _ _ = Ok _ _ |- _ => discriminate H
         | H : (if ?c then _ else _) _ = Ok _ _ |- _ => destruct c eqn:?
         | H : (match ?x with _ => _ end) _ = Ok _ _ |- _ => destruct x eqn:?
         end.

(** * Lines and frames *)

Module Frames.

(** The complete lines of a buffer and the unfinished line after them, as
    [parse] takes them from [split] and [pop]. *)
Definition carry (buf : string) : list string * string :=
  match pop (split newline buf) with
  | Some (lines, last) => (lines, last)
  | None => ([], "")
  end.

(** The text of some complete lines: each line with its newline. *)
Fixpoint unlines (lines : list string) : string :=
  match lines with
  | [] => ""
  | l :: ls => l +:+ String newline (unlines ls)
  end.

Fixpoint has_newline (s : string) : bool :=
  match s with
  | EmptyString => false
  | String c s' => Ascii.eqb c newline || has_newline s'
  end.

(** A line that sets a field of the event in progress. *)
Definition is_field_line (line : string) : bool :=
  startsWith "event: " line || startsWith "id: " line
  || startsWith "retry: " line.

(** A data line whose payload [JSON.parse] rejects. *)
Definition malformed (JSON_parse : string -> option JSON) (line : string)
  : Prop :=
  startsWith "data: " line = true
  /\ substring_from 6 line <> SSEParser.DONE
  /\ JSON_parse (substring_from 6 line) = None.

(** The loop of [parse] over some lines, from an event count. *)
Definition run_lines (JSON_parse : string -> option JSON)
           (lines : list string) (count : Z)
  : Z * list SSEParser.Event * SSEParser.Current :=
  fold_left (SSEParser.parse_line JSON_parse) lines
            (count, [], SSEParser.fresh_current).

Definition no_newline (s : string) : Prop := has_newline s = false.

End Frames.

(** * Invariants of the accumulator *)

Module Invariants.
Import DeltaAccumulator GlmtTransformer Scenario.

(** An invariant that the methods on blocks keep and that does not look at
    the fields [transformDelta] and [finalizeDelta] assign themselves. *)
Definition block_invariant (I : DeltaAccumulator.t -> Prop) : Prop :=
  (forall type, preserves I (startBlock type))
  /\ (forall delta, preserves I (addDelta delta))
  /\ preserves I stopCurrentBlock
  /\ (forall usage, preserves I (updateUsage usage))
  /\ (forall v a, I a -> I (set_model v a))
  /\ (forall v a, I a -> I (set_role v a))
  /\ (forall v a, I a -> I (set_messageStarted v a))
  /\ (forall v a, I a -> I (set_finishReason v a))
  /\ (forall v a, I a -> I (set_finalized v a)).

(** The current block is the last one, and the block at place [i] has
    index [i]. *)
Definition well_indexed (a : DeltaAccumulator.t) : Prop :=
  currentBlockIndex a = Z.of_nat (length (contentBlocks a)) - 1
  /\ forall i block, contentBlocks a !! i = Some block ->
                     Block.index block = Z.of_nat i.


(** [a'] has the blocks of [a], each at its place with its index and type,
    stopped if it was, its content grown at the end if at all, and the
    limits of [a]. *)
Definition grown_from (a a' : DeltaAccumulator.t) : Prop :=
  maxBlocks a' = maxBlocks a
  /\ maxBufferSize a' = maxBufferSize a
  /\ forall i block,
      contentBlocks a !! i = Some block ->
      exists block',
        contentBlocks a' !! i = Some block'
        /\ Block.index block' = Block.index block
        /\ Block.type block' = Block.type block
        /\ Block.started block' = Block.started block
        /\ (Block.stopped block = true -> Block.stopped block' = true)
        /\ String.prefix (Block.content block) (Block.content block') = true.

(** The indices of the [content_block_start] events of a list. *)
Definition start_indices (events : list AnthropicEvent) : list Z :=
  omap (fun e => match e with
                 | content_block_start i _ => Some i
                 | _ => None
                 end) events.

(** What a run of [transformDelta] adds to the events, against what it
    adds to the blocks. *)
Definition announces (a a' : DeltaAccumulator.t)
           (events0 events : list AnthropicEvent) : Prop :=
  currentBlockIndex a' = Z.of_nat (length (contentBlocks a')) - 1
  /\ (length (contentBlocks a) <= length (contentBlocks a'))%nat
  /\ exists extra,
      events = (events0 ++ extra)%list
      /\ start_indices extra
         = seqZ (Z.of_nat (length (contentBlocks a)))
                (Z.of_nat (length (contentBlocks a'))
                 - Z.of_nat (length (contentBlocks a))).

(** The events of a block: its start, its deltas, its signature, its
    stop. *)
Definition is_block_event (e : AnthropicEvent) : Prop :=
  match e with
  | content_block_start _ _ | thinking_delta _ _ | text_delta _ _
  | signature_delta _ _ _ _ | content_block_stop _ => True
  | _ => False
  end.

Definition is_message_start (e : AnthropicEvent) : bool :=
  match e with
  | message_start _ _ _ _ _ => true
  | _ => false
  end.

(** The number of [message_start] events of a list. *)
Definition message_starts (events : list AnthropicEvent) : nat :=
  length (List.filter is_message_start events).

(** The model name that [message_start] carries for a payload. *)
Definition start_model (payload : Payload.t) (a : DeltaAccumulator.t)
  : string :=
  default "glm-4.6"
          (truthy (match truthy (Payload.model payload) with
                   | Some m => Some m
                   | None => model a
                   end)).

(** The reasoning text and the answer text that an event delivers. *)
Definition reasoning_of (ev : UpstreamEvent.t) : option string :=
  match first_delta ev with
  | Some delta => truthy (Delta.reasoning_content delta)
  | None => None
  end.

Definition text_of (ev : UpstreamEvent.t) : option string :=
  match first_delta ev with
  | Some delta => truthy (Delta.content delta)
  | None => None
  end.

(** Only the current block may be open. *)
Definition exclusive (a : DeltaAccumulator.t) : Prop :=
  forall i block,
    contentBlocks a !! i = Some block ->
    is_open block = true ->
    Z.of_nat i = currentBlockIndex a.

Definition all_closed (a : DeltaAccumulator.t) : Prop :=
  Forall (fun b => is_open b = false) (contentBlocks a).

(** The blocks are thinking and text blocks, the current block is the
    last, and no other block is open. *)
Definition tidy (a : DeltaAccumulator.t) : Prop :=
  currentBlockIndex a = Z.of_nat (length (contentBlocks a)) - 1
  /\ exclusive a
  /\ Forall (fun b => Block.type b = "thinking" \/ Block.type b = "text")
            (contentBlocks a).

Definition only_thinking (a : DeltaAccumulator.t) : Prop :=
  Forall (fun b => Block.type b = "thinking") (contentBlocks a).

(** The current block is open and is not a thinking block. *)
Definition other_block_open (a : DeltaAccumulator.t) : bool :=
  match getCurrentBlock a with
  | Some b => negb (String.eqb (Block.type b) "thinking") && is_open b
  | None => false
  end.

(** From a state in [P], a computation ends, by returning or by raising,
    in a state in [Q]. *)
Definition leads {S A} (P : S -> Prop) (m : M S A) (Q : S -> Prop) : Prop :=
  forall s, P s -> Q (state_of (m s)).

End Invariants.

(** * Sample streams *)

Module Samples.
Import DeltaAccumulator GlmtTransformer Scenario.

(** Two sentinel frames in one chunk. *)
Definition two_sentinels : string := done_frame +:+ done_frame.

(** A stream of reasoning, then answer text, then the finish reason, each
    event with the clock reading at its arrival. *)
Definition sample_stream : list (Z * UpstreamEvent.t) :=
  [(1, reasoning_event "plan"); (2, text_event "answer");
   (3, finish_event "stop")].

(** The accumulator after the first event of [sample_stream]: a thinking
    block is open. *)
Definition thinking_open : DeltaAccumulator.t :=
  state_of (transformDelta no_digest 1 (reasoning_event "plan") fresh).

End Samples.

(** * Tool calls *)

Module Tools.
Import DeltaAccumulator Scenario.

(** [addToolCallDelta] called on each fragment of a list in turn. *)
Fixpoint addToolCallDeltas (fragments : list ToolCallDelta.t)
  : M DeltaAccumulator.t unit :=
  match fragments with
  | [] => ret tt
  | d :: rest => addToolCallDelta d ;; addToolCallDeltas rest
  end.

(** The fragments of a list that belong to the call at index [i]. *)
Definition fragments_of (i : Z) (fragments : list ToolCallDelta.t)
  : list ToolCallDelta.t :=
  filter (fun d => ToolCallDelta.index d = i) fragments.

(** The last of some optional strings that is present and not empty. *)
Definition last_present (dflt : string) (l : list (option string)) : string :=
  foldl (fun acc o => default acc (truthy o)) dflt l.

(** The optional strings that are present, joined. *)
Definition join_present (l : list (option string)) : string :=
  foldr (fun o acc => default "" o +:+ acc) "" l.

(** A call with some fragments put together: the last identifier and the
    last type given, the name pieces and the argument pieces joined in the
    order of arrival. *)
Definition assembled (c : ToolCall.t) (fs : list ToolCallDelta.t)
  : ToolCall.t :=
  ToolCall.mk (ToolCall.index c)
              (last_present (ToolCall.id c) (ToolCallDelta.id <$> fs))
              (last_present (ToolCall.type c) (ToolCallDelta.type <$> fs))
              (ToolCall.name c +:+ join_present (ToolCallDelta.name <$> fs))
              (ToolCall.arguments c
                 +:+ join_present (ToolCallDelta.arguments <$> fs)).

(** The array of calls and the table by index agree: the array lists each
    index of the table once, and the call under an index carries it. *)
Definition tools_consistent (a : DeltaAccumulator.t) : Prop :=
  NoDup (toolCalls a)
  /\ (forall k, k ∈ toolCalls a <-> is_Some (toolCallsIndex a !! k))
  /\ forall k c, toolCallsIndex a !! k = Some c -> ToolCall.index c = k.

End Tools.

(** * Loop detection *)

(** The two fields of the accumulator that only loop detection reads and
    writes; the state of its methods is the accumulator with them.  The
    threshold is a whole number. *)
Module LoopDetection.
Import DeltaAccumulator.

Record t : Type := mk {
  loopDetectionThreshold : Z;
  loopDetected : bool
}.

(** The part the constructor plays: [options.loopDetectionThreshold || 3]
    and [false]. *)
Definition new (loopDetectionThreshold_opt : option Z) : t :=
  mk (or_default loopDetectionThreshold_opt 3) false.

Definition set_loopDetected (v : bool) (d : t) : t :=
  mk (loopDetectionThreshold d) v.

(** [arr.slice(start)] *)
Definition slice_from {A} (start : Z) (l : list A) : list A :=
  let len := Z.of_nat (length l) in
  let k := if start <? 0 then Z.max (len + start) 0 else Z.min start len in
  drop (Z.to_nat k) l.

Definition checkForLoop : M (DeltaAccumulator.t * t) bool :=
  fun '(a, d) =>
    if loopDetected d then Ok true (a, d)
    else if Z.of_nat (length (contentBlocks a)) <? loopDetectionThreshold d
    then Ok false (a, d)
    else
      let recentBlocks :=
        slice_from (- loopDetectionThreshold d) (contentBlocks a) in
      let allThinking :=
        forallb (fun b => String.eqb (Block.type b) "thinking") recentBlocks in
      let noToolCalls := Z.of_nat (length (toolCalls a)) =? 0 in
      if allThinking && noToolCalls then Ok true (a, set_loopDetected true d)
      else Ok false (a, d).

Definition resetLoopDetection : M (DeltaAccumulator.t * t) unit :=
  fun '(a, d) => Ok tt (a, set_loopDetected false d).

End LoopDetection.

(** * Requests *)

Module Requests.
Import GlmtTransformer.

(** The property [k] of a value that is not [null]. *)
Definition get (k : string) (v : JSON) : option JSON :=
  match v with
  | JObject fields => snd <$> find (fun kv => String.eqb (fst kv) k) fields
  | _ => None
  end.

Definition is_text_block (block : JSON) : Prop :=
  get "type" block = Some (JString "text").

(** A message with a role and a string content. *)
Definition message (role content : string) : JSON :=
  JObject [("role", JString role); ("content", JString content)].

Fixpoint has_char (c : ascii) (s : string) : bool :=
  match s with
  | EmptyString => false
  | String c' s' => Ascii.eqb c' c || has_char c s'
  end.

Definition is_null (v : JSON) : bool :=
  match v with
  | JNull => true
  | _ => false
  end.

(** A message that is not [null] and whose content, if an array, holds no
    [null]. *)
Definition message_ok (msg : JSON) : bool :=
  negb (is_null msg)
  && match get "content" msg with
     | Some (JArray blocks) => forallb (fun b => negb (is_null b)) blocks
     | _ => true
     end.

(** The requests that [transformRequest] transforms: not [null], and the
    [messages], if truthy, an array of messages that are [message_ok]. *)
Definition transformable (request : JSON) : bool :=
  negb (is_null request)
  && (negb (js_truthy (get "messages" request))
      || match get "messages" request with
         | Some (JArray msgs) => forallb message_ok msgs
         | _ => false
         end).

End Requests.

(** * The transformer, buffered response *)

(** The chat completion that [transformResponse] takes, by the properties
    it reads; [None] is a property that is missing. *)
Module FunctionCall.
Record t : Type := mk {
  name : option string;
  arguments : option string
}.
End FunctionCall.

Module MessageToolCall.
Record t : Type := mk {
  id : option string;
  function : option FunctionCall.t
}.
End MessageToolCall.

Module Message.
Record t : Type := mk {
  reasoning_content : option string;
  content : option string;
  tool_calls : option (list MessageToolCall.t)
}.
End Message.

Module MessageChoice.
Record t : Type := mk {
  message : option Message.t;
  finish_reason : option string
}.
End MessageChoice.

Module Completion.
Record t : Type := mk {
  id : option string;
  model : option string;
  choices : option (list MessageChoice.t);
  usage : option Usage.t
}.
End Completion.

(** What the [try] block of [transformResponse] can raise: its own error,
    the reading of a property of [undefined], and [JSON.parse] on a text
    that it rejects. *)
Inductive ResponseError : Type :=
| NoChoices
| UndefinedProperty (key : string)
| ArgumentsSyntaxError (text : string).

(** A block of the [content] of a response. *)
Inductive ContentBlock : Type :=
| thinking_block (thinking : string) (signature : string * Z * Z)
| text_block (text : string)
| tool_use_block (id name : option string) (input : JSON).

Module AnthropicResponse.
Record t : Type := mk {
  id : string;
  type : string;
  role : string;
  content : list ContentBlock;
  model : option string;
  stop_reason : StopReason;
  usage : Usage.t
}.
End AnthropicResponse.

Module Validation.
Record Checks : Type := mkChecks {
  hasContent : bool;
  hasThinking : bool;
  hasText : bool;
  validStructure : bool;
  hasUsage : bool
}.

Record t : Type := mk {
  checks : Checks;
  passed : Z;
  total : Z;
  valid : bool
}.
End Validation.

Module BufferedResponse.
Import GlmtTransformer.

Definition zero_usage : Usage.t := Usage.mk None (Some 0) None (Some 0).

Definition is_thinking (block : ContentBlock) : bool :=
  match block with
  | thinking_block _ _ => true
  | _ => false
  end.

Definition is_text (block : ContentBlock) : bool :=
  match block with
  | text_block _ => true
  | _ => false
  end.

Definition is_tool_use (block : ContentBlock) : bool :=
  match block with
  | tool_use_block _ _ _ => true
  | _ => false
  end.

Definition count_true (l : list bool) : Z :=
  Z.of_nat (length (List.filter (fun b : bool => b) l)).

Definition _validateTransformation (anthropicResponse : AnthropicResponse.t)
  : Validation.t :=
  let content := AnthropicResponse.content anthropicResponse in
  let checks :=
    Validation.mkChecks
      (0 <? Z.of_nat (length content))
      (existsb is_thinking content)
      (existsb is_text content)
      (String.eqb (AnthropicResponse.type anthropicResponse) "message"
       && String.eqb (AnthropicResponse.role anthropicResponse) "assistant")
      true in
  let passed :=
    count_true [Validation.hasContent checks; Validation.hasThinking checks;
                Validation.hasText checks; Validation.validStructure checks;
                Validation.hasUsage checks] in
  let total := 5 in
  Validation.mk checks passed total (passed =? total).

Section Response.

Variable JSON_parse : string -> option JSON.
Variable sha256_hex : string -> string.

(** [error.message] of the errors that the engine raises. *)
Variable engine_message : ResponseError -> string.

Definition error_message (e : ResponseError) : string :=
  match e with
  | NoChoices => "No choices in OpenAI response"
  | _ => engine_message e
  end.

(** The text that [JSON.parse] gets for a tool call:
    [toolCall.function.arguments || '{}']. *)
Definition arguments_text (f : FunctionCall.t) : string :=
  default "{}" (truthy (FunctionCall.arguments f)).

(** The block the callback of [forEach] pushes for a tool call. *)
Definition tool_use_of (toolCall : MessageToolCall.t)
  : ResponseError + ContentBlock :=
  match MessageToolCall.function toolCall with
  | None => inl (UndefinedProperty "name")
  | Some f =>
      match JSON_parse (arguments_text f) with
      | Some input =>
          inr (tool_use_block (MessageToolCall.id toolCall)
                              (FunctionCall.name f) input)
      | None => inl (ArgumentsSyntaxError (arguments_text f))
      end
  end.

(** [message.tool_calls.forEach(...)] pushing onto [content]. *)
Fixpoint forEach_tool_call (tool_calls : list MessageToolCall.t)
         (content : list ContentBlock)
  : ResponseError + list ContentBlock :=
  match tool_calls with
  | [] => inr content
  | toolCall :: rest =>
      match tool_use_of toolCall with
      | inl e => inl e
      | inr block => forEach_tool_call rest (push content block)
      end
  end.

(** The [try] block of [transformResponse]; [now] is what [Date.now()]
    returns for the signature, [fresh_id] is ['msg_' + Date.now()]. *)
Definition transformResponse_body (now : Z) (fresh_id : string)
           (openaiResponse : Completion.t)
  : ResponseError + AnthropicResponse.t :=
  match head (default [] (Completion.choices openaiResponse)) with
  | None => inl NoChoices
  | Some choice =>
      match MessageChoice.message choice with
      | None => inl (UndefinedProperty "reasoning_content")
      | Some message =>
          let content := [] in
          let content :=
            match truthy (Message.reasoning_content message) with
            | Some reasoning =>
                push content
                     (thinking_block
                        reasoning
                        (_generateThinkingSignature sha256_hex now reasoning))
            | None => content
            end in
          let content :=
            match truthy (Message.content message) with
            | Some text => push content (text_block text)
            | None => content
            end in
          match forEach_tool_call (default [] (Message.tool_calls message))
                                  content with
          | inl e => inl e
          | inr content =>
              inr (AnthropicResponse.mk
                     (default fresh_id (truthy (Completion.id openaiResponse)))
                     "message" "assistant" content
                     (Some (default "glm-4.6"
                                    (truthy (Completion.model openaiResponse))))
                     (match MessageChoice.finish_reason choice with
                      | Some reason => _mapStopReason reason
                      | None => Reason "end_turn"
                      end)
                     (default zero_usage (Completion.usage openaiResponse)))
          end
      end
  end.

(** The response of the [catch] block; [error_id] is
    ['msg_error_' + Date.now()]. *)
Definition error_response (error_id : string) (e : ResponseError)
  : AnthropicResponse.t :=
  AnthropicResponse.mk
    error_id "message" "assistant"
    [text_block ("[Transformation Error] " +:+ error_message e)]
    None (Reason "end_turn") zero_usage.

Definition transformResponse (now : Z) (fresh_id error_id : string)
           (openaiResponse : Completion.t) : AnthropicResponse.t :=
  match transformResponse_body now fresh_id openaiResponse with
  | inr anthropicResponse => anthropicResponse
  | inl e => error_response error_id e
  end.

(** A tool call whose block can be built. *)
Definition builds (toolCall : MessageToolCall.t) : bool :=
  match MessageToolCall.function toolCall with
  | Some f => bool_decide (is_Some (JSON_parse (arguments_text f)))
  | None => false
  end.

(** The completions that [transformResponse] transforms: a first choice
    with a message, each of whose tool calls has a function and arguments
    that [JSON.parse] takes. *)
Definition transformable_response (openaiResponse : Completion.t) : bool :=
  match head (default [] (Completion.choices openaiResponse)) with
  | Some choice =>
      match MessageChoice.message choice with
      | Some message =>
          forallb builds (default [] (Message.tool_calls message))
      | None => false
      end
  | None => false
  end.

(** The input that [JSON.parse] gives for the arguments of a tool call. *)
Definition parsed_input (toolCall : MessageToolCall.t) (input : JSON) : Prop :=
  exists f,
    MessageToolCall.function toolCall = Some f
    /\ JSON_parse (arguments_text f) = Some input.

(** The blocks of a message before its tool calls. *)
Definition leading_blocks (now : Z) (message : Message.t)
  : list ContentBlock :=
  (match truthy (Message.reasoning_content message) with
   | Some reasoning =>
       [thinking_block reasoning
                       (_generateThinkingSignature sha256_hex now reasoning)]
   | None => []
   end
   ++ match truthy (Message.content message) with
      | Some text => [text_block text]
      | None => []
      end)%list.

End Response.

End BufferedResponse.

(** * Sample requests and completions *)

Module Examples.
Import GlmtTransformer Scenario Requests.



(** A request that names a model and a temperature and asks for
    thinking. *)
Definition sample_request : JSON :=
  JObject [("model", JString "claude");
           ("messages", JArray [message "user" "<Thinking:On> hi"]);
           ("temperature", JNumber 1)].

(** A completion with reasoning, text and one tool call, whose arguments
    are the text that [parse_a1] knows. *)
Definition sample_tool_call : MessageToolCall.t :=
  MessageToolCall.mk (Some "call_1")
                     (Some (FunctionCall.mk (Some "get") (Some payload_text))).

Definition sample_message : Message.t :=
  Message.mk (Some "plan") (Some "answer") (Some [sample_tool_call]).

Definition sample_choice : MessageChoice.t :=
  MessageChoice.mk (Some sample_message) (Some "tool_calls").

Definition sample_completion : Completion.t :=
  Completion.mk (Some "chatcmpl_1") None (Some [sample_choice]) None.

(** An engine whose errors have no text. *)
Definition no_message (e : ResponseError) : string := "".

End Examples.

(** * Properties *)

Import SSEParser DeltaAccumulator GlmtTransformer Scenario.

(** ** Frame parser *)

Lemma strlen_app (s1 s2 : string) : strlen (s1 +:+ s2) = strlen s1 + strlen s2.
Proof.
  unfold strlen. induction s1 as [|c s1 IH]; simpl.
  - reflexivity.
  - lia.
Qed.

Lemma strlen_nonneg (s : string) : 0 <= strlen s.
Proof. unfold strlen. lia. Qed.

(** [parse] raises exactly when the buffer with the chunk appended is over
    the limit, and then keeps that buffer. *)
Lemma parse_throws JSON_parse (chunk : string) (p : SSEParser.t) :
  strlen (SSEParser.buffer p +:+ chunk) > SSEParser.maxBufferSize p ->
  parse JSON_parse chunk p
  = Throw (SSEBufferExceeded (SSEParser.maxBufferSize p))
          (SSEParser.mk (SSEParser.buffer p +:+ chunk) (eventCount p)
                        (SSEParser.maxBufferSize p)).
Proof.
  intros H. unfold parse.
  destruct (Z.gtb_spec (strlen (SSEParser.buffer p +:+ chunk))
                       (SSEParser.maxBufferSize p)) as [_|Hle]; [reflexivity|lia].
Qed.

Lemma parse_returns JSON_parse (chunk : string) (p : SSEParser.t) :
  strlen (SSEParser.buffer p +:+ chunk) <= SSEParser.maxBufferSize p ->
  exists events p', parse JSON_parse chunk p = Ok events p'.
Proof.
  intros H. unfold parse.
  destruct (Z.gtb_spec (strlen (SSEParser.buffer p +:+ chunk))
                       (SSEParser.maxBufferSize p)) as [Hgt|_]; [lia|].
  destruct (pop _) as [[lines last]|];
    destruct (fold_left _ _ _) as [[count events] cur]; eauto.
Qed.

Lemma overflow_all_throw JSON_parse (chunks : list string) :
  forall p : SSEParser.t,
    strlen (SSEParser.buffer p) > SSEParser.maxBufferSize p ->
    all_throw JSON_parse chunks p.
Proof.
  induction chunks as [|c cs IH]; intros p Hp; simpl; [exact I|].
  eexists. split.
  - apply parse_throws. rewrite strlen_app. pose proof (strlen_nonneg c). lia.
  - apply IH. simpl. rewrite strlen_app. pose proof (strlen_nonneg c). lia.
Qed.

(** C8. Fed [data: {"a":1] and then the closing brace with two newlines, a
    fresh parser returns no event from the first call, keeping the
    unfinished line, and from the second call exactly one event, the first
    of the connection, whose payload is what [JSON.parse] makes of
    [{"a":1}]: the object [{a:1}]. *)
Theorem parse_partial_frame (JSON_parse : string -> option JSON) :
  JSON_parse payload_text = Some payload_a1 ->
  exists p1 p2,
    parse JSON_parse chunk1 (SSEParser.new None) = Ok [] p1
    /\ SSEParser.buffer p1 = chunk1
    /\ parse JSON_parse chunk2 p1
       = Ok [SSEParser.mkEvent "message" payload_a1 1 None None] p2
    /\ SSEParser.buffer p2 = "".
Proof.
  intros Hparse. eexists; eexists.
  split; [reflexivity|]. split; [reflexivity|].
  split.
  - vm_compute in Hparse. vm_compute. rewrite Hparse. reflexivity.
  - reflexivity.
Qed.

Lemma parse_partial_frame_witness :
  exists p1 p2,
    parse parse_a1 chunk1 (SSEParser.new None) = Ok [] p1
    /\ SSEParser.buffer p1 = chunk1
    /\ parse parse_a1 chunk2 p1
       = Ok [SSEParser.mkEvent "message" payload_a1 1 None None] p2
    /\ SSEParser.buffer p2 = "".
Proof. apply (parse_partial_frame parse_a1). reflexivity. Defined.

(** C10. When the carry-over with the new chunk appended is longer than
    [maxBufferSize], [parse] raises the resource-limit error, returning no
    event whatever the chunk holds, and the parser keeps the oversized
    buffer: every later call of [parse] raises too.  [reset] empties the
    buffer, after which a chunk within the limit is parsed again. *)
Theorem parse_overflow_persists (JSON_parse : string -> option JSON)
        (p : SSEParser.t) (chunk : string) :
  strlen (SSEParser.buffer p +:+ chunk) > SSEParser.maxBufferSize p ->
  exists p',
    parse JSON_parse chunk p
    = Throw (SSEBufferExceeded (SSEParser.maxBufferSize p)) p'
    /\ SSEParser.buffer p' = SSEParser.buffer p +:+ chunk
    /\ eventCount p' = eventCount p
    /\ (forall chunks, all_throw JSON_parse chunks p')
    /\ SSEParser.buffer (reset p') = ""
    /\ (forall chunk',
          strlen chunk' <= SSEParser.maxBufferSize p ->
          exists events p'', parse JSON_parse chunk' (reset p') = Ok events p'').
Proof.
  intros H. eexists. split; [apply parse_throws; exact H|].
  repeat split.
  - intros chunks. apply overflow_all_throw. exact H.
  - intros chunk' Hc. apply parse_returns. exact Hc.
Qed.

Lemma parse_overflow_persists_witness :
  exists p',
    parse parse_a1 done_frame (SSEParser.mk "" 0 10)
    = Throw (SSEBufferExceeded 10) p'
    /\ SSEParser.buffer p' = done_frame
    /\ eventCount p' = 0
    /\ (forall chunks, all_throw parse_a1 chunks p')
    /\ SSEParser.buffer (reset p') = ""
    /\ (forall chunk',
          strlen chunk' <= 10 ->
          exists events p'', parse parse_a1 chunk' (reset p') = Ok events p'').
Proof.
  apply (parse_overflow_persists parse_a1 (SSEParser.mk "" 0 10) done_frame).
  vm_compute. reflexivity.
Defined.

(** ** Stream accumulator *)

Lemma startBlock_throws (type : string) (a : DeltaAccumulator.t) :
  Z.of_nat (length (contentBlocks a)) >= maxBlocks a ->
  startBlock type a = Throw (MaxBlocksExceeded (maxBlocks a)) a.
Proof.
  intros H. unfold startBlock.
  destruct (Z.geb_spec (Z.of_nat (length (contentBlocks a))) (maxBlocks a));
    [reflexivity|lia].
Qed.

Lemma startBlock_returns (type : string) (a : DeltaAccumulator.t) :
  Z.of_nat (length (contentBlocks a)) < maxBlocks a ->
  exists a',
    startBlock type a
    = Ok (Block.mk (currentBlockIndex a + 1) type "" true false) a'
    /\ contentBlocks a'
       = push (contentBlocks a)
              (Block.mk (currentBlockIndex a + 1) type "" true false)
    /\ currentBlockIndex a' = currentBlockIndex a + 1
    /\ maxBlocks a' = maxBlocks a.
Proof.
  intros H. unfold startBlock.
  destruct (Z.geb_spec (Z.of_nat (length (contentBlocks a))) (maxBlocks a));
    [lia|].
  eexists. split; [reflexivity|].
  destruct (String.eqb type "thinking"); [|destruct (String.eqb type "text")];
    repeat split.
Qed.

Lemma length_push {A} (l : list A) (x : A) : length (push l x) = S (length l).
Proof. unfold push. rewrite length_app. simpl. lia. Qed.

(** As long as the limit leaves room, [n] blocks in a row are started. *)
Lemma startBlocks_returns (type : string) (n : nat) :
  forall a : DeltaAccumulator.t,
    Z.of_nat (length (contentBlocks a)) + Z.of_nat n <= maxBlocks a ->
    exists a',
      startBlocks n type a = Ok tt a'
      /\ length (contentBlocks a') = (length (contentBlocks a) + n)%nat
      /\ maxBlocks a' = maxBlocks a.
Proof.
  induction n as [|n IH]; intros a Hn.
  - exists a. repeat split. lia.
  - destruct (startBlock_returns type a) as (a1 & Hs & Hblocks & _ & Hmax);
      [lia|].
    destruct (IH a1) as (a' & Hrest & Hlen & Hmax').
    + rewrite Hblocks, length_push, Hmax. lia.
    + exists a'. cbn [startBlocks]. unfold bind. rewrite Hs.
      split; [exact Hrest|].
      rewrite Hlen, Hblocks, length_push, Hmax', Hmax. split; [lia|reflexivity].
Qed.

(** C7. [startBlock] raises the resource-limit error, changing nothing,
    whenever the number of recorded blocks has reached [maxBlocks];
    otherwise it appends a new block, started and not stopped, and moves the
    open index on by one.  On an accumulator made with [maxBlocks = 100],
    one hundred calls return and the next one raises, leaving exactly one
    hundred recorded blocks. *)
Theorem startBlock_limit (type : string) (a : DeltaAccumulator.t) :
  (Z.of_nat (length (contentBlocks a)) >= maxBlocks a ->
   startBlock type a = Throw (MaxBlocksExceeded (maxBlocks a)) a)
  /\ (Z.of_nat (length (contentBlocks a)) < maxBlocks a ->
      exists a',
        startBlock type a
        = Ok (Block.mk (currentBlockIndex a + 1) type "" true false) a'
        /\ contentBlocks a'
           = push (contentBlocks a)
                  (Block.mk (currentBlockIndex a + 1) type "" true false)
        /\ currentBlockIndex a' = currentBlockIndex a + 1)
  /\ (forall msgId bufferSize,
        exists a100,
          startBlocks 100 type
            (DeltaAccumulator.new msgId (mkOptions (Some 100) bufferSize))
          = Ok tt a100
          /\ startBlock type a100 = Throw (MaxBlocksExceeded 100) a100
          /\ length (contentBlocks (state_of (startBlock type a100)))
             = 100%nat).
Proof.
  split; [apply startBlock_throws|]. split.
  - intros H. destruct (startBlock_returns type a H) as (a' & H1 & H2 & H3 & _).
    eauto.
  - intros msgId bufferSize.
    destruct (startBlocks_returns type 100
                (DeltaAccumulator.new msgId (mkOptions (Some 100) bufferSize)))
      as (a100 & Hrun & Hlen & Hmax); [simpl; lia|].
    simpl in Hlen, Hmax.
    assert (Hthrow : startBlock type a100 = Throw (MaxBlocksExceeded 100) a100).
    { rewrite <- Hmax at 1. apply startBlock_throws. rewrite Hlen, Hmax. lia. }
    exists a100. split; [exact Hrun|]. split; [exact Hthrow|].
    rewrite Hthrow. exact Hlen.
Qed.

Lemma startBlock_limit_witness :
  startBlock "text"
    (set_contentBlocks [Block.mk 0 "text" "" true false]
       (DeltaAccumulator.new "msg_1" (mkOptions (Some 1) None)))
  = Throw (MaxBlocksExceeded 1)
          (set_contentBlocks [Block.mk 0 "text" "" true false]
             (DeltaAccumulator.new "msg_1" (mkOptions (Some 1) None)))
  /\ exists a',
      startBlock "text" (DeltaAccumulator.new "msg_1" no_options)
      = Ok (Block.mk 0 "text" "" true false) a'
      /\ contentBlocks a' = [Block.mk 0 "text" "" true false]
      /\ currentBlockIndex a' = 0.
Proof.
  split.
  - apply (proj1 (startBlock_limit "text"
                    (set_contentBlocks [Block.mk 0 "text" "" true false]
                       (DeltaAccumulator.new "msg_1" (mkOptions (Some 1) None))))).
    simpl. lia.
  - apply (proj1 (proj2 (startBlock_limit "text"
                           (DeltaAccumulator.new "msg_1" no_options)))).
    simpl. lia.
Defined.

Lemma addDelta_throws (delta : string) (a : DeltaAccumulator.t)
      (block : Block.t) (buf : string) :
  getCurrentBlock a = Some block ->
  workingBuffer a (Block.type block) = Some buf ->
  strlen buf + strlen delta > maxBufferSize a ->
  exists e, addDelta delta a = Throw e a /\ is_resource_limit e = true.
Proof.
  intros Hcur Hbuf Hover.
  unfold addDelta, workingBuffer in *. rewrite Hcur.
  destruct (String.eqb (Block.type block) "thinking").
  - injection Hbuf as <-.
    destruct (Z.gtb_spec (strlen (thinkingBuffer a) + strlen delta)
                         (maxBufferSize a)); [eauto|lia].
  - destruct (String.eqb (Block.type block) "text"); [|discriminate].
    injection Hbuf as <-.
    destruct (Z.gtb_spec (strlen (textBuffer a) + strlen delta)
                         (maxBufferSize a)); [eauto|lia].
Qed.

(** A block of a type without working buffer takes no delta and meets no
    limit. *)
Lemma addDelta_no_buffer (delta : string) (a : DeltaAccumulator.t)
      (block : Block.t) :
  getCurrentBlock a = Some block ->
  workingBuffer a (Block.type block) = None ->
  addDelta delta a = Ok tt a.
Proof.
  intros Hcur Hbuf. unfold addDelta, workingBuffer in *. rewrite Hcur.
  destruct (String.eqb (Block.type block) "thinking"); [discriminate|].
  destruct (String.eqb (Block.type block) "text"); [discriminate|].
  reflexivity.
Qed.



(** ** Streaming transformer *)

Section StreamingProperties.

Variable sha256_hex : string -> string.

(** [stopCurrentBlock] always returns, and leaves [finalized] alone. *)
Lemma stopCurrentBlock_returns (a : DeltaAccumulator.t) :
  exists a', stopCurrentBlock a = Ok tt a' /\ finalized a' = finalized a
             /\ finishReason a' = finishReason a
             /\ outputTokens a' = outputTokens a.
Proof.
  unfold stopCurrentBlock. destruct (getCurrentBlock a); eauto.
Qed.

(** A call of [finalizeDelta] on a stream that is not finalized returns,
    its last two events being the [message_delta], with the mapped stop
    reason and the stored output-token count, and the [message_stop]. *)
Lemma finalizeDelta_returns (now : Z) (a : DeltaAccumulator.t) :
  finalized a = false ->
  exists pre a',
    finalizeDelta sha256_hex now a
    = Ok (pre ++ [message_delta
                    (_mapStopReason (default "stop" (truthy (finishReason a))))
                    (outputTokens a);
                  message_stop])%list a'
    /\ finalized a' = true.
Proof.
  intros Hf. unfold finalizeDelta. rewrite Hf.
  destruct (stopCurrentBlock_returns a) as (a1 & Hstop & _ & Hfin & Hout).
  unfold bind, gets, modify, ret.
  destruct (getCurrentBlock a) as [b|].
  - destruct (negb (Block.stopped b)).
    + rewrite Hstop, Hfin, Hout.
      exists (push (if String.eqb (Block.type b) "thinking"
                    then [_createSignatureDeltaEvent sha256_hex now b] else [])
                   (_createContentBlockStopEvent b)), (set_finalized true a1).
      unfold push. rewrite <- !app_assoc. split; reflexivity.
    + exists [], (set_finalized true a). split; reflexivity.
  - exists [], (set_finalized true a). split; reflexivity.
Qed.

(** C4. [finalizeDelta] always returns, leaving [finalized] set; a second
    call, at whatever time, returns no events and leaves the accumulator as
    the first call left it. *)
Theorem finalizeDelta_idempotent (now1 now2 : Z) (a : DeltaAccumulator.t) :
  exists events a',
    finalizeDelta sha256_hex now1 a = Ok events a'
    /\ finalized a' = true
    /\ finalizeDelta sha256_hex now2 a' = Ok [] a'.
Proof.
  assert (Hagain : forall a', finalized a' = true ->
                              finalizeDelta sha256_hex now2 a' = Ok [] a').
  { intros a' H. unfold finalizeDelta. rewrite H. reflexivity. }
  destruct (finalized a) eqn:Hf.
  - exists [], a. split; [|auto].
    unfold finalizeDelta. rewrite Hf. reflexivity.
  - destruct (finalizeDelta_returns now1 a Hf) as (pre & a' & Hrun & Hfin).
    eexists; exists a'. split; [exact Hrun|]. split; [exact Hfin|].
    apply Hagain, Hfin.
Qed.

(** C2. Scenario A: a fresh accumulator, fed a reasoning delta, an
    answer-text delta, a finish reason and the completion sentinel, gives
    these ten events in this order, whatever the clock shows. *)
Theorem scenario_A (msgId : string) (t1 t2 t3 t4 : Z) :
  exists a',
    transformAll sha256_hex
      [(t1, reasoning_event "Let me think"); (t2, text_event "42");
       (t3, finish_event "stop"); (t4, done_event)]
      (DeltaAccumulator.new msgId no_options)
    = Ok [message_start msgId "assistant" "glm-4.6" 0 0;
          content_block_start 0 "thinking";
          thinking_delta 0 "Let me think";
          signature_delta 0 (String.substring 0 16 (sha256_hex "Let me think"))
                          12 t2;
          content_block_stop 0;
          content_block_start 1 "text";
          text_delta 1 "42";
          content_block_stop 1;
          message_delta (Reason "end_turn") 0;
          message_stop] a'
    /\ finalized a' = true.
Proof. eexists. split; vm_compute; reflexivity. Qed.

End StreamingProperties.

(** C1. An answer-text delta followed by a reasoning delta leaves two
    blocks open: the thinking block is started while the text block has
    not been stopped.  No [content_block_stop] is sent for the text block,
    then or at the end of the stream, where only the current block is
    closed. *)
Theorem two_blocks_open_after_text_then_reasoning :
  (exists a',
      transformAll no_digest [(1, text_event "a"); (2, reasoning_event "b")]
                   fresh
      = Ok [message_start "msg_1" "assistant" "glm-4.6" 0 0;
            content_block_start 0 "text"; text_delta 0 "a";
            content_block_start 1 "thinking"; thinking_delta 1 "b"] a'
      /\ contentBlocks a' = [Block.mk 0 "text" "a" true false;
                             Block.mk 1 "thinking" "b" true false]
      /\ finalized a' = false
      /\ open_count a' = 2%nat)
  /\ (exists a'',
        transformAll no_digest
          [(1, text_event "a"); (2, reasoning_event "b"); (3, done_event)]
          fresh
        = Ok [message_start "msg_1" "assistant" "glm-4.6" 0 0;
              content_block_start 0 "text"; text_delta 0 "a";
              content_block_start 1 "thinking"; thinking_delta 1 "b";
              signature_delta 1 "" 1 3; content_block_stop 1;
              message_delta (Reason "end_turn") 0; message_stop] a''
        /\ contentBlocks a'' = [Block.mk 0 "text" "a" true false;
                                Block.mk 1 "thinking" "b" true true]).
Proof.
  split.
  - eexists. split; [vm_compute; reflexivity|]. repeat split.
  - eexists. split; [vm_compute; reflexivity|]. reflexivity.
Qed.

(** ** Invariants along the structure of a computation *)

Lemma preserves_ret {S A} (I : S -> Prop) (x : A) : preserves I (ret x).
Proof. intros s H. exact H. Qed.

Lemma preserves_throw {S A} (I : S -> Prop) (e : Error) :
  preserves I (@throw S A e).
Proof. intros s H. exact H. Qed.

Lemma preserves_gets {S A} (I : S -> Prop) (g : S -> A) : preserves I (gets g).
Proof. intros s H. exact H. Qed.

Lemma preserves_modify {S} (I : S -> Prop) (g : S -> S) :
  (forall s, I s -> I (g s)) -> preserves I (modify g).
Proof. intros H s Hs. apply H, Hs. Qed.

Lemma preserves_bind {S A B} (I : S -> Prop) (m : M S A) (k : A -> M S B) :
  preserves I m -> (forall x, preserves I (k x)) -> preserves I (bind m k).
Proof.
  intros Hm Hk s Hs. unfold bind. specialize (Hm s Hs).
  destruct (m s) as [x s1|e s1]; simpl in *.
  - apply Hk, Hm.
  - exact Hm.
Qed.

Create HintDb preserves.

Ltac preserves_tac :=
  repeat first
         [ apply preserves_ret | apply preserves_throw | apply preserves_gets
         | apply preserves_modify; intros ? Hinv; exact Hinv
         | apply preserves_bind; [|intros]
         | solve [auto with preserves]
         | match goal with
           | |- preserves _ (if ?c then _ else _) => destruct c
           | |- preserves _ (match ?x with _ => _ end) => destruct x
           end ].

(** ** Tool-call fragments *)

Lemma startBlock_keeps_tools table (type : string) :
  preserves (has_tools table) (startBlock type).
Proof.
  intros a Ha. unfold startBlock.
  destruct (_ >=? _); [exact Ha|].
  destruct (String.eqb type "thinking"); [|destruct (String.eqb type "text")];
    exact Ha.
Qed.

Lemma addDelta_keeps_tools table (delta : string) :
  preserves (has_tools table) (addDelta delta).
Proof.
  intros a Ha. unfold addDelta.
  destruct (getCurrentBlock a) as [b|]; [|exact Ha].
  destruct (String.eqb (Block.type b) "thinking");
    [|destruct (String.eqb (Block.type b) "text")];
    try destruct (_ >? _); exact Ha.
Qed.

Lemma stopCurrentBlock_keeps_tools table :
  preserves (has_tools table) stopCurrentBlock.
Proof.
  intros a Ha. unfold stopCurrentBlock. destruct (getCurrentBlock a); exact Ha.
Qed.

Lemma updateUsage_keeps_tools table (usage : option Usage.t) :
  preserves (has_tools table) (updateUsage usage).
Proof. intros a Ha. unfold updateUsage. destruct usage; exact Ha. Qed.

#[local] Hint Resolve startBlock_keeps_tools addDelta_keeps_tools
  stopCurrentBlock_keeps_tools updateUsage_keeps_tools : preserves.

Section ToolCalls.

Variable sha256_hex : string -> string.



(** What [addToolCallDelta] does to the table. *)
Lemma addToolCallDelta_entry (d : ToolCallDelta.t) (a : DeltaAccumulator.t) :
  exists a',
    addToolCallDelta d a = Ok tt a'
    /\ toolCallsIndex a' !! ToolCallDelta.index d
       = Some (apply_fragment d (entry a (ToolCallDelta.index d)))
    /\ (forall j, j <> ToolCallDelta.index d ->
                  toolCallsIndex a' !! j = toolCallsIndex a !! j)
    /\ toolCalls a'
       = match toolCallsIndex a !! ToolCallDelta.index d with
         | Some _ => toolCalls a
         | None => push (toolCalls a) (ToolCallDelta.index d)
         end.
Proof.
  eexists. split; [reflexivity|]. unfold entry.
  destruct (toolCallsIndex a !! ToolCallDelta.index d) as [c|] eqn:Hc; simpl.
  - split; [|split; [|reflexivity]].
    + rewrite lookup_alter_eq, Hc. reflexivity.
    + intros j Hj. rewrite lookup_alter_ne by congruence. reflexivity.
  - split; [|split; [|reflexivity]].
    + rewrite lookup_alter_eq, lookup_insert_eq. reflexivity.
    + intros j Hj. rewrite lookup_alter_ne, lookup_insert_ne by congruence.
      reflexivity.
Qed.


End ToolCalls.


(** ** Usage *)

Section UsageProperties.

Variable sha256_hex : string -> string.

Lemma Forall_push {A} (P : A -> Prop) (l : list A) (x : A) :
  Forall P l -> P x -> Forall P (push l x).
Proof.
  intros Hl Hx. unfold push. apply Forall_app. split; [exact Hl|].
  constructor; [exact Hx|constructor].
Qed.

Lemma message_start_part_events (payload : Payload.t)
      (events0 events : list AnthropicEvent) (a a' : DeltaAccumulator.t) :
  Forall no_output_count events0 ->
  message_start_part payload events0 a = Ok events a' ->
  Forall no_output_count events.
Proof.
  intros H0 H. unfold message_start_part in H.
  destruct (messageStarted a); injection H as <- _; [exact H0|].
  apply Forall_push; [exact H0|reflexivity].
Qed.

Lemma reasoning_part_events (delta : Delta.t)
      (events0 events : list AnthropicEvent) (a a' : DeltaAccumulator.t) :
  Forall no_output_count events0 ->
  reasoning_part delta events0 a = Ok events a' ->
  Forall no_output_count events.
Proof.
  intros H0 H. unfold reasoning_part, _createThinkingDeltaEvent in H.
  inv_run; repeat apply Forall_push; auto; exact I.
Qed.

Lemma text_part_events (now : Z) (delta : Delta.t)
      (events0 events : list AnthropicEvent) (a a' : DeltaAccumulator.t) :
  Forall no_output_count events0 ->
  text_part sha256_hex now delta events0 a = Ok events a' ->
  Forall no_output_count events.
Proof.
  intros H0 H. unfold text_part, _createTextDeltaEvent in H.
  inv_run; repeat apply Forall_push; auto; exact I.
Qed.

(** An event without a first choice, or whose first choice has no delta, is
    ignored whole, whatever else its payload carries. *)
Lemma transformDelta_without_delta (now : Z) (ev : UpstreamEvent.t)
      (a : DeltaAccumulator.t) :
  UpstreamEvent.event ev <> "done" ->
  first_delta ev = None ->
  transformDelta sha256_hex now ev a = Ok [] a.
Proof.
  intros Hev Hnone. unfold transformDelta. unfold first_delta in Hnone.
  apply String.eqb_neq in Hev. rewrite Hev.
  destruct (UpstreamEvent.data ev) as [payload|]; [|reflexivity].
  destruct (head (Payload.choices payload)) as [choice|]; [|reflexivity].
  rewrite Hnone. reflexivity.
Qed.

Lemma value_of_bind {S A B} (m : M S A) (k1 k2 : A -> M S B) (s : S) :
  (forall x s1, value_of (k1 x s1) = value_of (k2 x s1)) ->
  value_of (bind m k1 s) = value_of (bind m k2 s).
Proof. intros H. unfold bind. destruct (m s); [apply H|reflexivity]. Qed.

(** The usage object of a payload has no part in what is returned. *)
Lemma transformDelta_without_usage (now : Z) (ev : UpstreamEvent.t)
      (a : DeltaAccumulator.t) :
  value_of (transformDelta sha256_hex now (without_usage ev) a)
  = value_of (transformDelta sha256_hex now ev a).
Proof.
  unfold transformDelta, without_usage. simpl.
  destruct (String.eqb _ "done"); [reflexivity|].
  destruct (UpstreamEvent.data ev) as [payload|]; [|reflexivity]. simpl.
  destruct (head (Payload.choices payload)) as [choice|]; [|reflexivity].
  destruct (Choice.delta choice) as [delta|]; [|reflexivity].
  apply value_of_bind; intros events s.
  apply value_of_bind; intros [] s0.
  apply value_of_bind; intros events1 s1.
  apply value_of_bind; intros events2 s2.
  unfold updateUsage, bind.
  destruct (Payload.usage payload);
    destruct (truthy (Choice.finish_reason choice)); reflexivity.
Qed.

(** C6, as the code has it.  For an upstream event other than the
    completion sentinel whose payload has a first choice with a delta and
    carries a usage object, and whose processing returns, the counters of
    the accumulator hold the normalized usage, under either naming; the
    events returned are those returned without the usage object, none of
    them a [message_delta] and a [message_start] showing zero output
    tokens; and [finalizeDelta], on the stream not yet finalized, closes
    with a [message_delta] that carries the stored output-token count. *)
Theorem usage_stored (now : Z) (ev : UpstreamEvent.t) (payload : Payload.t)
        (choice : Choice.t) (delta : Delta.t) (u : Usage.t)
        (a a' : DeltaAccumulator.t) (events : list AnthropicEvent) :
  UpstreamEvent.event ev <> "done" ->
  UpstreamEvent.data ev = Some payload ->
  head (Payload.choices payload) = Some choice ->
  Choice.delta choice = Some delta ->
  Payload.usage payload = Some u ->
  transformDelta sha256_hex now ev a = Ok events a' ->
  inputTokens a' = or_zero (Usage.prompt_tokens u) (Usage.input_tokens u)
  /\ outputTokens a'
     = or_zero (Usage.completion_tokens u) (Usage.output_tokens u)
  /\ value_of (transformDelta sha256_hex now (without_usage ev) a)
     = Some events
  /\ Forall no_output_count events
  /\ (finalized a' = false ->
      forall now', exists pre reason a'',
        finalizeDelta sha256_hex now' a'
        = Ok (pre ++ [message_delta reason (outputTokens a'); message_stop])%list
             a'').
Proof.
  intros Hev Hdata Hchoice Hdelta Husage Hrun.
  assert (Hvalue : value_of (transformDelta sha256_hex now (without_usage ev) a)
                   = Some events).
  { rewrite transformDelta_without_usage, Hrun. reflexivity. }
  assert (Hfinal : finalized a' = false ->
                   forall now', exists pre reason a'',
                     finalizeDelta sha256_hex now' a'
                     = Ok (pre ++ [message_delta reason (outputTokens a');
                                   message_stop])%list a'').
  { intros Hfin now'.
    destruct (finalizeDelta_returns sha256_hex now' _ Hfin)
      as (pre & a'' & Hf & _).
    eauto. }
  unfold transformDelta in Hrun.
  apply String.eqb_neq in Hev. rewrite Hev, Hdata, Hchoice, Hdelta in Hrun.
  rewrite Husage in Hrun.
  inv_run;
    match goal with
    | H : updateUsage _ _ = Ok _ _ |- _ =>
        unfold updateUsage in H; injection H as ?; subst
    end;
    (split; [reflexivity|]; split; [reflexivity|]; split; [exact Hvalue|];
     split; [|exact Hfinal]);
    match goal with
    | H1 : message_start_part _ _ _ = Ok _ _,
      H2 : reasoning_part _ _ _ = Ok _ _,
      H3 : text_part _ _ _ _ _ = Ok _ _ |- _ =>
        eapply text_part_events; [|exact H3];
        eapply reasoning_part_events; [|exact H2];
        eapply message_start_part_events; [|exact H1]; constructor
    end.
Qed.

End UsageProperties.

(** C6 fails as stated.  The closing chunk of an OpenAI-style stream has a
    usage object and an empty [choices]: [transformDelta] returns at once
    and the counters stay at zero, where the normalized usage is 10 and
    20.  And a delta whose text breaks the buffer limit ends
    [transformDelta] before the usage of its payload is looked at. *)
Lemma usage_without_choice_counterexample :
  (Payload.usage <$> UpstreamEvent.data usage_only_event
   = Some (Some closing_usage)
   /\ transformDelta no_digest 1 usage_only_event fresh = Ok [] fresh
   /\ inputTokens (state_of (transformDelta no_digest 1 usage_only_event fresh))
      <> or_zero (Usage.prompt_tokens closing_usage)
                 (Usage.input_tokens closing_usage)
   /\ outputTokens
        (state_of (transformDelta no_digest 1 usage_only_event fresh))
      <> or_zero (Usage.completion_tokens closing_usage)
                 (Usage.output_tokens closing_usage))
  /\ (Payload.usage <$> UpstreamEvent.data last_event = Some (Some last_usage)
      /\ value_of (transformDelta no_digest 1 last_event tiny) = None
      /\ outputTokens (state_of (transformDelta no_digest 1 last_event tiny))
         <> or_zero (Usage.completion_tokens last_usage)
                    (Usage.output_tokens last_usage)).
Proof. repeat split; vm_compute; discriminate. Qed.

Lemma usage_stored_witness :
  inputTokens (state_of (transformDelta no_digest 1 last_event fresh)) = 7
  /\ outputTokens (state_of (transformDelta no_digest 1 last_event fresh)) = 9
  /\ value_of (transformDelta no_digest 1 (without_usage last_event) fresh)
     = Some [message_start "msg_1" "assistant" "glm-4.6" 0 0;
             content_block_start 0 "text"; text_delta 0 "hi"].
Proof.
  destruct (usage_stored no_digest 1 last_event last_payload last_choice
              last_delta last_usage fresh
              (state_of (transformDelta no_digest 1 last_event fresh))
              [message_start "msg_1" "assistant" "glm-4.6" 0 0;
               content_block_start 0 "text"; text_delta 0 "hi"])
    as (Hin & Hout & Hsame & _).
  - discriminate.
  - reflexivity.
  - reflexivity.
  - reflexivity.
  - reflexivity.
  - vm_compute. reflexivity.
  - split; [exact Hin|]. split; [exact Hout|exact Hsame].
Defined.

(** ** Buffered request transformation *)

(** C9. [transformRequest] never raises; and when its [try] block fails,
    wherever the exception comes from, it returns the request it was given,
    as it was given, with a configuration whose [thinking] is false (and
    the error it caught). *)
Theorem transformRequest_fallback (defaultThinking : bool)
        (anthropicRequest : JSON) :
  (exists result,
      transformRequest defaultThinking anthropicRequest tt = Ok result tt)
  /\ (forall e,
        transformRequest_body defaultThinking anthropicRequest tt = Throw e tt ->
        exists result,
          transformRequest defaultThinking anthropicRequest tt = Ok result tt
          /\ openaiRequest result = anthropicRequest
          /\ thinking (thinkingConfig result) = false
          /\ error result = Some e).
Proof.
  unfold transformRequest, try_catch.
  destruct (transformRequest_body defaultThinking anthropicRequest tt)
    as [result []|e []].
  - split; [eauto|]. intros e He. discriminate He.
  - split; [unfold ret; eauto|].
    intros e' He. injection He as <-. unfold ret. eauto.
Qed.

Lemma transformRequest_fallback_witness :
  (exists result,
      transformRequest true null_message_request tt = Ok result tt
      /\ openaiRequest result = null_message_request
      /\ thinking (thinkingConfig result) = false
      /\ error result = Some (TypeError "cannot read properties of null"))
  /\ (exists result,
        transformRequest true null_block_request tt = Ok result tt
        /\ openaiRequest result = null_block_request
        /\ thinking (thinkingConfig result) = false
        /\ error result = Some (TypeError "cannot read properties of null")).
Proof.
  split.
  - apply (proj2 (transformRequest_fallback true null_message_request)).
    reflexivity.
  - apply (proj2 (transformRequest_fallback true null_block_request)).
    reflexivity.
Defined.

(** ** Content and working buffer *)

Lemma in_sync_new (msgId : string) (options : Options) :
  in_sync (DeltaAccumulator.new msgId options).
Proof.
  split; [reflexivity|]. intros block buf H. discriminate H.
Qed.

Lemma getCurrentBlock_push (a : DeltaAccumulator.t) (l : list Block.t)
      (block : Block.t) :
  contentBlocks a = push l block ->
  currentBlockIndex a = Z.of_nat (length l) ->
  getCurrentBlock a = Some block.
Proof.
  intros Hl Hi. unfold getCurrentBlock. rewrite Hl, Hi, length_push.
  replace ((0 <=? Z.of_nat (length l))
           && (Z.of_nat (length l) <? Z.of_nat (S (length l)))) with true
    by (symmetry; apply andb_true_iff; split; [apply Z.leb_le|apply Z.ltb_lt]; lia).
  rewrite Nat2Z.id. unfold push. apply list_lookup_middle. reflexivity.
Qed.

Lemma startBlock_in_sync (type : string) : preserves in_sync (startBlock type).
Proof.
  intros a Ha. unfold startBlock.
  destruct (_ >=? _); [exact Ha|]. destruct Ha as [Hidx Hbuf].
  set (block := Block.mk _ type "" true false).
  assert (Hcur : forall a',
             contentBlocks a' = push (contentBlocks a) block ->
             currentBlockIndex a' = currentBlockIndex a + 1 ->
             getCurrentBlock a' = Some block).
  { intros a' H1 H2. apply (getCurrentBlock_push a' _ _ H1). lia. }
  destruct (String.eqb type "thinking") eqn:Hth;
    [|destruct (String.eqb type "text") eqn:Htx].
  all: split; [simpl; rewrite length_push; lia|].
  all: intros b buf Hb Hw; rewrite Hcur in Hb by reflexivity;
    injection Hb as <-; unfold workingBuffer in Hw; simpl in Hw;
    rewrite Hth in Hw; try rewrite Htx in Hw;
    first [discriminate Hw | injection Hw as <-; reflexivity].
Qed.

Lemma getCurrentBlock_alter (f : Block.t -> Block.t) (a a' : DeltaAccumulator.t) :
  contentBlocks a'
  = alter f (Z.to_nat (currentBlockIndex a)) (contentBlocks a) ->
  currentBlockIndex a' = currentBlockIndex a ->
  getCurrentBlock a' = f <$> getCurrentBlock a.
Proof.
  intros Hl Hi. unfold getCurrentBlock. rewrite Hl, Hi, length_alter.
  destruct (_ && _); [|reflexivity]. apply list_lookup_alter_eq.
Qed.

Lemma addDelta_in_sync (delta : string) : preserves in_sync (addDelta delta).
Proof.
  intros a Ha. unfold addDelta.
  destruct (getCurrentBlock a) as [b|] eqn:Hb; [|exact Ha].
  destruct (String.eqb (Block.type b) "thinking") eqn:Hth;
    [|destruct (String.eqb (Block.type b) "text") eqn:Htx].
  3: exact Ha.
  all: destruct (_ >? _); [exact Ha|].
  all: destruct Ha as [Hidx Hbuf].
  all: split; [simpl; rewrite length_alter; exact Hidx|].
  all: intros b' buf Hb' Hw;
    rewrite (getCurrentBlock_alter (Block.set_content _) a) in Hb'
      by reflexivity;
    rewrite Hb in Hb'; injection Hb' as <-;
    unfold workingBuffer in Hw; simpl in Hw; rewrite Hth in Hw;
    try rewrite Htx in Hw; injection Hw as <-; reflexivity.
Qed.

Lemma stopCurrentBlock_in_sync : preserves in_sync stopCurrentBlock.
Proof.
  intros a Ha. unfold stopCurrentBlock.
  destruct (getCurrentBlock a) as [b|] eqn:Hb; [|exact Ha].
  destruct Ha as [Hidx Hbuf].
  split; [simpl; rewrite length_alter; exact Hidx|].
  intros b' buf Hb' Hw.
  rewrite (getCurrentBlock_alter (Block.set_stopped true) a) in Hb'
    by reflexivity.
  rewrite Hb in Hb'. injection Hb' as <-. apply (Hbuf b buf Hb Hw).
Qed.

Lemma updateUsage_in_sync (usage : option Usage.t) :
  preserves in_sync (updateUsage usage).
Proof. intros a Ha. unfold updateUsage. destruct usage; exact Ha. Qed.

#[local] Hint Resolve startBlock_in_sync addDelta_in_sync
  stopCurrentBlock_in_sync updateUsage_in_sync : preserves.

Section InSync.

Variable sha256_hex : string -> string.

Lemma finalizeDelta_in_sync (now : Z) :
  preserves in_sync (finalizeDelta sha256_hex now).
Proof.
  intros a. unfold finalizeDelta. destruct (finalized a); [auto|].
  revert a. apply preserves_bind; [|intros]; preserves_tac.
Qed.

Lemma transformDelta_in_sync (now : Z) (ev : UpstreamEvent.t) :
  preserves in_sync (transformDelta sha256_hex now ev).
Proof.
  unfold transformDelta.
  destruct (String.eqb _ "done"); [apply finalizeDelta_in_sync|].
  destruct (UpstreamEvent.data ev) as [payload|]; [|preserves_tac].
  destruct (head (Payload.choices payload)) as [choice|]; [|preserves_tac].
  destruct (Choice.delta choice) as [delta|]; [|preserves_tac].
  apply preserves_bind.
  { intros a Ha. unfold message_start_part.
    destruct (messageStarted a); [exact Ha|].
    destruct (truthy (Payload.model payload)); exact Ha. }
  intros events.
  unfold reasoning_part, text_part, _createThinkingDeltaEvent,
    _createTextDeltaEvent.
  preserves_tac.
Qed.

(** In every state that the caller's loop reaches from a fresh
    accumulator, the content of the current block is its working buffer. *)
Lemma transformAll_in_sync (input : list (Z * UpstreamEvent.t)) :
  preserves in_sync (transformAll sha256_hex input).
Proof.
  induction input as [|[now ev] rest IH]; simpl.
  - apply preserves_ret.
  - apply preserves_bind; [apply transformDelta_in_sync|intros out].
    apply preserves_bind; [exact IH|intros outs]. apply preserves_ret.
Qed.

End InSync.

(** There the limit of [addDelta] bears on the length of the block's own
    content. *)
Lemma addDelta_overflow_content (delta : string) (a : DeltaAccumulator.t)
      (block : Block.t) :
  in_sync a ->
  getCurrentBlock a = Some block ->
  Block.type block = "thinking" \/ Block.type block = "text" ->
  strlen (Block.content block) + strlen delta > maxBufferSize a ->
  exists e, addDelta delta a = Throw e a /\ is_resource_limit e = true.
Proof.
  intros [_ Hsync] Hcur Hty Hover.
  assert (Hbuf : exists buf, workingBuffer a (Block.type block) = Some buf).
  { unfold workingBuffer. destruct Hty as [-> | ->]; simpl; eauto. }
  destruct Hbuf as (buf & Hbuf).
  rewrite (Hsync block buf Hcur Hbuf) in Hover.
  destruct (addDelta_throws delta a block buf Hcur Hbuf Hover)
    as (e & He & Hlim).
  eauto.
Qed.

(** * Further properties *)

Import Frames.

(** ** Lines of the frame parser *)

Lemma append_cons (c : ascii) (s1 s2 : string) :
  String c s1 +:+ s2 = String c (s1 +:+ s2).
Proof. reflexivity. Qed.

Lemma append_nil (s : string) : "" +:+ s = s.
Proof. reflexivity. Qed.

Lemma append_assoc (s1 s2 s3 : string) :
  (s1 +:+ s2) +:+ s3 = s1 +:+ (s2 +:+ s3).
Proof.
  induction s1 as [|c s1 IH]; [reflexivity|].
  rewrite !append_cons, IH. reflexivity.
Qed.

Lemma append_empty_r (s : string) : s +:+ "" = s.
Proof.
  induction s as [|c s IH]; [reflexivity|]. rewrite append_cons, IH. reflexivity.
Qed.

Lemma startsWith_append (p s : string) : startsWith p (p +:+ s) = true.
Proof.
  unfold startsWith. induction p as [|c p IH].
  - destruct s; reflexivity.
  - rewrite append_cons. simpl.
    destruct (ascii_dec c c) as [_|Hne]; [exact IH|contradiction].
Qed.

Lemma has_newline_append (s1 s2 : string) :
  has_newline (s1 +:+ s2) = has_newline s1 || has_newline s2.
Proof.
  induction s1 as [|c s1 IH]; [reflexivity|].
  rewrite append_cons. simpl. rewrite IH. apply orb_assoc.
Qed.

(** [carry], by recursion on the buffer. *)
Lemma carry_empty : carry "" = ([], "").
Proof. reflexivity. Qed.

Lemma split_not_nil (sep : ascii) (s : string) : split sep s <> [].
Proof.
  destruct s as [|c s]; simpl; [discriminate|].
  destruct (Ascii.eqb c sep); [discriminate|].
  destruct (split sep s); discriminate.
Qed.

Lemma pop_not_nil {A} (l : list A) : l <> [] -> exists init last, pop l = Some (init, last).
Proof.
  induction l as [|x l IH]; [contradiction|]. intros _. simpl.
  destruct l as [|y l].
  - simpl. eauto.
  - destruct IH as (init & last & ->); [discriminate|]. eauto.
Qed.

Lemma carry_cons (c : ascii) (s : string) :
  carry (String c s)
  = let '(lines, rest) := carry s in
    if Ascii.eqb c newline then ("" :: lines, rest)
    else match lines with
         | [] => ([], String c rest)
         | l :: ls => (String c l :: ls, rest)
         end.
Proof.
  unfold carry. simpl split.
  destruct (pop_not_nil (split newline s) (split_not_nil _ _))
    as (init & last & Hpop).
  rewrite Hpop.
  destruct (Ascii.eqb c newline).
  - cbn [pop]. rewrite Hpop. reflexivity.
  - destruct (split newline s) as [|l ls] eqn:Hs; [discriminate Hpop|].
    cbn [pop] in Hpop |- *.
    destruct (pop ls) as [[init' last']|] eqn:Hls.
    + injection Hpop as <- <-. reflexivity.
    + injection Hpop as <- <-. reflexivity.
Qed.

(** Lines and carry-over give the buffer back, and hold no newline. *)
Lemma carry_unlines (s : string) :
  unlines (fst (carry s)) +:+ snd (carry s) = s.
Proof.
  induction s as [|c s IH]; [reflexivity|].
  rewrite carry_cons. destruct (carry s) as [lines rest]. simpl in IH.
  destruct (Ascii.eqb_spec c newline) as [->|Hc].
  - cbn [fst snd unlines] in *. rewrite append_nil, append_cons, IH.
    reflexivity.
  - destruct lines as [|l ls]; cbn [fst snd unlines] in *.
    + rewrite append_nil in *. rewrite IH. reflexivity.
    + rewrite !append_cons, IH. reflexivity.
Qed.

Lemma carry_no_newline (s : string) :
  Forall (fun l => has_newline l = false) (fst (carry s))
  /\ has_newline (snd (carry s)) = false.
Proof.
  induction s as [|c s [IHl IHr]]; [split; [constructor|reflexivity]|].
  rewrite carry_cons. destruct (carry s) as [lines rest]. simpl in IHl, IHr.
  destruct (Ascii.eqb c newline) eqn:Hc.
  - split; [constructor; [reflexivity|exact IHl]|exact IHr].
  - destruct lines as [|l ls].
    + split; [constructor|]. simpl. rewrite Hc. exact IHr.
    + inversion IHl as [|? ? Hl Hls]; subst.
      split; [|exact IHr]. constructor; [|exact Hls]. simpl. rewrite Hc. exact Hl.
Qed.

(** The other way round: lines without newline, each followed by one, and
    an unfinished line come back as they are. *)
Lemma carry_line (l rest : string) (lines : list string) (s : string) :
  has_newline l = false ->
  carry s = (lines, rest) ->
  carry (l +:+ String newline s) = (l :: lines, rest).
Proof.
  intros Hl Hs. induction l as [|c l IH].
  - rewrite append_nil, carry_cons, Hs. reflexivity.
  - simpl in Hl. apply orb_false_iff in Hl as [Hc Hl].
    rewrite append_cons, carry_cons, (IH Hl), Hc. reflexivity.
Qed.

Lemma carry_rest (rest : string) :
  has_newline rest = false -> carry rest = ([], rest).
Proof.
  induction rest as [|c r IH]; [reflexivity|]. simpl. intros H.
  apply orb_false_iff in H as [Hc Hr].
  rewrite carry_cons, (IH Hr), Hc. reflexivity.
Qed.

Lemma carry_of_unlines (lines : list string) (rest : string) :
  Forall (fun l => has_newline l = false) lines ->
  has_newline rest = false ->
  carry (unlines lines +:+ rest) = (lines, rest).
Proof.
  intros Hl Hr. induction Hl as [|l ls Hl Hls IH]; cbn [unlines].
  - apply carry_rest, Hr.
  - rewrite append_assoc.
    change (String newline (unlines ls) +:+ rest)
      with (String newline (unlines ls +:+ rest)).
    apply carry_line; assumption.
Qed.

(** The lines of a buffer with a chunk appended: those of the buffer, then
    those of its carry-over with the chunk. *)
Lemma carry_append (s1 s2 : string) :
  carry (s1 +:+ s2)
  = (fst (carry s1) ++ fst (carry (snd (carry s1) +:+ s2)),
     snd (carry (snd (carry s1) +:+ s2)))%list.
Proof.
  induction s1 as [|c s1 IH].
  - rewrite append_nil. rewrite carry_empty.
    cbn [fst snd]. rewrite append_nil. destruct (carry s2); reflexivity.
  - rewrite append_cons, !carry_cons, IH.
    destruct (carry s1) as [l1 r1]. cbn [fst snd].
    destruct (Ascii.eqb c newline) eqn:Hc.
    + reflexivity.
    + destruct l1 as [|l ls]; cbn [fst snd].
      * rewrite append_cons, carry_cons, Hc.
        destruct (carry (r1 +:+ s2)) as [l2 r2]. cbn [fst snd app].
        destruct l2; reflexivity.
      * reflexivity.
Qed.

(** ** What [parse] returns *)

Section ParseProperties.

Variable JSON_parse : string -> option JSON.

(** One turn of the loop pushes at most one event, numbered next. *)
Lemma parse_line_step (count : Z) (events : list SSEParser.Event)
      (cur : Current) (line : string) :
  exists add cur',
    parse_line JSON_parse (count, events, cur) line
    = (count + Z.of_nat (length add), (events ++ add)%list, cur')
    /\ (add = [] \/ exists e, add = [e] /\ SSEParser.index e = count + 1)
    /\ (is_field_line line = false -> cur = fresh_current ->
        cur' = fresh_current).
Proof.
  unfold parse_line, is_field_line.
  destruct (startsWith "event: " line).
  { exists [], (mkCurrent (trim (substring_from 7 line)) (cur_id cur)
                          (cur_retry cur)).
    rewrite app_nil_r, Z.add_0_r. split; [reflexivity|].
    split; [auto|discriminate]. }
  destruct (startsWith "data: " line).
  { destruct (String.eqb (substring_from 6 line) DONE).
    - eexists [_], fresh_current. unfold push. cbn [length].
      split; [reflexivity|]. split; [|reflexivity]. right. eauto.
    - destruct (JSON_parse (substring_from 6 line)) as [v|].
      + eexists [_], fresh_current. unfold push. cbn [length].
        split; [reflexivity|]. split; [|reflexivity]. right. eauto.
      + exists [], cur. rewrite app_nil_r, Z.add_0_r.
        split; [reflexivity|]. auto. }
  destruct (startsWith "id: " line).
  { eexists [], _. rewrite app_nil_r, Z.add_0_r. split; [reflexivity|].
    split; [auto|discriminate]. }
  destruct (startsWith "retry: " line).
  { eexists [], _. rewrite app_nil_r, Z.add_0_r. split; [reflexivity|].
    split; [auto|discriminate]. }
  exists [], cur. rewrite app_nil_r, Z.add_0_r. split; [reflexivity|]. auto.
Qed.

Lemma fold_parse_line (lines : list string) :
  forall (count : Z) (events : list SSEParser.Event) (cur : Current),
  exists add cur',
    fold_left (parse_line JSON_parse) lines (count, events, cur)
    = (count + Z.of_nat (length add), (events ++ add)%list, cur')
    /\ (forall events0,
          fold_left (parse_line JSON_parse) lines (count, events0, cur)
          = (count + Z.of_nat (length add), (events0 ++ add)%list, cur'))
    /\ (forall k e, add !! k = Some e ->
                    SSEParser.index e = count + 1 + Z.of_nat k)
    /\ (Forall (fun l => is_field_line l = false) lines ->
        cur = fresh_current -> cur' = fresh_current).
Proof.
  induction lines as [|line lines IH]; intros count events cur.
  - exists [], cur. cbn [fold_left length]. rewrite app_nil_r, Z.add_0_r.
    split; [reflexivity|]. split.
    + intros events0. rewrite app_nil_r. reflexivity.
    + split; [intros k e H; discriminate H|auto].
  - assert (Hstep := parse_line_step count).
    destruct (Hstep events cur line) as (add1 & cur1 & H1 & Hadd1 & Hcur1).
    destruct (IH (count + Z.of_nat (length add1)) (events ++ add1)%list cur1)
      as (add2 & cur2 & H2 & H2' & Hidx & Hcur2).
    exists (add1 ++ add2)%list, cur2.
    assert (Hlen : count + Z.of_nat (length (add1 ++ add2))
                   = count + Z.of_nat (length add1) + Z.of_nat (length add2)).
    { rewrite length_app. lia. }
    split; [|split; [|split]].
    + cbn [fold_left]. rewrite H1, H2, Hlen, <- app_assoc. reflexivity.
    + intros events0. cbn [fold_left].
      destruct (Hstep events0 cur line) as (add1' & cur1' & H1' & _).
      assert (Hsame : add1' = add1 /\ cur1' = cur1).
      { clear - H1 H1'. unfold parse_line in *.
        destruct (startsWith "event: " line);
          [|destruct (startsWith "data: " line);
            [destruct (String.eqb _ DONE);
             [|destruct (JSON_parse _)]
            |destruct (startsWith "id: " line);
             [|destruct (startsWith "retry: " line)]]];
          unfold push in *;
          injection H1 as _ He Hc; injection H1' as _ He' Hc';
          subst cur1 cur1';
          (split; [|reflexivity]);
          first [ apply app_inv_head in He; apply app_inv_head in He';
                  congruence
                | rewrite <- (app_nil_r events) in He at 1;
                  rewrite <- (app_nil_r events0) in He' at 1;
                  apply app_inv_head in He; apply app_inv_head in He';
                  congruence ]. }
      destruct Hsame as [-> ->]. rewrite H1', H2', Hlen, <- app_assoc.
      reflexivity.
    + intros k e Hk.
      destruct Hadd1 as [->|(e1 & -> & He1)].
      * cbn [length app] in *. rewrite (Hidx k e Hk). lia.
      * destruct k as [|k]; cbn in Hk.
        -- injection Hk as <-. rewrite He1. lia.
        -- rewrite (Hidx k e Hk). cbn [length]. lia.
    + intros Hlines Hcur. inversion Hlines as [|? ? Hl Hls]; subst.
      apply Hcur2; [exact Hls|]. apply Hcur1; [exact Hl|reflexivity].
Qed.

(** [parse], when it returns, in terms of the lines of its buffer. *)
Lemma parse_Ok_inv (chunk : string) (p p' : SSEParser.t)
      (events : list SSEParser.Event) :
  parse JSON_parse chunk p = Ok events p' ->
  strlen (SSEParser.buffer p +:+ chunk) <= SSEParser.maxBufferSize p
  /\ exists count cur,
      run_lines JSON_parse (fst (carry (SSEParser.buffer p +:+ chunk)))
                (eventCount p)
      = (count, events, cur)
      /\ p' = SSEParser.mk (snd (carry (SSEParser.buffer p +:+ chunk))) count
                           (SSEParser.maxBufferSize p).
Proof.
  unfold parse, run_lines, carry.
  destruct (Z.gtb_spec (strlen (SSEParser.buffer p +:+ chunk))
                       (SSEParser.maxBufferSize p)) as [|Hle]; [discriminate|].
  intros H. split; [exact Hle|].
  destruct (pop _) as [[lines last]|]; cbn [fst snd] in *;
    destruct (fold_left _ _ _) as [[count evs] cur];
    injection H as <- <-; eauto.
Qed.

Lemma parse_Ok_intro (chunk : string) (p : SSEParser.t) (count : Z)
      (events : list SSEParser.Event) (cur : Current) :
  strlen (SSEParser.buffer p +:+ chunk) <= SSEParser.maxBufferSize p ->
  run_lines JSON_parse (fst (carry (SSEParser.buffer p +:+ chunk)))
            (eventCount p)
  = (count, events, cur) ->
  parse JSON_parse chunk p
  = Ok events
       (SSEParser.mk (snd (carry (SSEParser.buffer p +:+ chunk))) count
                     (SSEParser.maxBufferSize p)).
Proof.
  unfold parse, run_lines, carry.
  destruct (Z.gtb_spec (strlen (SSEParser.buffer p +:+ chunk))
                       (SSEParser.maxBufferSize p)) as [|Hle]; [lia|].
  intros _ H.
  destruct (pop _) as [[lines last]|]; cbn [fst snd] in *;
    rewrite H; reflexivity.
Qed.

(** X1. The events of one call of [parse] are numbered on from the event
    count of the parser, one by one, and the count moves on by their
    number: a line that is dropped takes no number. *)
Theorem parse_indices (chunk : string) (p p' : SSEParser.t)
        (events : list SSEParser.Event) :
  parse JSON_parse chunk p = Ok events p' ->
  eventCount p' = eventCount p + Z.of_nat (length events)
  /\ forall k e, events !! k = Some e ->
                 SSEParser.index e = eventCount p + 1 + Z.of_nat k.
Proof.
  intros H. apply parse_Ok_inv in H as (_ & count & cur & Hrun & ->).
  unfold run_lines in Hrun.
  destruct (fold_parse_line (fst (carry (SSEParser.buffer p +:+ chunk)))
                            (eventCount p) [] fresh_current)
    as (add & cur' & Hfold & _ & Hidx & _).
  rewrite Hfold in Hrun. injection Hrun as <- <- _.
  split; [reflexivity|exact Hidx].
Qed.

(** X2. After a call of [parse] that returns, the buffer is the unfinished
    last line: it holds no newline, and the lines that were consumed,
    each with its newline, followed by it make up the old buffer with the
    chunk appended. *)
Theorem parse_carry_over (chunk : string) (p p' : SSEParser.t)
        (events : list SSEParser.Event) :
  parse JSON_parse chunk p = Ok events p' ->
  no_newline (SSEParser.buffer p')
  /\ exists lines,
      Forall no_newline lines
      /\ SSEParser.buffer p +:+ chunk = unlines lines +:+ SSEParser.buffer p'.
Proof.
  intros H. apply parse_Ok_inv in H as (_ & count & cur & _ & ->).
  cbn [SSEParser.buffer].
  destruct (carry_no_newline (SSEParser.buffer p +:+ chunk)) as [Hl Hr].
  split; [exact Hr|].
  exists (fst (carry (SSEParser.buffer p +:+ chunk))).
  split; [exact Hl|]. symmetry. apply carry_unlines.
Qed.

(** X3. Where chunks are cut makes no difference to a stream of data
    lines: when no complete line sets a field of the event in progress
    ([event:], [id:], [retry:]), a call that returns on two chunks at once
    returns what two calls return on the one and then the other, and
    leaves the same parser. *)
Theorem parse_chunks (c1 c2 : string) (p p' : SSEParser.t)
        (events : list SSEParser.Event) :
  Forall (fun l => is_field_line l = false)
         (fst (carry (SSEParser.buffer p +:+ (c1 +:+ c2)))) ->
  parse JSON_parse (c1 +:+ c2) p = Ok events p' ->
  exists events1 p1 events2,
    parse JSON_parse c1 p = Ok events1 p1
    /\ parse JSON_parse c2 p1 = Ok events2 p'
    /\ events = (events1 ++ events2)%list.
Proof.
  intros Hplain H.
  apply parse_Ok_inv in H as (Hlen & count & cur & Hrun & ->).
  rewrite <- append_assoc in Hplain, Hrun, Hlen |- *.
  rewrite carry_append in Hplain, Hrun |- *. cbn [fst snd] in *.
  set (b1 := SSEParser.buffer p +:+ c1) in *.
  apply Forall_app in Hplain as [Hplain1 Hplain2].
  unfold run_lines in Hrun. rewrite fold_left_app in Hrun.
  destruct (fold_parse_line (fst (carry b1)) (eventCount p) [] fresh_current)
    as (add1 & cur1 & Hfold1 & _ & _ & Hcur1).
  rewrite Hfold1 in Hrun. rewrite (Hcur1 Hplain1 eq_refl) in *.
  destruct (fold_parse_line (fst (carry (snd (carry b1) +:+ c2)))
                            (eventCount p + Z.of_nat (length add1)) []
                            fresh_current)
    as (add2 & cur2 & Hfold2 & Hfold2' & _ & _).
  rewrite Hfold2' in Hrun. injection Hrun as <- <- <-.
  assert (Hb1 : strlen b1 <= SSEParser.maxBufferSize p).
  { rewrite strlen_app in Hlen. pose proof (strlen_nonneg c2). lia. }
  assert (Hr1 : strlen (snd (carry b1) +:+ c2) <= SSEParser.maxBufferSize p).
  { rewrite <- (carry_unlines b1) in Hlen at 1.
    rewrite append_assoc, strlen_app in Hlen.
    pose proof (strlen_nonneg (unlines (fst (carry b1)))). lia. }
  exists add1, (SSEParser.mk (snd (carry b1))
                             (eventCount p + Z.of_nat (length add1))
                             (SSEParser.maxBufferSize p)), add2.
  split; [|split; [|reflexivity]].
  - apply (parse_Ok_intro c1 p _ _ fresh_current); [exact Hb1|exact Hfold1].
  - apply (parse_Ok_intro c2
             (SSEParser.mk (snd (carry b1))
                           (eventCount p + Z.of_nat (length add1))
                           (SSEParser.maxBufferSize p)) _ _ cur2);
      [exact Hr1|exact Hfold2].
Qed.

(** A chunk of complete lines, on an empty buffer. *)
Lemma parse_unlines (lines : list string) (p : SSEParser.t) (count : Z)
      (events : list SSEParser.Event) (cur : Current) :
  SSEParser.buffer p = "" ->
  Forall no_newline lines ->
  strlen (unlines lines) <= SSEParser.maxBufferSize p ->
  run_lines JSON_parse lines (eventCount p) = (count, events, cur) ->
  parse JSON_parse (unlines lines) p
  = Ok events (SSEParser.mk "" count (SSEParser.maxBufferSize p)).
Proof.
  intros Hbuf Hlines Hlen Hrun.
  assert (Hcarry : carry (SSEParser.buffer p +:+ unlines lines) = (lines, "")).
  { rewrite Hbuf, append_nil, <- (append_empty_r (unlines lines)).
    apply carry_of_unlines; [exact Hlines|reflexivity]. }
  rewrite (parse_Ok_intro (unlines lines) p count events cur).
  - rewrite Hcarry. reflexivity.
  - rewrite Hbuf, append_nil. exact Hlen.
  - rewrite Hcarry. exact Hrun.
Qed.

Lemma unlines_app (l1 l2 : list string) :
  unlines (l1 ++ l2) = unlines l1 +:+ unlines l2.
Proof.
  induction l1 as [|l ls IH]; [reflexivity|].
  cbn [app unlines]. rewrite IH, append_assoc, append_cons. reflexivity.
Qed.

(** X4. The name an [event:] line gives holds for a data line of the same
    chunk only: when the chunk ends between the two lines, the event goes
    out under the default name [message]. *)
Theorem event_name_within_chunk (name text : string) (v : JSON)
        (p : SSEParser.t) :
  SSEParser.buffer p = "" ->
  no_newline name -> no_newline text ->
  text <> DONE ->
  JSON_parse text = Some v ->
  strlen (unlines ["event: " +:+ name; "data: " +:+ text])
  <= SSEParser.maxBufferSize p ->
  let p' := SSEParser.mk "" (eventCount p + 1) (SSEParser.maxBufferSize p) in
  parse JSON_parse (unlines ["event: " +:+ name; "data: " +:+ text]) p
  = Ok [mkEvent (trim name) v (eventCount p + 1) None None] p'
  /\ exists p1,
      parse JSON_parse (unlines ["event: " +:+ name]) p = Ok [] p1
      /\ parse JSON_parse (unlines ["data: " +:+ text]) p1
         = Ok [mkEvent "message" v (eventCount p + 1) None None] p'.
Proof.
  intros Hbuf Hname Htext Hdone Hparse Hlen p'.
  assert (Hl1 : no_newline ("event: " +:+ name)).
  { unfold no_newline. rewrite has_newline_append, Hname. reflexivity. }
  assert (Hl2 : no_newline ("data: " +:+ text)).
  { unfold no_newline. rewrite has_newline_append, Htext. reflexivity. }
  assert (Hdata : forall cur count,
             parse_line JSON_parse (count, [], cur) ("data: " +:+ text)
             = (count + 1,
                [mkEvent (cur_event cur) v (count + 1) (cur_id cur)
                         (cur_retry cur)], fresh_current)).
  { intros cur count. unfold parse_line.
    change (startsWith "event: " ("data: " +:+ text)) with false.
    rewrite startsWith_append.
    change (substring_from 6 ("data: " +:+ text)) with text.
    apply String.eqb_neq in Hdone. rewrite Hdone, Hparse. reflexivity. }
  assert (Hevent : forall count,
             parse_line JSON_parse (count, [], fresh_current)
                        ("event: " +:+ name)
             = (count, [], mkCurrent (trim name) None None)).
  { intros count. unfold parse_line. rewrite startsWith_append. reflexivity. }
  split.
  - apply (parse_unlines _ p _ _ fresh_current); auto.
    unfold run_lines. cbn [fold_left]. rewrite Hevent, Hdata. reflexivity.
  - exists (SSEParser.mk "" (eventCount p) (SSEParser.maxBufferSize p)).
    split.
    + apply (parse_unlines _ p _ _ (mkCurrent (trim name) None None)); auto.
      * change (unlines ["event: " +:+ name; "data: " +:+ text])
          with (unlines (["event: " +:+ name] ++ ["data: " +:+ text])) in Hlen.
        rewrite unlines_app, strlen_app in Hlen.
        pose proof (strlen_nonneg (unlines ["data: " +:+ text])). lia.
      * unfold run_lines. cbn [fold_left]. rewrite Hevent. reflexivity.
    + apply (parse_unlines _ (SSEParser.mk "" (eventCount p) _) _ _
                           fresh_current); auto.
      * cbn [SSEParser.maxBufferSize].
        change (unlines ["event: " +:+ name; "data: " +:+ text])
          with (unlines (["event: " +:+ name] ++ ["data: " +:+ text])) in Hlen.
        rewrite unlines_app, strlen_app in Hlen.
        pose proof (strlen_nonneg (unlines ["event: " +:+ name])). lia.
      * unfold run_lines. cbn [fold_left eventCount]. rewrite Hdata.
        reflexivity.
Qed.

Lemma data_line_not_event (line : string) :
  startsWith "data: " line = true -> startsWith "event: " line = false.
Proof.
  unfold startsWith. destruct line as [|c line]; [discriminate|].
  cbn [String.prefix].
  destruct (ascii_dec "d" c) as [<-|]; [|discriminate].
  intros _. reflexivity.
Qed.

(** A malformed data line changes nothing in the loop. *)
Lemma parse_line_malformed (st : Z * list SSEParser.Event * Current)
      (line : string) :
  malformed JSON_parse line -> parse_line JSON_parse st line = st.
Proof.
  intros (Hdata & Hdone & Hnone). destruct st as [[count events] cur].
  unfold parse_line. rewrite (data_line_not_event line Hdata), Hdata.
  apply String.eqb_neq in Hdone. rewrite Hdone, Hnone. reflexivity.
Qed.

(** X5. A data line whose payload is not valid JSON is dropped and nothing
    else: the call returns the events, and leaves the parser, that it
    would without that line. *)
Theorem malformed_line_dropped (before after : list string) (bad : string)
        (p : SSEParser.t) :
  SSEParser.buffer p = "" ->
  Forall no_newline (before ++ bad :: after) ->
  malformed JSON_parse bad ->
  strlen (unlines (before ++ bad :: after)) <= SSEParser.maxBufferSize p ->
  exists events p',
    parse JSON_parse (unlines (before ++ bad :: after)) p = Ok events p'
    /\ parse JSON_parse (unlines (before ++ after)) p = Ok events p'.
Proof.
  intros Hbuf Hlines Hbad Hlen.
  destruct (run_lines JSON_parse (before ++ after) (eventCount p))
    as [[count events] cur] eqn:Hrun.
  assert (Hrun' : run_lines JSON_parse (before ++ bad :: after) (eventCount p)
                  = (count, events, cur)).
  { unfold run_lines in *. rewrite fold_left_app in *. cbn [fold_left].
    rewrite (parse_line_malformed _ bad Hbad). exact Hrun. }
  exists events, (SSEParser.mk "" count (SSEParser.maxBufferSize p)).
  split.
  - apply (parse_unlines _ p _ _ cur); auto.
  - apply (parse_unlines _ p _ _ cur); auto.
    + apply Forall_app in Hlines as [H1 H2]. inversion H2; subst.
      apply Forall_app. auto.
    + rewrite unlines_app in *.
      change (bad :: after) with ([bad] ++ after)%list in Hlen.
      rewrite unlines_app, !strlen_app in Hlen. rewrite strlen_app.
      pose proof (strlen_nonneg (unlines [bad])). lia.
Qed.

(** X6. The completion sentinel, after whatever lines, gives one more
    event and one only: [done], with a null payload, the next number, and
    neither the name nor the id that earlier lines may have set. *)
Theorem sentinel_event (lines : list string) (p : SSEParser.t) :
  SSEParser.buffer p = "" ->
  Forall no_newline lines ->
  strlen (unlines (lines ++ ["data: [DONE]"])) <= SSEParser.maxBufferSize p ->
  exists events count,
    parse JSON_parse (unlines lines) p
    = Ok events (SSEParser.mk "" count (SSEParser.maxBufferSize p))
    /\ parse JSON_parse (unlines (lines ++ ["data: [DONE]"])) p
       = Ok (events ++ [mkEvent "done" JNull (count + 1) None None])%list
            (SSEParser.mk "" (count + 1) (SSEParser.maxBufferSize p)).
Proof.
  intros Hbuf Hlines Hlen.
  destruct (run_lines JSON_parse lines (eventCount p))
    as [[count events] cur] eqn:Hrun.
  exists events, count. split.
  - apply (parse_unlines _ p _ _ cur); auto.
    rewrite unlines_app, strlen_app in Hlen.
    pose proof (strlen_nonneg (unlines ["data: [DONE]"])). lia.
  - apply (parse_unlines _ p _ _ fresh_current); auto.
    + apply Forall_app. split; [exact Hlines|]. constructor; [reflexivity|].
      constructor.
    + unfold run_lines in *. rewrite fold_left_app, Hrun. reflexivity.
Qed.

End ParseProperties.

(** ** Invariants of the accumulator *)

Import Invariants.

Section InvariantProperties.

Variable sha256_hex : string -> string.

Lemma finalizeDelta_preserves (I : DeltaAccumulator.t -> Prop) (now : Z) :
  block_invariant I -> preserves I (finalizeDelta sha256_hex now).
Proof.
  intros (_ & _ & Hstop & _ & _ & _ & _ & _ & Hfin).
  intros a. unfold finalizeDelta. destruct (finalized a); [auto|].
  revert a. apply preserves_bind; [|intros].
  - preserves_tac.
  - repeat first [ apply preserves_bind; [|intros] | apply preserves_gets
                 | apply preserves_ret
                 | apply preserves_modify; intros; apply Hfin; assumption ].
Qed.

Lemma transformDelta_preserves (I : DeltaAccumulator.t -> Prop) (now : Z)
      (ev : UpstreamEvent.t) :
  block_invariant I -> preserves I (transformDelta sha256_hex now ev).
Proof.
  intros HI.
  pose proof HI as (Hstart & Hadd & Hstop & Husage & Hmodel & Hrole & Hstarted
                    & Hreason & _).
  unfold transformDelta.
  destruct (String.eqb _ "done"); [apply finalizeDelta_preserves, HI|].
  destruct (UpstreamEvent.data ev) as [payload|]; [|preserves_tac].
  destruct (head (Payload.choices payload)) as [choice|]; [|preserves_tac].
  destruct (Choice.delta choice) as [delta|]; [|preserves_tac].
  apply preserves_bind.
  { intros a Ha. unfold message_start_part.
    destruct (messageStarted a); [exact Ha|].
    destruct (truthy (Payload.model payload)); cbn [state_of];
      [apply Hstarted, Hmodel, Ha|apply Hstarted, Ha]. }
  intros events. apply preserves_bind.
  { destruct (truthy (Delta.role delta));
      [apply preserves_modify; intros; apply Hrole; assumption
      |apply preserves_ret]. }
  intros _.
  unfold reasoning_part, text_part, _createThinkingDeltaEvent,
    _createTextDeltaEvent.
  repeat first
         [ apply preserves_ret | apply preserves_throw | apply preserves_gets
         | apply preserves_modify; intros; apply Hreason; assumption
         | apply preserves_bind; [|intros]
         | apply Hstart | apply Hadd | apply Hstop | apply Husage
         | match goal with
           | |- preserves _ (if ?c then _ else _) => destruct c
           | |- preserves _ (match ?x with _ => _ end) => destruct x
           end ].
Qed.

Lemma transformAll_preserves (I : DeltaAccumulator.t -> Prop)
      (input : list (Z * UpstreamEvent.t)) :
  block_invariant I -> preserves I (transformAll sha256_hex input).
Proof.
  intros HI. induction input as [|[now ev] rest IH]; simpl.
  - apply preserves_ret.
  - apply preserves_bind; [apply transformDelta_preserves, HI|intros out].
    apply preserves_bind; [exact IH|intros outs]. apply preserves_ret.
Qed.

End InvariantProperties.

Ltac block_invariant_fields :=
  repeat first [ split; [intros ? ? Hinv; exact Hinv|]
               | intros ? ? Hinv; exact Hinv ].

Lemma well_indexed_invariant : block_invariant well_indexed.
Proof.
  unfold block_invariant. split; [|split; [|split; [|split]]].
  5: block_invariant_fields.
  - intros type a Ha. unfold startBlock.
    destruct (_ >=? _); [exact Ha|]. destruct Ha as [Hcur Hidx].
    assert (H : well_indexed
                  (set_contentBlocks
                     (push (contentBlocks a)
                           (Block.mk (currentBlockIndex a + 1) type "" true
                                     false))
                     (set_currentBlockIndex (currentBlockIndex a + 1) a))).
    { split; [simpl; rewrite length_push; lia|].
      intros i block Hi. simpl in Hi. unfold push in Hi.
      apply lookup_snoc_Some in Hi as [[_ Hi]|[-> <-]];
        [apply Hidx, Hi|simpl; lia]. }
    destruct (String.eqb type "thinking"); [exact H|].
    destruct (String.eqb type "text"); exact H.
  - intros delta a Ha. unfold addDelta.
    destruct (getCurrentBlock a) as [b|]; [|exact Ha].
    assert (H : forall v a',
               contentBlocks a' = contentBlocks a ->
               currentBlockIndex a' = currentBlockIndex a ->
               well_indexed (set_current_content v a')).
    { intros v a' Hb Hc. destruct Ha as [Hcur Hidx]. split.
      - simpl. rewrite length_alter, Hb, Hc. exact Hcur.
      - intros i block Hi. simpl in Hi. rewrite Hb in Hi.
        rewrite list_lookup_alter in Hi.
        destruct (decide (Z.to_nat (currentBlockIndex a') = i)) as [->|_].
        + destruct (contentBlocks a !! _) as [b0|] eqn:Hb0; [|discriminate].
          injection Hi as <-. simpl. apply Hidx, Hb0.
        + apply Hidx, Hi. }
    destruct (String.eqb (Block.type b) "thinking");
      [|destruct (String.eqb (Block.type b) "text")];
      try destruct (_ >? _); try exact Ha; apply H; reflexivity.
  - intros a Ha. unfold stopCurrentBlock.
    destruct (getCurrentBlock a) as [b|]; [|exact Ha].
    destruct Ha as [Hcur Hidx]. split.
    + simpl. rewrite length_alter. exact Hcur.
    + intros i block Hi. simpl in Hi. rewrite list_lookup_alter in Hi.
      destruct (decide (Z.to_nat (currentBlockIndex a) = i)) as [->|_].
      * destruct (contentBlocks a !! _) as [b0|] eqn:Hb0; [|discriminate].
        injection Hi as <-. simpl. apply Hidx, Hb0.
      * apply Hidx, Hi.
  - intros usage a Ha. unfold updateUsage. destruct usage; exact Ha.
Qed.


Lemma prefix_refl (s : string) : String.prefix s s = true.
Proof.
  induction s as [|c s IH]; [reflexivity|]. cbn [String.prefix].
  destruct (ascii_dec c c); [exact IH|contradiction].
Qed.

Lemma prefix_trans (s1 s2 s3 : string) :
  String.prefix s1 s2 = true -> String.prefix s2 s3 = true ->
  String.prefix s1 s3 = true.
Proof.
  revert s2 s3. induction s1 as [|c s1 IH]; intros s2 s3 H12 H23.
  - destruct s3; reflexivity.
  - destruct s2 as [|c2 s2]; [discriminate H12|].
    destruct s3 as [|c3 s3]; [discriminate H23|].
    cbn [String.prefix] in *.
    destruct (ascii_dec c c2) as [->|]; [|discriminate H12].
    destruct (ascii_dec c2 c3) as [->|]; [|discriminate H23].
    apply (IH s2 s3 H12 H23).
Qed.

Lemma grown_refl (a : DeltaAccumulator.t) : grown_from a a.
Proof.
  split; [reflexivity|]. split; [reflexivity|].
  intros i block Hi. exists block. repeat split; auto. apply prefix_refl.
Qed.

Lemma grown_trans (a b c : DeltaAccumulator.t) :
  grown_from a b -> grown_from b c -> grown_from a c.
Proof.
  intros (H1 & H2 & Hab) (H1' & H2' & Hbc).
  split; [congruence|]. split; [congruence|].
  intros i block Hi.
  destruct (Hab i block Hi) as (b1 & Hb1 & Hi1 & Ht1 & Hs1 & Hst1 & Hp1).
  destruct (Hbc i b1 Hb1) as (b2 & Hb2 & Hi2 & Ht2 & Hs2 & Hst2 & Hp2).
  exists b2. split; [exact Hb2|]. split; [congruence|]. split; [congruence|].
  split; [congruence|]. split; [auto|]. apply (prefix_trans _ _ _ Hp1 Hp2).
Qed.

(** Altering the current block by a function that keeps index, type and
    flags, and grows the content, grows the accumulator. *)
Lemma grown_alter (f : Block.t -> Block.t) (a a' : DeltaAccumulator.t) :
  maxBlocks a' = maxBlocks a ->
  maxBufferSize a' = maxBufferSize a ->
  contentBlocks a'
  = alter f (Z.to_nat (currentBlockIndex a)) (contentBlocks a) ->
  (forall b,
      contentBlocks a !! Z.to_nat (currentBlockIndex a) = Some b ->
      Block.index (f b) = Block.index b
      /\ Block.type (f b) = Block.type b
      /\ Block.started (f b) = Block.started b
      /\ (Block.stopped b = true -> Block.stopped (f b) = true)
      /\ String.prefix (Block.content b) (Block.content (f b)) = true) ->
  grown_from a a'.
Proof.
  intros H1 H2 Hb Hf. split; [exact H1|]. split; [exact H2|].
  intros i block Hi. rewrite Hb, list_lookup_alter.
  destruct (decide (Z.to_nat (currentBlockIndex a) = i)) as [<-|_].
  - rewrite Hi. exists (f block). split; [reflexivity|]. apply Hf, Hi.
  - exists block. split; [exact Hi|]. repeat split; auto. apply prefix_refl.
Qed.

Lemma getCurrentBlock_lookup (a : DeltaAccumulator.t) (b : Block.t) :
  getCurrentBlock a = Some b ->
  contentBlocks a !! Z.to_nat (currentBlockIndex a) = Some b.
Proof. unfold getCurrentBlock. destruct (_ && _); [auto|discriminate]. Qed.

Lemma grown_invariant (a0 : DeltaAccumulator.t) :
  block_invariant (fun a => in_sync a /\ grown_from a0 a).
Proof.
  assert (Hstep : forall {A} (m : M DeltaAccumulator.t A),
             preserves in_sync m ->
             (forall a, in_sync a -> grown_from a (state_of (m a))) ->
             preserves (fun a => in_sync a /\ grown_from a0 a) m).
  { intros A m Hm Hg a [Hs Ha]. split; [apply Hm, Hs|].
    apply (grown_trans _ a); [exact Ha|apply Hg, Hs]. }
  unfold block_invariant. split; [|split; [|split; [|split]]].
  5: block_invariant_fields.
  - intros type. apply Hstep; [apply startBlock_in_sync|].
    intros a _. unfold startBlock.
    destruct (_ >=? _); [apply grown_refl|].
    assert (H : grown_from a
                  (set_contentBlocks
                     (push (contentBlocks a)
                           (Block.mk (currentBlockIndex a + 1) type "" true
                                     false))
                     (set_currentBlockIndex (currentBlockIndex a + 1) a))).
    { split; [reflexivity|]. split; [reflexivity|].
      intros i block Hi. exists block. simpl. unfold push.
      rewrite lookup_app_l by (apply lookup_lt_Some in Hi; exact Hi).
      repeat split; auto. apply prefix_refl. }
    destruct (String.eqb type "thinking"); [exact H|].
    destruct (String.eqb type "text"); exact H.
  - intros delta. apply Hstep; [apply addDelta_in_sync|].
    intros a [_ Hsync]. unfold addDelta.
    destruct (getCurrentBlock a) as [b|] eqn:Hb; [|apply grown_refl].
    pose proof (getCurrentBlock_lookup a b Hb) as Hlook.
    destruct (String.eqb (Block.type b) "thinking") eqn:Hth;
      [|destruct (String.eqb (Block.type b) "text") eqn:Htx];
      [| |apply grown_refl].
    + destruct (_ >? _); [apply grown_refl|].
      apply (grown_alter (Block.set_content (thinkingBuffer a +:+ delta)));
        try reflexivity.
      intros b' Hb'. rewrite Hlook in Hb'. injection Hb' as <-.
      repeat split; auto. simpl.
      rewrite (Hsync b (thinkingBuffer a) eq_refl)
        by (unfold workingBuffer; rewrite Hth; reflexivity).
      apply startsWith_append.
    + destruct (_ >? _); [apply grown_refl|].
      apply (grown_alter (Block.set_content (textBuffer a +:+ delta)));
        try reflexivity.
      intros b' Hb'. rewrite Hlook in Hb'. injection Hb' as <-.
      repeat split; auto. simpl.
      rewrite (Hsync b (textBuffer a) eq_refl)
        by (unfold workingBuffer; rewrite Hth, Htx; reflexivity).
      apply startsWith_append.
  - apply Hstep; [apply stopCurrentBlock_in_sync|].
    intros a _. unfold stopCurrentBlock.
    destruct (getCurrentBlock a) as [b|] eqn:Hb; [|apply grown_refl].
    apply (grown_alter (Block.set_stopped true)); try reflexivity.
    intros b' _. repeat split; auto. apply prefix_refl.
  - intros usage a Ha. unfold updateUsage. destruct usage; exact Ha.
Qed.

Section InvariantTheorems.

Variable sha256_hex : string -> string.

(** X7. Blocks are numbered by their place: in every state that the loop
    reaches, by returning or by raising, from an accumulator where it
    holds (a fresh one, say), the block at place [i] has index [i] and the
    current block is the last one. *)
Theorem block_indices (input : list (Z * UpstreamEvent.t))
        (a : DeltaAccumulator.t) :
  well_indexed a ->
  well_indexed (state_of (transformAll sha256_hex input a)).
Proof. apply transformAll_preserves, well_indexed_invariant. Qed.


(** X9. Blocks are never removed, renumbered, retyped or reopened, and
    their content only grows at its end: in every state the loop reaches
    from an accumulator whose current content is its working buffer, each
    block of the start is at its place, with its index and type, stopped
    if it was, its old content a prefix of the new. *)
Theorem blocks_only_grow (input : list (Z * UpstreamEvent.t))
        (a : DeltaAccumulator.t) :
  in_sync a ->
  grown_from a (state_of (transformAll sha256_hex input a)).
Proof.
  intros Ha.
  apply (transformAll_preserves sha256_hex _ input (grown_invariant a) a).
  split; [exact Ha|apply grown_refl].
Qed.

End InvariantTheorems.

(** ** Indices of the blocks that are announced *)

Lemma startBlock_Ok_inv (type : string) (a a' : DeltaAccumulator.t)
      (block : Block.t) :
  startBlock type a = Ok block a' ->
  block = Block.mk (currentBlockIndex a + 1) type "" true false
  /\ contentBlocks a' = push (contentBlocks a) block
  /\ currentBlockIndex a' = currentBlockIndex a + 1
  /\ messageStarted a' = messageStarted a.
Proof.
  unfold startBlock. destruct (_ >=? _); [discriminate|].
  destruct (String.eqb type "thinking"); [|destruct (String.eqb type "text")];
    intros H; injection H as <- <-; repeat split.
Qed.

Lemma addDelta_Ok_inv (delta : string) (a a' : DeltaAccumulator.t) (u : unit) :
  addDelta delta a = Ok u a' ->
  length (contentBlocks a') = length (contentBlocks a)
  /\ currentBlockIndex a' = currentBlockIndex a
  /\ messageStarted a' = messageStarted a.
Proof.
  destruct u. unfold addDelta. destruct (getCurrentBlock a) as [b|].
  - destruct (String.eqb (Block.type b) "thinking");
      [|destruct (String.eqb (Block.type b) "text")];
      try destruct (_ >? _); try discriminate;
      intros H; injection H as <-; simpl; rewrite ?length_alter; auto.
  - intros H; injection H as <-. auto.
Qed.

Lemma stopCurrentBlock_Ok_inv (a a' : DeltaAccumulator.t) (u : unit) :
  stopCurrentBlock a = Ok u a' ->
  length (contentBlocks a') = length (contentBlocks a)
  /\ currentBlockIndex a' = currentBlockIndex a
  /\ messageStarted a' = messageStarted a.
Proof.
  destruct u. unfold stopCurrentBlock. destruct (getCurrentBlock a) as [b|];
    intros H; injection H as <-; simpl; rewrite ?length_alter; auto.
Qed.

Lemma start_indices_app (l1 l2 : list AnthropicEvent) :
  start_indices (l1 ++ l2) = (start_indices l1 ++ start_indices l2)%list.
Proof. apply omap_app. Qed.


Ltac block_inv :=
  repeat match goal with
         | H : startBlock _ _ = Ok _ _ |- _ =>
             apply startBlock_Ok_inv in H as (? & ? & ? & ?)
         | H : addDelta _ _ = Ok _ _ |- _ =>
             apply addDelta_Ok_inv in H as (? & ? & ?)
         | H : stopCurrentBlock _ = Ok _ _ |- _ =>
             apply stopCurrentBlock_Ok_inv in H as (? & ? & ?)
         end.

Lemma announces_none (a a' : DeltaAccumulator.t)
      (events0 : list AnthropicEvent) (extra : list AnthropicEvent) :
  currentBlockIndex a = Z.of_nat (length (contentBlocks a)) - 1 ->
  length (contentBlocks a') = length (contentBlocks a) ->
  currentBlockIndex a' = currentBlockIndex a ->
  start_indices extra = [] ->
  announces a a' events0 (events0 ++ extra).
Proof.
  intros Hcur Hlen Hcur' Hextra. unfold announces. rewrite Hlen, Hcur'.
  split; [exact Hcur|]. split; [lia|]. exists extra. split; [reflexivity|].
  rewrite Hextra, Z.sub_diag. reflexivity.
Qed.

Lemma announces_one (a a' : DeltaAccumulator.t)
      (events0 : list AnthropicEvent) (extra : list AnthropicEvent) (i : Z) :
  currentBlockIndex a = Z.of_nat (length (contentBlocks a)) - 1 ->
  length (contentBlocks a') = S (length (contentBlocks a)) ->
  currentBlockIndex a' = currentBlockIndex a + 1 ->
  start_indices extra = [i] ->
  i = currentBlockIndex a + 1 ->
  announces a a' events0 (events0 ++ extra).
Proof.
  intros Hcur Hlen Hcur' Hextra ->. unfold announces. rewrite Hlen, Hcur'.
  split; [lia|]. split; [lia|]. exists extra. split; [reflexivity|].
  rewrite Hextra.
  replace (Z.of_nat (S (length (contentBlocks a)))
           - Z.of_nat (length (contentBlocks a))) with 1 by lia.
  replace (currentBlockIndex a + 1)
    with (Z.of_nat (length (contentBlocks a))) by lia.
  unfold seqZ. simpl. rewrite Z.add_0_l. reflexivity.
Qed.

Ltac lengths :=
  repeat match goal with
         | H : contentBlocks _ = push _ _ |- _ =>
             apply (f_equal length) in H; rewrite length_push in H
         end.

Ltac announce :=
  lengths;
  first [ eapply announces_one; [assumption|lia|lia|reflexivity|simpl; lia]
        | apply announces_none; [assumption|lia|lia|reflexivity]
        | rewrite <- (app_nil_r _) at 1;
          apply announces_none; [assumption|lia|lia|reflexivity]
        | match goal with
          | |- announces _ _ ?e ?e =>
              rewrite <- (app_nil_r e) at 2;
              apply announces_none; [assumption|lia|lia|reflexivity]
          end ].

Section Announced.

Variable sha256_hex : string -> string.

Lemma reasoning_part_announces (delta : Delta.t)
      (events0 events : list AnthropicEvent) (a a' : DeltaAccumulator.t) :
  currentBlockIndex a = Z.of_nat (length (contentBlocks a)) - 1 ->
  reasoning_part delta events0 a = Ok events a' ->
  announces a a' events0 events.
Proof.
  intros Hcur H. unfold reasoning_part, _createThinkingDeltaEvent in H.
  inv_run; block_inv; subst; unfold push; rewrite <- ?app_assoc; announce.
Qed.

Lemma text_part_announces (now : Z) (delta : Delta.t)
      (events0 events : list AnthropicEvent) (a a' : DeltaAccumulator.t) :
  currentBlockIndex a = Z.of_nat (length (contentBlocks a)) - 1 ->
  text_part sha256_hex now delta events0 a = Ok events a' ->
  announces a a' events0 events.
Proof.
  intros Hcur H. unfold text_part, _createTextDeltaEvent in H.
  inv_run; block_inv; subst; unfold push; rewrite <- ?app_assoc; announce.
Qed.

End Announced.

Lemma updateUsage_Ok_inv (usage : option Usage.t)
      (a a' : DeltaAccumulator.t) (u : unit) :
  updateUsage usage a = Ok u a' ->
  contentBlocks a' = contentBlocks a
  /\ currentBlockIndex a' = currentBlockIndex a.
Proof.
  destruct u. unfold updateUsage.
  destruct usage; intros H; injection H as <-; auto.
Qed.

Lemma announces_trans (a b c : DeltaAccumulator.t)
      (e0 e1 e2 : list AnthropicEvent) :
  announces a b e0 e1 -> announces b c e1 e2 -> announces a c e0 e2.
Proof.
  intros (Hb & Hab & x1 & -> & Hx1) (Hc & Hbc & x2 & -> & Hx2).
  split; [exact Hc|]. split; [lia|].
  exists (x1 ++ x2)%list. split; [rewrite app_assoc; reflexivity|].
  rewrite start_indices_app, Hx1, Hx2.
  replace (Z.of_nat (length (contentBlocks c))
           - Z.of_nat (length (contentBlocks a)))
    with ((Z.of_nat (length (contentBlocks b))
           - Z.of_nat (length (contentBlocks a)))
          + (Z.of_nat (length (contentBlocks c))
             - Z.of_nat (length (contentBlocks b)))) by lia.
  rewrite seqZ_app by lia. do 2 f_equal. lia.
Qed.

Lemma announces_same (a a' : DeltaAccumulator.t) (e : list AnthropicEvent) :
  currentBlockIndex a = Z.of_nat (length (contentBlocks a)) - 1 ->
  length (contentBlocks a') = length (contentBlocks a) ->
  currentBlockIndex a' = currentBlockIndex a ->
  announces a a' e e.
Proof.
  intros H1 H2 H3. rewrite <- (app_nil_r e) at 2.
  apply announces_none; auto.
Qed.

Section AnnouncedBlocks.

Variable sha256_hex : string -> string.

Lemma message_start_part_announces (payload : Payload.t)
      (events0 events : list AnthropicEvent) (a a' : DeltaAccumulator.t) :
  currentBlockIndex a = Z.of_nat (length (contentBlocks a)) - 1 ->
  message_start_part payload events0 a = Ok events a' ->
  announces a a' events0 events.
Proof.
  intros Hcur H. unfold message_start_part in H.
  destruct (messageStarted a); injection H as <- <-.
  - apply announces_same; auto.
  - unfold push. destruct (truthy (Payload.model payload));
      apply announces_none; auto.
Qed.

Lemma finalizeDelta_announces (now : Z) (events : list AnthropicEvent)
      (a a' : DeltaAccumulator.t) :
  currentBlockIndex a = Z.of_nat (length (contentBlocks a)) - 1 ->
  finalizeDelta sha256_hex now a = Ok events a' ->
  announces a a' [] events.
Proof.
  intros Hcur H. unfold finalizeDelta in H.
  destruct (finalized a).
  - injection H as <- <-. apply announces_same; auto.
  - inv_run; block_inv; subst; unfold push; rewrite <- ?app_assoc;
      try (destruct (String.eqb _ "thinking"));
      apply (announces_none _ _ []); simpl; auto; lia.
Qed.

Lemma transformDelta_announces (now : Z) (ev : UpstreamEvent.t)
      (events : list AnthropicEvent) (a a' : DeltaAccumulator.t) :
  currentBlockIndex a = Z.of_nat (length (contentBlocks a)) - 1 ->
  transformDelta sha256_hex now ev a = Ok events a' ->
  announces a a' [] events.
Proof.
  intros Hcur H. unfold transformDelta in H.
  destruct (String.eqb _ "done"); [apply (finalizeDelta_announces now); auto|].
  destruct (UpstreamEvent.data ev) as [payload|];
    [|injection H as <- <-; apply announces_same; auto].
  destruct (head (Payload.choices payload)) as [choice|];
    [|injection H as <- <-; apply announces_same; auto].
  destruct (Choice.delta choice) as [delta|];
    [|injection H as <- <-; apply announces_same; auto].
  inv_run;
    repeat match goal with
           | H : message_start_part _ _ _ = Ok _ _ |- _ =>
               apply message_start_part_announces in H; [|assumption]
           | H : reasoning_part _ _ _ = Ok _ _ |- _ =>
               apply reasoning_part_announces in H;
               [|first [assumption
                       |match goal with
                        | H' : announces _ _ _ _ |- _ => exact (proj1 H')
                        end]]
           | H : text_part _ _ _ _ _ = Ok _ _ |- _ =>
               apply (text_part_announces sha256_hex) in H;
               [|match goal with
                 | H' : announces _ ?s _ _ |- currentBlockIndex ?s = _ =>
                     exact (proj1 H')
                 end]
           | H : updateUsage _ _ = Ok _ _ |- _ =>
               apply updateUsage_Ok_inv in H as (? & ?)
           end;
    match goal with
    | H1 : announces a ?s [] ?x, H2 : announces _ ?s1 ?x ?x1,
      H3 : announces ?s1 ?s2 ?x1 ?x2 |- _ =>
        apply (announces_trans a s _ [] x x2); [exact H1|];
        apply (announces_trans s s1 _ x x1 x2); [exact H2|];
        apply (announces_trans s1 s2 _ x1 x2 x2); [exact H3|];
        apply announces_same; [exact (proj1 H3)|simpl; congruence..]
    end.
Qed.

(** X10. The [content_block_start] events carry the indices of the blocks
    in order, with no gap: when the loop returns, from a fresh accumulator
    or from any whose current block is the last, the indices announced are
    those from the number of blocks at the start up to the number at the
    end; from a fresh accumulator, 0, 1, 2 and so on. *)
Theorem start_indices_in_order (input : list (Z * UpstreamEvent.t))
        (events : list AnthropicEvent) (a a' : DeltaAccumulator.t) :
  currentBlockIndex a = Z.of_nat (length (contentBlocks a)) - 1 ->
  transformAll sha256_hex input a = Ok events a' ->
  start_indices events
  = seqZ (Z.of_nat (length (contentBlocks a)))
         (Z.of_nat (length (contentBlocks a'))
          - Z.of_nat (length (contentBlocks a))).
Proof.
  intros Hcur H.
  assert (Hann : announces a a' [] events).
  { revert a a' events Hcur H.
    induction input as [|[now ev] rest IH]; intros a a' events Hcur H.
    - injection H as <- <-. apply announces_same; auto.
    - cbn [transformAll] in H. inv_run.
      match goal with
      | H1 : transformDelta _ _ _ _ = Ok ?x ?s,
        H2 : transformAll _ _ _ = Ok ?x0 _ |- _ =>
          apply transformDelta_announces in H1; [|exact Hcur];
          apply IH in H2; [|exact (proj1 H1)];
          destruct H1 as (Hb & Hab & x1 & -> & Hx1);
          destruct H2 as (Hc & Hbc & x2 & -> & Hx2);
          apply (announces_trans a s _ [] x1 (x1 ++ x2));
            [split; [exact Hb|]; split; [exact Hab|]; exists x1; auto|];
          split; [exact Hc|]; split; [exact Hbc|]; exists x2; auto
      end. }
  destruct Hann as (_ & _ & extra & -> & Hextra). exact Hextra.
Qed.

End AnnouncedBlocks.

(** ** The events of one delta *)

Section DeltaEvents.

Variable sha256_hex : string -> string.

Lemma reasoning_part_block_events (delta : Delta.t)
      (events0 events : list AnthropicEvent) (a a' : DeltaAccumulator.t) :
  reasoning_part delta events0 a = Ok events a' ->
  messageStarted a' = messageStarted a
  /\ exists extra, events = (events0 ++ extra)%list
                   /\ Forall is_block_event extra.
Proof.
  intros H. unfold reasoning_part, _createThinkingDeltaEvent in H.
  inv_run; block_inv; subst; unfold push; rewrite <- ?app_assoc;
    (split; [congruence|]);
    first [ eexists; split; [reflexivity|]; repeat constructor
          | exists []; rewrite app_nil_r; split; [reflexivity|constructor] ].
Qed.

Lemma text_part_block_events (now : Z) (delta : Delta.t)
      (events0 events : list AnthropicEvent) (a a' : DeltaAccumulator.t) :
  text_part sha256_hex now delta events0 a = Ok events a' ->
  messageStarted a' = messageStarted a
  /\ exists extra, events = (events0 ++ extra)%list
                   /\ Forall is_block_event extra.
Proof.
  intros H. unfold text_part, _createTextDeltaEvent in H.
  inv_run; block_inv; subst; unfold push; rewrite <- ?app_assoc;
    (split; [congruence|]);
    first [ eexists; split; [reflexivity|]; repeat constructor
          | exists []; rewrite app_nil_r; split; [reflexivity|constructor] ].
Qed.

Lemma transformDelta_events (now : Z) (ev : UpstreamEvent.t) (payload : Payload.t)
        (delta : Delta.t) (events : list AnthropicEvent)
        (a a' : DeltaAccumulator.t) :
  UpstreamEvent.event ev <> "done" ->
  UpstreamEvent.data ev = Some payload ->
  first_delta ev = Some delta ->
  transformDelta sha256_hex now ev a = Ok events a' ->
  messageStarted a' = true
  /\ exists extra,
      events
      = ((if messageStarted a then []
          else [message_start (messageId a) (role a) (start_model payload a)
                              (inputTokens a) 0]) ++ extra)%list
      /\ Forall is_block_event extra.
Proof.
  intros Hev Hdata Hdelta H. unfold transformDelta in H.
  unfold first_delta in Hdelta. rewrite Hdata in Hdelta.
  apply String.eqb_neq in Hev. rewrite Hev, Hdata in H.
  destruct (head (Payload.choices payload)) as [choice|]; [|discriminate].
  rewrite Hdelta in H.
  inv_run;
    repeat match goal with
           | H : reasoning_part _ _ _ = Ok _ _ |- _ =>
               apply reasoning_part_block_events in H
                   as (? & ? & -> & ?)
           | H : text_part _ _ _ _ _ = Ok _ _ |- _ =>
               apply text_part_block_events in H as (? & ? & -> & ?)
           | H : updateUsage ?u _ = Ok _ _ |- _ =>
               unfold updateUsage in H; destruct u;
               injection H as ?; subst
           end;
    match goal with
    | H : message_start_part _ _ _ = Ok _ _ |- _ =>
        unfold message_start_part in H;
        destruct (messageStarted a) eqn:Hstarted;
        injection H as ? ?; subst
    end;
    cbn in *;
    (split; [congruence|]);
    unfold push; rewrite <- ?app_assoc;
    (exists (x0 ++ x1)%list; split;
     [unfold start_model, _createMessageStartEvent;
      first [reflexivity
            |destruct (truthy (Payload.model payload)); reflexivity]
     |apply Forall_app; split; assumption]).
Qed.

(** X11. What one delta gives: when [transformDelta] returns on an event
    that has a delta, the message counts as started; the events begin with
    a [message_start] exactly if it had not started before, and all that
    follow are events of blocks.  The [message_start] carries the role the
    accumulator had before this delta (the role of the delta itself is
    recorded after it) and the model of the payload, if it has one. *)
Theorem delta_events (now : Z) (ev : UpstreamEvent.t) (payload : Payload.t)
        (delta : Delta.t) (events : list AnthropicEvent)
        (a a' : DeltaAccumulator.t) :
  UpstreamEvent.event ev <> "done" ->
  UpstreamEvent.data ev = Some payload ->
  first_delta ev = Some delta ->
  transformDelta sha256_hex now ev a = Ok events a' ->
  messageStarted a' = true
  /\ exists extra,
      events
      = ((if messageStarted a then []
          else [message_start (messageId a) (role a) (start_model payload a)
                              (inputTokens a) 0]) ++ extra)%list
      /\ Forall is_block_event extra.
Proof. apply transformDelta_events. Qed.

Lemma message_starts_app (l1 l2 : list AnthropicEvent) :
  message_starts (l1 ++ l2) = (message_starts l1 + message_starts l2)%nat.
Proof. unfold message_starts. rewrite List.filter_app, length_app. reflexivity. Qed.

Lemma block_events_no_start (l : list AnthropicEvent) :
  Forall is_block_event l -> message_starts l = 0%nat.
Proof.
  unfold message_starts. induction 1 as [|e l He _ IH]; [reflexivity|].
  destruct e; try contradiction; exact IH.
Qed.

Lemma finalizeDelta_no_start (now : Z) (events : list AnthropicEvent)
      (a a' : DeltaAccumulator.t) :
  finalizeDelta sha256_hex now a = Ok events a' ->
  message_starts events = 0%nat /\ messageStarted a' = messageStarted a.
Proof.
  intros H. unfold finalizeDelta in H.
  destruct (finalized a); [injection H as <- <-; auto|].
  inv_run; block_inv; subst; unfold push; rewrite ?message_starts_app;
    try (destruct (String.eqb _ "thinking")); split; try reflexivity;
    simpl; congruence.
Qed.

Lemma transformDelta_message_starts (now : Z) (ev : UpstreamEvent.t)
      (events : list AnthropicEvent) (a a' : DeltaAccumulator.t) :
  transformDelta sha256_hex now ev a = Ok events a' ->
  (messageStarted a = true ->
   messageStarted a' = true /\ message_starts events = 0%nat)
  /\ (messageStarted a = false ->
      message_starts events = 0%nat
      \/ (message_starts events = 1%nat /\ messageStarted a' = true)).
Proof.
  intros H.
  destruct (String.eqb (UpstreamEvent.event ev) "done") eqn:Hev.
  { unfold transformDelta in H. rewrite Hev in H.
    apply finalizeDelta_no_start in H as [H1 H2]. rewrite H2. auto. }
  apply String.eqb_neq in Hev.
  destruct (first_delta ev) as [delta|] eqn:Hdelta.
  - destruct (UpstreamEvent.data ev) as [payload|] eqn:Hdata;
      [|unfold first_delta in Hdelta; rewrite Hdata in Hdelta; discriminate].
    destruct (transformDelta_events now ev payload delta events a a' Hev Hdata Hdelta H)
      as (Hstarted & extra & -> & Hextra).
    rewrite message_starts_app, (block_events_no_start extra Hextra).
    split; intros Ha; rewrite Ha; auto.
  - rewrite (transformDelta_without_delta sha256_hex now ev a Hev Hdelta) in H.
    injection H as <- <-. auto.
Qed.

(** X12. [message_start] goes out at most once: when the loop returns,
    its events hold no [message_start] if the message had started, and at
    most one otherwise. *)
Theorem message_start_once (input : list (Z * UpstreamEvent.t))
        (events : list AnthropicEvent) (a a' : DeltaAccumulator.t) :
  transformAll sha256_hex input a = Ok events a' ->
  (message_starts events <= if messageStarted a then 0 else 1)%nat.
Proof.
  revert a a' events.
  induction input as [|[now ev] rest IH]; intros a a' events H.
  - injection H as <- <-. unfold message_starts.
    destruct (messageStarted a); simpl; lia.
  - cbn [transformAll] in H. inv_run.
    match goal with
    | H1 : transformDelta _ _ _ _ = Ok ?x ?s,
      H2 : transformAll _ _ _ = Ok ?x0 _ |- _ =>
        apply transformDelta_message_starts in H1 as [Hyes Hno];
        apply IH in H2
    end.
    rewrite message_starts_app.
    destruct (messageStarted a).
    + destruct (Hyes eq_refl) as [Hs ->].
      match goal with H : (_ <= _)%nat |- _ => rewrite Hs in H end. lia.
    + destruct (Hno eq_refl) as [->|[-> Hs]].
      * match goal with H : (_ <= if ?c then _ else _)%nat |- _ =>
          destruct c end; lia.
      * match goal with H : (_ <= _)%nat |- _ => rewrite Hs in H end. lia.
Qed.

End DeltaEvents.

(** ** From reasoning to answer text *)

Lemma truthy_Some (s : string) : s <> "" -> truthy (Some s) = Some s.
Proof. destruct s; [contradiction|reflexivity]. Qed.

Section Transition.

Variable sha256_hex : string -> string.

(** X13. Reasoning closes before answer text opens: when answer text
    arrives while the current block is a thinking block that has not
    stopped, [transformDelta] sends the signature over its content and
    its [content_block_stop], then the start of a new text block, the next
    in number, and the text, in this order; the thinking block is left
    stopped and the text block current. *)
Theorem thinking_closes_before_text (now : Z) (text : string)
        (a : DeltaAccumulator.t) (block : Block.t) :
  currentBlockIndex a = Z.of_nat (length (contentBlocks a)) - 1 ->
  messageStarted a = true ->
  getCurrentBlock a = Some block ->
  Block.type block = "thinking" ->
  Block.stopped block = false ->
  text <> "" ->
  Z.of_nat (length (contentBlocks a)) < maxBlocks a ->
  strlen text <= maxBufferSize a ->
  exists a',
    transformDelta sha256_hex now (text_event text) a
    = Ok [signature_delta (Block.index block)
            (String.substring 0 16 (sha256_hex (Block.content block)))
            (strlen (Block.content block)) now;
          content_block_stop (Block.index block);
          content_block_start (currentBlockIndex a + 1) "text";
          text_delta (currentBlockIndex a + 1) text] a'
    /\ getCurrentBlock a'
       = Some (Block.mk (currentBlockIndex a + 1) "text" text true false)
    /\ contentBlocks a' !! Z.to_nat (currentBlockIndex a)
       = Some (Block.set_stopped true block).
Proof.
  intros Hcur Hstarted Hblock Htype Hopen Htext Hroom Hfits.
  pose proof (getCurrentBlock_lookup a block Hblock) as Hlook.
  assert (Hrange : (Z.to_nat (currentBlockIndex a) < length (contentBlocks a))%nat)
    by (apply lookup_lt_Some in Hlook; exact Hlook).
  set (a1 := set_contentBlocks
               (alter (Block.set_stopped true) (Z.to_nat (currentBlockIndex a))
                      (contentBlocks a)) a).
  assert (H1 : stopCurrentBlock a = Ok tt a1).
  { unfold stopCurrentBlock. rewrite Hblock. reflexivity. }
  assert (Hcur1 : getCurrentBlock a1 = Some (Block.set_stopped true block)).
  { rewrite (getCurrentBlock_alter (Block.set_stopped true) a a1), Hblock;
      reflexivity. }
  set (new := Block.mk (currentBlockIndex a + 1) "text" "" true false).
  set (a2 := set_textBuffer ""
               (set_contentBlocks (push (contentBlocks a1) new)
                  (set_currentBlockIndex (currentBlockIndex a + 1) a1))).
  assert (H2 : startBlock "text" a1 = Ok new a2).
  { unfold startBlock. cbn [contentBlocks a1 set_contentBlocks maxBlocks].
    rewrite length_alter.
    destruct (Z.geb_spec (Z.of_nat (length (contentBlocks a))) (maxBlocks a));
      [lia|reflexivity]. }
  assert (Hcur2 : getCurrentBlock a2 = Some new).
  { apply (getCurrentBlock_push a2 (contentBlocks a1) new); [reflexivity|].
    cbn. rewrite length_alter. lia. }
  set (a3 := set_current_content ("" +:+ text) (set_textBuffer ("" +:+ text) a2)).
  assert (H3 : addDelta text a2 = Ok tt a3).
  { unfold addDelta. rewrite Hcur2. cbn [Block.type new String.eqb].
    change (strlen (textBuffer a2)) with 0.
    destruct (Z.gtb_spec (0 + strlen text) (maxBufferSize a2));
      [cbn in *; lia|reflexivity]. }
  assert (Hcur3 : getCurrentBlock a3 = Some (Block.set_content text new)).
  { rewrite (getCurrentBlock_alter (Block.set_content ("" +:+ text))
               (set_textBuffer ("" +:+ text) a2) a3); [|reflexivity..].
    change (getCurrentBlock (set_textBuffer ("" +:+ text) a2))
      with (getCurrentBlock a2).
    rewrite Hcur2. reflexivity. }
  exists a3. split; [|split].
  - unfold transformDelta, text_event, delta_event.
    cbn [UpstreamEvent.event UpstreamEvent.data Payload.choices head
         Choice.delta Choice.finish_reason Payload.usage Payload.model
         Delta.role Delta.content Delta.reasoning_content].
    change (String.eqb "message" "done") with false. cbv iota.
    unfold message_start_part, reasoning_part, text_part, updateUsage.
    cbn [Delta.role Delta.content Delta.reasoning_content].
    rewrite (truthy_Some text Htext).
    change (truthy None) with (@None string). cbv iota.
    unfold bind, gets, ret. rewrite Hstarted. cbv beta iota.
    rewrite Hblock, Htype, Hopen.
    change (String.eqb "thinking" "thinking" && negb false) with true.
    cbv beta iota. rewrite H1. cbv beta iota. rewrite Hcur1.
    unfold is_type. cbn [Block.type Block.set_stopped]. rewrite Htype.
    change (negb (String.eqb "thinking" "text")) with true. cbv beta iota.
    rewrite H2. cbv beta iota. rewrite H3. cbv beta iota. rewrite Hcur3.
    unfold _createTextDeltaEvent, ret. cbv beta iota.
    reflexivity.
  - exact Hcur3.
  - unfold a3. cbn. rewrite list_lookup_alter_ne.
    + unfold push. rewrite lookup_app_l by (rewrite length_alter; exact Hrange).
      rewrite list_lookup_alter_eq, Hlook. reflexivity.
    + lia.
Qed.

End Transition.

(** ** One open block *)

Lemma leads_bind {S A B} (P Q R : S -> Prop) (m : M S A) (k : A -> M S B) :
  leads P m Q -> (forall s, Q s -> R s) -> (forall x, leads Q (k x) R) ->
  leads P (bind m k) R.
Proof.
  intros Hm HQR Hk s Hs. unfold bind. specialize (Hm s Hs).
  destruct (m s) as [x s1|e s1]; simpl in *; [apply Hk, Hm|apply HQR, Hm].
Qed.

Lemma leads_preserves {S A} (I : S -> Prop) (m : M S A) :
  preserves I m -> leads I m I.
Proof. intros H. exact H. Qed.

Lemma leads_weaken {S A} (P P' Q : S -> Prop) (m : M S A) :
  (forall s, P' s -> P s) -> leads P m Q -> leads P' m Q.
Proof. intros HP H s Hs. apply H, HP, Hs. Qed.

Lemma exclusive_open_count (a : DeltaAccumulator.t) :
  exclusive a -> (open_count a <= 1)%nat.
Proof.
  unfold exclusive, open_count.
  generalize (currentBlockIndex a) as k. generalize (contentBlocks a) as l.
  induction l as [|b l IH]; intros k H; [simpl; lia|].
  rewrite filter_cons. destruct (decide (is_open b = true)) as [Hb|Hb].
  - assert (Hk : 0 = k) by (apply (H 0%nat b); [reflexivity|exact Hb]).
    assert (Hnone : Forall (fun x => ~ is_open x = true) l).
    { apply Forall_lookup. intros i x Hi Hx.
      specialize (H (S i) x Hi Hx). lia. }
    cbn [length].
    replace (filter (fun b0 => is_open b0 = true) l) with (@nil Block.t);
      [simpl; lia|].
    symmetry. clear - Hnone. induction Hnone as [|x l Hx _ IH]; [reflexivity|].
    rewrite filter_cons. destruct (decide (is_open x = true)); [contradiction|].
    exact IH.
  - apply (IH (k - 1)). intros i x Hi Hx. specialize (H (S i) x Hi Hx). lia.
Qed.

Lemma is_open_set_content (v : string) (b : Block.t) :
  is_open (Block.set_content v b) = is_open b.
Proof. reflexivity. Qed.

(** Altering the current block by a function that keeps the type and opens
    nothing keeps the accumulator tidy. *)
Lemma tidy_alter (f : Block.t -> Block.t) (a a' : DeltaAccumulator.t) :
  contentBlocks a'
  = alter f (Z.to_nat (currentBlockIndex a)) (contentBlocks a) ->
  currentBlockIndex a' = currentBlockIndex a ->
  (forall b, Block.type (f b) = Block.type b) ->
  (forall b, is_open (f b) = true -> is_open b = true) ->
  tidy a -> tidy a'.
Proof.
  intros Hb Hc Hty Hopen (Hcur & Hex & Htyped). split; [|split].
  - rewrite Hb, Hc, length_alter. exact Hcur.
  - intros i x Hi Hx. rewrite Hb, list_lookup_alter in Hi. rewrite Hc.
    destruct (decide (Z.to_nat (currentBlockIndex a) = i)) as [<-|_].
    + destruct (contentBlocks a !! _) as [b0|] eqn:Hb0; [|discriminate].
      injection Hi as <-. apply (Hex _ b0 Hb0), Hopen, Hx.
    + apply (Hex i x Hi Hx).
  - rewrite Hb. apply Forall_alter; [exact Htyped|].
    intros x _ Hx. rewrite Hty. exact Hx.
Qed.

Lemma addDelta_tidy (delta : string) : preserves tidy (addDelta delta).
Proof.
  intros a Ha. unfold addDelta.
  destruct (getCurrentBlock a) as [b|]; [|exact Ha].
  assert (H : forall v a',
             contentBlocks a' = contentBlocks a ->
             currentBlockIndex a' = currentBlockIndex a ->
             tidy (set_current_content v a')).
  { intros v a' Hb Hc.
    apply (tidy_alter (Block.set_content v) a); simpl; rewrite ?Hb, ?Hc; auto. }
  destruct (String.eqb (Block.type b) "thinking");
    [|destruct (String.eqb (Block.type b) "text")];
    try destruct (_ >? _); try exact Ha; apply H; reflexivity.
Qed.

Lemma stopCurrentBlock_tidy : preserves tidy stopCurrentBlock.
Proof.
  intros a Ha. unfold stopCurrentBlock.
  destruct (getCurrentBlock a) as [b|]; [|exact Ha].
  apply (tidy_alter (Block.set_stopped true) a); auto.
  intros b0. unfold is_open. simpl. rewrite andb_false_r. discriminate.
Qed.

Lemma updateUsage_tidy (usage : option Usage.t) :
  preserves tidy (updateUsage usage).
Proof. intros a Ha. unfold updateUsage. destruct usage; exact Ha. Qed.

(** With the current block closed, or none, every block is closed. *)
Lemma all_closed_intro (a : DeltaAccumulator.t) :
  tidy a ->
  (forall b, getCurrentBlock a = Some b -> is_open b = false) ->
  all_closed a.
Proof.
  intros (Hcur & Hex & _) Hb. apply Forall_lookup. intros i x Hi.
  destruct (is_open x) eqn:Hx; [|reflexivity].
  pose proof (Hex i x Hi Hx) as Hic.
  rewrite <- (Hb x); [symmetry; exact Hx|].
  unfold getCurrentBlock. apply lookup_lt_Some in Hi as Hlt.
  replace ((0 <=? currentBlockIndex a)
           && (currentBlockIndex a <? Z.of_nat (length (contentBlocks a))))
    with true
    by (symmetry; apply andb_true_iff; split;
        [apply Z.leb_le|apply Z.ltb_lt]; lia).
  rewrite <- Hic, Nat2Z.id. exact Hi.
Qed.

Lemma stopCurrentBlock_closes (a : DeltaAccumulator.t) :
  tidy a -> all_closed (state_of (stopCurrentBlock a)).
Proof.
  intros Ha. apply all_closed_intro; [apply stopCurrentBlock_tidy, Ha|].
  unfold stopCurrentBlock.
  destruct (getCurrentBlock a) as [b|] eqn:Hb.
  - intros b'. cbn [state_of].
    rewrite (getCurrentBlock_alter (Block.set_stopped true) a);
      [|reflexivity..].
    rewrite Hb. intros H. injection H as <-.
    unfold is_open. simpl. apply andb_false_r.
  - cbn [state_of]. intros b' Hb'. congruence.
Qed.

Lemma startBlock_tidy (type : string) :
  type = "thinking" \/ type = "text" ->
  leads (fun a => tidy a /\ all_closed a) (startBlock type) tidy.
Proof.
  intros Hty a [(Hcur & Hex & Htyped) Hclosed]. unfold startBlock.
  destruct (_ >=? _); [split; [|split]; assumption|].
  assert (H : tidy
                (set_contentBlocks
                   (push (contentBlocks a)
                         (Block.mk (currentBlockIndex a + 1) type "" true false))
                   (set_currentBlockIndex (currentBlockIndex a + 1) a))).
  { split; [simpl; rewrite length_push; lia|]. split.
    - intros i x Hi Hx. simpl in Hi |- *. unfold push in Hi.
      apply lookup_snoc_Some in Hi as [[_ Hi]|[-> _]]; [|lia].
      rewrite (proj1 (Forall_lookup _ _) Hclosed i x Hi) in Hx. discriminate.
    - simpl. unfold push. apply Forall_app. split; [exact Htyped|].
      constructor; [exact Hty|constructor]. }
  destruct (String.eqb type "thinking"); [exact H|].
  destruct (String.eqb type "text"); exact H.
Qed.

#[local] Hint Resolve addDelta_tidy stopCurrentBlock_tidy updateUsage_tidy
  : preserves.

Lemma bind_state {S A B} (R : S -> Prop) (m : M S A) (k : A -> M S B) (s : S) :
  (forall e s', m s = Throw e s' -> R s') ->
  (forall x s', m s = Ok x s' -> R (state_of (k x s'))) ->
  R (state_of (bind m k s)).
Proof.
  intros Ht Ho. unfold bind.
  destruct (m s) as [x s'|e s'] eqn:H; [apply (Ho x s' eq_refl)|].
  apply (Ht e s' eq_refl).
Qed.

Lemma start_then_tidy (type : string) (events : list AnthropicEvent)
      (a : DeltaAccumulator.t) :
  type = "thinking" \/ type = "text" ->
  tidy a -> all_closed a ->
  tidy (state_of
          ((let* block := startBlock type in
            ret (push events
                      (GlmtTransformer._createContentBlockStartEvent block)))
             a)).
Proof.
  intros Hty Ha Hclosed.
  assert (H : leads (fun a => tidy a /\ all_closed a)
                    (let* block := startBlock type in
                     ret (push events
                               (GlmtTransformer._createContentBlockStartEvent
                                  block)))
                    tidy).
  { apply (leads_bind _ tidy);
      [apply startBlock_tidy, Hty|auto|intros block s Hs; exact Hs]. }
  apply H. split; assumption.
Qed.

Lemma reasoning_part_tidy (delta : Delta.t) (events0 : list AnthropicEvent) :
  leads (fun a => tidy a
                  /\ (truthy (Delta.reasoning_content delta) <> None ->
                      other_block_open a = false))
        (reasoning_part delta events0) tidy.
Proof.
  intros a [Ha Hc]. unfold reasoning_part.
  destruct (truthy (Delta.reasoning_content delta)) as [r|]; [|exact Ha].
  specialize (Hc ltac:(discriminate)).
  unfold bind at 1. unfold gets at 1. cbv beta iota.
  assert (Htail : forall events,
             preserves tidy
               (addDelta r;;
                (let* block := gets getCurrentBlock in
                 let* e := _createThinkingDeltaEvent block r in
                 ret (push events e)))).
  { intros events. unfold _createThinkingDeltaEvent. preserves_tac. }
  apply bind_state.
  - intros e s' H.
    destruct (is_type "thinking" (getCurrentBlock a)) eqn:Hty;
      [discriminate H|]. cbn [negb] in H.
    assert (Hx := start_then_tidy "thinking" events0 a (or_introl eq_refl) Ha).
    rewrite H in Hx. apply Hx.
    apply all_closed_intro; [exact Ha|]. intros b Hb.
    unfold other_block_open in Hc. rewrite Hb in Hc, Hty. cbn in Hty.
    rewrite Hty in Hc. exact Hc.
  - intros events s' H. apply Htail.
    destruct (is_type "thinking" (getCurrentBlock a)) eqn:Hty; cbn [negb] in H.
    + injection H as _ <-. exact Ha.
    + assert (Hx := start_then_tidy "thinking" events0 a (or_introl eq_refl) Ha).
      rewrite H in Hx. apply Hx.
      apply all_closed_intro; [exact Ha|]. intros b Hb.
      unfold other_block_open in Hc. rewrite Hb in Hc, Hty. cbn in Hty.
      rewrite Hty in Hc. exact Hc.
Qed.

Section Tidy.

Variable sha256_hex : string -> string.

Lemma text_part_tidy (now : Z) (delta : Delta.t)
      (events0 : list AnthropicEvent) :
  preserves tidy (text_part sha256_hex now delta events0).
Proof.
  intros a Ha. unfold text_part.
  destruct (truthy (Delta.content delta)) as [text|]; [|exact Ha].
  unfold bind at 1. unfold gets at 1. cbv beta iota.
  assert (Htail : forall events,
             preserves tidy
               (addDelta text;;
                (let* block := gets getCurrentBlock in
                 let* e := _createTextDeltaEvent block text in
                 ret (push events e)))).
  { intros events. unfold _createTextDeltaEvent. preserves_tac. }
  (* the block is closed, if it is an open thinking block *)
  set (close := match getCurrentBlock a with
                | Some b =>
                    if String.eqb (Block.type b) "thinking"
                       && negb (Block.stopped b)
                    then _ else _
                | None => _
                end).
  assert (Hclose : forall s,
             s = state_of (close a) ->
             tidy s
             /\ (is_type "text" (getCurrentBlock s) = false -> all_closed s)).
  { intros s ->. unfold close.
    destruct (getCurrentBlock a) as [b|] eqn:Hb.
    - destruct (String.eqb (Block.type b) "thinking") eqn:Hth; cbn [andb].
      + destruct (negb (Block.stopped b)) eqn:Hopen.
        * assert (Hs : state_of
                         ((stopCurrentBlock;;
                           ret (push
                                  (push events0
                                     (_createSignatureDeltaEvent sha256_hex now b))
                                  (_createContentBlockStopEvent b))) a)
                       = state_of (stopCurrentBlock a)).
          { unfold bind. destruct (stopCurrentBlock a); reflexivity. }
          rewrite Hs. split; [apply stopCurrentBlock_tidy, Ha|].
          intros _. apply stopCurrentBlock_closes, Ha.
        * cbn [state_of ret]. split; [exact Ha|]. intros _.
          apply all_closed_intro; [exact Ha|]. intros b' Hb'.
          rewrite Hb in Hb'. injection Hb' as <-. unfold is_open.
          apply negb_false_iff in Hopen. rewrite Hopen. apply andb_false_r.
      + cbn [state_of ret]. split; [exact Ha|]. rewrite Hb. cbn [is_type].
        destruct Ha as (_ & _ & Htyped).
        pose proof (getCurrentBlock_lookup a b Hb) as Hlook.
        pose proof (proj1 (Forall_lookup _ _) Htyped _ _ Hlook) as [Hty|Hty];
          rewrite Hty in *; discriminate.
    - cbn [state_of ret]. split; [exact Ha|]. intros _.
      apply all_closed_intro; [exact Ha|]. intros b' Hb'. congruence. }
  apply bind_state.
  - intros e s' H. apply (Hclose s'). rewrite H. reflexivity.
  - intros events s' H.
    destruct (Hclose s') as [Hs' Hclosed]; [rewrite H; reflexivity|].
    unfold bind at 1. unfold gets at 1. cbv beta iota.
    apply bind_state.
    + intros e s'' H'.
      destruct (is_type "text" (getCurrentBlock s')) eqn:Hty;
        [discriminate H'|]. cbn [negb] in H'.
      assert (Hx := start_then_tidy "text" events s' (or_intror eq_refl) Hs'
                                    (Hclosed eq_refl)).
      rewrite H' in Hx. exact Hx.
    + intros events' s'' H'. apply Htail.
      destruct (is_type "text" (getCurrentBlock s')) eqn:Hty; cbn [negb] in H'.
      * injection H' as _ <-. exact Hs'.
      * assert (Hx := start_then_tidy "text" events s' (or_intror eq_refl) Hs'
                                      (Hclosed eq_refl)).
        rewrite H' in Hx. exact Hx.
Qed.

End Tidy.

Section OneOpenBlock.

Variable sha256_hex : string -> string.

Lemma finalizeDelta_tidy (now : Z) :
  preserves tidy (finalizeDelta sha256_hex now).
Proof.
  intros a. unfold finalizeDelta. destruct (finalized a); [auto|].
  revert a. apply preserves_bind; [|intros].
  - preserves_tac.
  - repeat first [ apply preserves_bind; [|intros] | apply preserves_gets
                 | apply preserves_ret
                 | apply preserves_modify; intros ? Hinv; exact Hinv ].
Qed.

Lemma transformDelta_tidy (now : Z) (ev : UpstreamEvent.t)
      (a : DeltaAccumulator.t) :
  tidy a ->
  (reasoning_of ev <> None -> other_block_open a = false) ->
  tidy (state_of (transformDelta sha256_hex now ev a)).
Proof.
  intros Ha Hc. unfold transformDelta, reasoning_of, first_delta in *.
  destruct (String.eqb _ "done"); [apply finalizeDelta_tidy, Ha|].
  destruct (UpstreamEvent.data ev) as [payload|]; [|exact Ha].
  destruct (head (Payload.choices payload)) as [choice|]; [|exact Ha].
  destruct (Choice.delta choice) as [delta|]; [|exact Ha].
  set (P0 := fun s => tidy s
                      /\ (truthy (Delta.reasoning_content delta) <> None ->
                          other_block_open s = false)).
  assert (HP0 : forall s, P0 s -> tidy s) by (intros s [Hs _]; exact Hs).
  revert a Ha Hc.
  assert (H : leads P0
                (let* events := message_start_part payload [] in
                 match truthy (Delta.role delta) with
                 | Some r => modify (set_role r)
                 | None => ret ()
                 end;;
                 (let* events0 := reasoning_part delta events in
                  let* events1 := text_part sha256_hex now delta events0 in
                  updateUsage (Payload.usage payload);;
                  match truthy (Choice.finish_reason choice) with
                  | Some r => modify (set_finishReason (Some r))
                  | None => ret ()
                  end;; ret events1)) tidy).
  { apply (leads_bind P0 P0 tidy); [|exact HP0|intros events].
    { intros a Ha. unfold message_start_part.
      destruct (messageStarted a); [exact Ha|].
      destruct (truthy (Payload.model payload)); exact Ha. }
    apply (leads_bind P0 P0 tidy); [|exact HP0|intros _].
    { destruct (truthy (Delta.role delta));
        [intros a Ha; exact Ha|intros a Ha; exact Ha]. }
    apply (leads_bind P0 tidy tidy);
      [apply reasoning_part_tidy|auto|intros events0].
    apply preserves_bind; [apply text_part_tidy|intros events1].
    preserves_tac. }
  intros a Ha Hc. apply H. split; assumption.
Qed.

(** X14. One open block, step by step: from an accumulator whose blocks
    are thinking and text blocks, the last one current and no other one
    open, [transformDelta] reaches such an accumulator again, by returning
    or by raising, unless the event brings reasoning text while the
    current block is open and is not a thinking block.  So at most one
    block is open then. *)
Theorem one_open_block_step (now : Z) (ev : UpstreamEvent.t)
        (a : DeltaAccumulator.t) :
  tidy a ->
  (reasoning_of ev <> None -> other_block_open a = false) ->
  tidy (state_of (transformDelta sha256_hex now ev a))
  /\ (open_count (state_of (transformDelta sha256_hex now ev a)) <= 1)%nat.
Proof.
  intros Ha Hc. pose proof (transformDelta_tidy now ev a Ha Hc) as H.
  split; [exact H|]. apply exclusive_open_count, H.
Qed.

End OneOpenBlock.

Lemma only_thinking_alter (f : Block.t -> Block.t) (i : nat)
      (a a' : DeltaAccumulator.t) :
  contentBlocks a' = alter f i (contentBlocks a) ->
  (forall b, Block.type (f b) = Block.type b) ->
  only_thinking a -> only_thinking a'.
Proof.
  intros Hb Hf Ha. unfold only_thinking. rewrite Hb.
  apply Forall_alter; [exact Ha|]. intros x _ Hx. rewrite Hf. exact Hx.
Qed.

Lemma startBlock_only_thinking :
  preserves only_thinking (startBlock "thinking").
Proof.
  intros a Ha. unfold startBlock. destruct (_ >=? _); [exact Ha|].
  cbn. unfold only_thinking, push. cbn. apply Forall_app.
  split; [exact Ha|]. constructor; [reflexivity|constructor].
Qed.

Lemma addDelta_only_thinking (delta : string) :
  preserves only_thinking (addDelta delta).
Proof.
  intros a Ha. unfold addDelta.
  destruct (getCurrentBlock a) as [b|]; [|exact Ha].
  destruct (String.eqb (Block.type b) "thinking");
    [|destruct (String.eqb (Block.type b) "text")];
    try destruct (_ >? _); try exact Ha;
    (eapply only_thinking_alter; [reflexivity|reflexivity|exact Ha]).
Qed.

Lemma stopCurrentBlock_only_thinking : preserves only_thinking stopCurrentBlock.
Proof.
  intros a Ha. unfold stopCurrentBlock.
  destruct (getCurrentBlock a) as [b|]; [|exact Ha].
  eapply only_thinking_alter; [reflexivity|reflexivity|exact Ha].
Qed.

Lemma updateUsage_only_thinking (usage : option Usage.t) :
  preserves only_thinking (updateUsage usage).
Proof. intros a Ha. unfold updateUsage. destruct usage; exact Ha. Qed.

#[local] Hint Resolve startBlock_only_thinking addDelta_only_thinking
  stopCurrentBlock_only_thinking updateUsage_only_thinking : preserves.

Section OneOpenBlockStream.

Variable sha256_hex : string -> string.

Lemma transformDelta_only_thinking (now : Z) (ev : UpstreamEvent.t) :
  text_of ev = None ->
  preserves only_thinking (transformDelta sha256_hex now ev).
Proof.
  intros Htext. unfold transformDelta, text_of, first_delta in *.
  destruct (String.eqb _ "done").
  { intros a. unfold finalizeDelta. destruct (finalized a); [auto|].
    revert a. apply preserves_bind; [|intros]; preserves_tac. }
  destruct (UpstreamEvent.data ev) as [payload|]; [|preserves_tac].
  destruct (head (Payload.choices payload)) as [choice|]; [|preserves_tac].
  destruct (Choice.delta choice) as [delta|]; [|preserves_tac].
  apply preserves_bind.
  { intros a Ha. unfold message_start_part.
    destruct (messageStarted a); [exact Ha|].
    destruct (truthy (Payload.model payload)); exact Ha. }
  intros events.
  unfold reasoning_part, text_part, _createThinkingDeltaEvent.
  rewrite Htext. preserves_tac.
Qed.

Lemma transformAll_app (input1 input2 : list (Z * UpstreamEvent.t))
      (a : DeltaAccumulator.t) :
  state_of (transformAll sha256_hex (input1 ++ input2) a)
  = match transformAll sha256_hex input1 a with
    | Ok _ s => state_of (transformAll sha256_hex input2 s)
    | Throw _ s => s
    end.
Proof.
  revert a. induction input1 as [|[now ev] rest IH]; intros a; [reflexivity|].
  cbn [app transformAll]. unfold bind, ret.
  destruct (transformDelta sha256_hex now ev a) as [out s|e s]; [|reflexivity].
  specialize (IH s).
  destruct (transformAll sha256_hex (rest ++ input2) s) as [o1 s1|e1 s1];
    destruct (transformAll sha256_hex rest s) as [o2 s2|e2 s2];
    cbn [state_of] in *; exact IH.
Qed.

(** X15. At most one block is open on every stream whose reasoning comes
    before its answer text: when the events that bring reasoning text all
    come before those that bring answer text, the loop, from a fresh
    accumulator (or from any tidy one with thinking blocks only), reaches
    only tidy accumulators, by returning or by raising: the current block
    is the last and no other block is open. *)
Theorem one_open_block (input1 input2 : list (Z * UpstreamEvent.t))
        (a : DeltaAccumulator.t) :
  tidy a -> only_thinking a ->
  Forall (fun timed => text_of (snd timed) = None) input1 ->
  Forall (fun timed => reasoning_of (snd timed) = None) input2 ->
  tidy (state_of (transformAll sha256_hex (input1 ++ input2) a))
  /\ (open_count (state_of (transformAll sha256_hex (input1 ++ input2) a))
      <= 1)%nat.
Proof.
  intros Ha Hthinking H1 H2.
  assert (Hphase2 : forall s, tidy s ->
                              tidy (state_of (transformAll sha256_hex input2 s))).
  { clear - H2. induction H2 as [|[now ev] rest Hev _ IH]; intros s Hs.
    - exact Hs.
    - cbn [transformAll]. apply bind_state.
      + intros e s' H.
        pose proof (transformDelta_tidy sha256_hex now ev s Hs) as Hstep.
        rewrite H in Hstep. apply Hstep. cbn in Hev. congruence.
      + intros out s' H.
        pose proof (transformDelta_tidy sha256_hex now ev s Hs) as Hstep.
        rewrite H in Hstep.
        assert (Hs' : tidy s') by (apply Hstep; cbn in Hev; congruence).
        apply bind_state.
        * intros e s'' H'. specialize (IH s' Hs'). rewrite H' in IH. exact IH.
        * intros outs s'' H'. specialize (IH s' Hs'). rewrite H' in IH.
          exact IH. }
  assert (Hphase1 : forall s, tidy s -> only_thinking s ->
             let s' := state_of (transformAll sha256_hex input1 s) in
             tidy s' /\ only_thinking s').
  { clear - H1. induction H1 as [|[now ev] rest Hev _ IH]; intros s Hs Ht.
    - split; assumption.
    - cbn in Hev.
      assert (Hstep : tidy (state_of (transformDelta sha256_hex now ev s))
                      /\ only_thinking
                           (state_of (transformDelta sha256_hex now ev s))).
      { split; [|apply transformDelta_only_thinking; assumption].
        apply transformDelta_tidy; [exact Hs|]. intros _.
        unfold other_block_open.
        destruct (getCurrentBlock s) as [b|] eqn:Hb; [|reflexivity].
        pose proof (getCurrentBlock_lookup s b Hb) as Hlook.
        rewrite (proj1 (Forall_lookup _ _) Ht _ _ Hlook). reflexivity. }
      cbn [transformAll]. cbv zeta. unfold bind, ret.
      destruct (transformDelta sha256_hex now ev s) as [out s1|e s1];
        [|exact Hstep].
      cbn [state_of] in Hstep. destruct Hstep as [Hs1 Ht1].
      specialize (IH s1 Hs1 Ht1). cbv zeta in IH.
      destruct (transformAll sha256_hex rest s1); exact IH. }
  assert (H : tidy (state_of (transformAll sha256_hex (input1 ++ input2) a))).
  { rewrite transformAll_app.
    destruct (Hphase1 a Ha Hthinking) as [Hs _].
    destruct (transformAll sha256_hex input1 a) as [out s|e s];
      [apply Hphase2, Hs|exact Hs]. }
  split; [exact H|apply exclusive_open_count, H].
Qed.

End OneOpenBlockStream.

(** ** Finalize *)

Lemma all_closed_open_count (a : DeltaAccumulator.t) :
  all_closed a -> open_count a = 0%nat.
Proof.
  unfold all_closed, open_count. induction 1 as [|x l Hx _ IH]; [reflexivity|].
  rewrite filter_cons. destruct (decide (is_open x = true)); [congruence|].
  exact IH.
Qed.

Section Finalize.

Variable sha256_hex : string -> string.

(** X16. Finalize closes what is open: on a tidy accumulator that is not
    finalized, [finalizeDelta] returns the closing of the current block,
    if it is open (its [content_block_stop], after its signature if it is
    a thinking block), then one [message_delta] and one [message_stop],
    and leaves no block open. *)
Theorem finalizeDelta_closes (now : Z) (a : DeltaAccumulator.t) :
  tidy a ->
  finalized a = false ->
  exists closing a',
    finalizeDelta sha256_hex now a
    = Ok (closing
            ++ [message_delta
                  (_mapStopReason (default "stop" (truthy (finishReason a))))
                  (outputTokens a);
                message_stop])%list a'
    /\ closing
       = match getCurrentBlock a with
         | Some b =>
             if Block.stopped b then []
             else if String.eqb (Block.type b) "thinking"
                  then [signature_delta
                          (Block.index b)
                          (String.substring 0 16
                                            (sha256_hex (Block.content b)))
                          (strlen (Block.content b)) now;
                        content_block_stop (Block.index b)]
                  else [content_block_stop (Block.index b)]
         | None => []
         end
    /\ finalized a' = true
    /\ open_count a' = 0%nat.
Proof.
  intros Ha Hf.
  pose proof (stopCurrentBlock_closes a Ha) as Hclosed.
  unfold finalizeDelta. rewrite Hf.
  unfold bind, gets, modify, ret.
  destruct (getCurrentBlock a) as [b|] eqn:Hb.
  - destruct (Block.stopped b) eqn:Hstopped; cbn [negb].
    + exists [], (set_finalized true a).
      split; [reflexivity|]. split; [reflexivity|].
      split; [reflexivity|]. apply all_closed_open_count.
      apply (all_closed_intro a Ha). intros b' Hb'.
      rewrite Hb in Hb'. injection Hb' as <-. unfold is_open.
      rewrite Hstopped. apply andb_false_r.
    + unfold stopCurrentBlock in *. rewrite Hb in *. cbn [state_of] in Hclosed.
      destruct (String.eqb (Block.type b) "thinking").
      * eexists [_; _], _. split; [reflexivity|].
        split; [reflexivity|]. split; [reflexivity|].
        apply all_closed_open_count. exact Hclosed.
      * eexists [_], _. split; [reflexivity|].
        split; [reflexivity|]. split; [reflexivity|].
        apply all_closed_open_count. exact Hclosed.
  - exists [], (set_finalized true a).
    split; [reflexivity|]. split; [reflexivity|].
    split; [reflexivity|]. apply all_closed_open_count.
    apply (all_closed_intro a Ha). intros b' Hb'. congruence.
Qed.

End Finalize.

(** ** Tool calls *)

Import Tools.

Lemma default_truthy (o : option string) :
  default "" (truthy o) = default "" o.
Proof. destruct o as [[|c s]|]; reflexivity. Qed.

Lemma assembled_cons (d : ToolCallDelta.t) (c : ToolCall.t)
      (fs : list ToolCallDelta.t) :
  assembled (apply_fragment d c) fs = assembled c (d :: fs).
Proof.
  unfold assembled, apply_fragment. cbn [ToolCall.index ToolCall.id
    ToolCall.type ToolCall.name ToolCall.arguments fmap list_fmap
    last_present join_present foldl foldr].
  rewrite !default_truthy, !append_assoc. reflexivity.
Qed.

Lemma assembled_nil (c : ToolCall.t) : assembled c [] = c.
Proof.
  destruct c. unfold assembled. cbn. rewrite !append_empty_r. reflexivity.
Qed.

(** X17. Fragments are put together per call index: after
    [addToolCallDelta] on each fragment of a list, the call at an index
    that some fragment names is the call that was there, or a new one,
    with the name pieces and the argument pieces of its fragments joined
    in the order of arrival, and the last identifier and type given; the
    call at an index that no fragment names is as it was. *)
Theorem tool_call_assembled (fragments : list ToolCallDelta.t) (i : Z)
        (a : DeltaAccumulator.t) :
  exists a',
    addToolCallDeltas fragments a = Ok tt a'
    /\ toolCallsIndex a' !! i
       = match fragments_of i fragments with
         | [] => toolCallsIndex a !! i
         | fs => Some (assembled (entry a i) fs)
         end.
Proof.
  revert a. induction fragments as [|d rest IH]; intros a.
  - exists a. split; reflexivity.
  - destruct (addToolCallDelta_entry d a) as (a1 & Hrun & Hat & Hother & _).
    destruct (IH a1) as (a' & Hrest & Hlookup).
    exists a'. split.
    { cbn [addToolCallDeltas]. unfold bind. rewrite Hrun. exact Hrest. }
    rewrite Hlookup. unfold fragments_of. rewrite filter_cons.
    destruct (decide (ToolCallDelta.index d = i)) as [<-|Hne].
    + assert (Hentry : entry a1 (ToolCallDelta.index d)
                       = apply_fragment d (entry a (ToolCallDelta.index d))).
      { unfold entry at 1. rewrite Hat. reflexivity. }
      rewrite Hentry, Hat.
      destruct (filter _ rest) as [|f fs] eqn:Hfs.
      * rewrite <- assembled_cons, assembled_nil. reflexivity.
      * rewrite assembled_cons. reflexivity.
    + assert (Hentry : entry a1 i = entry a i).
      { unfold entry. rewrite (Hother i) by congruence. reflexivity. }
      rewrite Hentry, (Hother i) by congruence. reflexivity.
Qed.

Lemma addToolCallDelta_index (d : ToolCallDelta.t) (c : ToolCall.t) :
  ToolCall.index (apply_fragment d c) = ToolCall.index c.
Proof. reflexivity. Qed.

Lemma addToolCallDelta_consistent (d : ToolCallDelta.t)
      (a : DeltaAccumulator.t) :
  tools_consistent a ->
  exists a',
    addToolCallDelta d a = Ok tt a'
    /\ tools_consistent a'
    /\ toolCalls a `prefix_of` toolCalls a'
    /\ forall k, k ∈ toolCalls a'
                 <-> k ∈ toolCalls a \/ k = ToolCallDelta.index d.
Proof.
  intros (Hnodup & Hlisted & Hindex).
  destruct (addToolCallDelta_entry d a) as (a' & Hrun & Hat & Hother & Hcalls).
  exists a'. split; [exact Hrun|].
  assert (Hmem : forall k, k ∈ toolCalls a'
                           <-> k ∈ toolCalls a \/ k = ToolCallDelta.index d).
  { intros k. rewrite Hcalls.
    destruct (toolCallsIndex a !! ToolCallDelta.index d) as [c|] eqn:Hc.
    - split; [auto|]. intros [H| ->]; [exact H|].
      apply Hlisted. rewrite Hc. eauto.
    - unfold push. rewrite elem_of_app, list_elem_of_singleton. reflexivity. }
  split; [|split; [|exact Hmem]].
  - split; [|split].
    + rewrite Hcalls.
      destruct (toolCallsIndex a !! ToolCallDelta.index d) as [c|] eqn:Hc;
        [exact Hnodup|].
      unfold push. apply NoDup_app. split; [exact Hnodup|].
      split; [|apply NoDup_singleton].
      intros k Hk Hk'. apply list_elem_of_singleton in Hk'. subst k.
      apply Hlisted in Hk. rewrite Hc in Hk. destruct Hk as [? Hk].
      discriminate Hk.
    + intros k. rewrite Hmem.
      destruct (decide (k = ToolCallDelta.index d)) as [->|Hne].
      * rewrite Hat. split; [eauto|]. intros _. right. reflexivity.
      * rewrite (Hother k Hne), Hlisted. split; [|auto].
        intros [H|H]; [exact H|contradiction].
    + intros k c Hk.
      destruct (decide (k = ToolCallDelta.index d)) as [->|Hne].
      * rewrite Hat in Hk. injection Hk as <-.
        rewrite addToolCallDelta_index. unfold entry.
        destruct (toolCallsIndex a !! ToolCallDelta.index d) as [c|] eqn:Hc;
          [|reflexivity].
        cbn [default]. apply Hindex. exact Hc.
      * rewrite (Hother k Hne) in Hk. apply Hindex. exact Hk.
  - rewrite Hcalls.
    destruct (toolCallsIndex a !! ToolCallDelta.index d); [reflexivity|].
    unfold push. apply prefix_app_r. reflexivity.
Qed.

Lemma getToolCalls_indices (a : DeltaAccumulator.t) :
  tools_consistent a ->
  ToolCall.index <$> getToolCalls a = toolCalls a.
Proof.
  intros (_ & Hlisted & Hindex). unfold getToolCalls.
  assert (H : Forall (fun k => is_Some (toolCallsIndex a !! k)) (toolCalls a)).
  { apply Forall_forall. intros k. apply Hlisted. }
  clear Hlisted. induction H as [|k l [c Hc] _ IH]; [reflexivity|].
  cbn [omap list_omap]. rewrite Hc. cbn [fmap list_fmap].
  rewrite (Hindex k c Hc). f_equal. exact IH.
Qed.

(** X18. The calls are listed once each, in the order in which their
    indices first came: from an accumulator whose array and table of tool
    calls agree, [addToolCallDelta] on each fragment of a list returns and
    they agree again; the array has grown at its end only, by the indices
    of the fragments that it did not hold; and [getToolCalls] gives, place
    by place, the calls of those indices. *)
Theorem tool_calls_listed_once (fragments : list ToolCallDelta.t)
        (a : DeltaAccumulator.t) :
  tools_consistent a ->
  exists a',
    addToolCallDeltas fragments a = Ok tt a'
    /\ tools_consistent a'
    /\ toolCalls a `prefix_of` toolCalls a'
    /\ (forall k, k ∈ toolCalls a'
                  <-> k ∈ toolCalls a
                      \/ k ∈ (ToolCallDelta.index <$> fragments))
    /\ ToolCall.index <$> getToolCalls a' = toolCalls a'.
Proof.
  revert a. induction fragments as [|d rest IH]; intros a Ha.
  - exists a. split; [reflexivity|]. split; [exact Ha|].
    split; [reflexivity|]. split; [|apply getToolCalls_indices, Ha].
    intros k. cbn. rewrite elem_of_nil. tauto.
  - destruct (addToolCallDelta_consistent d a Ha)
      as (a1 & Hrun & Ha1 & Hprefix & Hmem).
    destruct (IH a1 Ha1) as (a' & Hrest & Ha' & Hprefix' & Hmem' & Hget).
    exists a'. split.
    { cbn [addToolCallDeltas]. unfold bind. rewrite Hrun. exact Hrest. }
    split; [exact Ha'|]. split; [etrans; eassumption|].
    split; [|exact Hget].
    intros k. rewrite Hmem', Hmem. cbn [fmap list_fmap].
    rewrite elem_of_cons. tauto.
Qed.

(** ** Loop detection *)

Import LoopDetection.

Lemma slice_from_last {A} (n : Z) (older recent : list A) :
  0 < n ->
  Z.of_nat (length recent) = n ->
  slice_from (- n) (older ++ recent) = recent.
Proof.
  intros Hn Hlen. unfold slice_from. rewrite length_app.
  destruct (- n <? 0) eqn:Hneg; [|lia].
  replace (Z.to_nat (Z.max (Z.of_nat (length older + length recent) + - n) 0))
    with (length older) by lia.
  apply drop_app_length.
Qed.

Lemma slice_from_split {A} (n : Z) (l : list A) :
  0 < n ->
  n <= Z.of_nat (length l) ->
  exists older,
    l = (older ++ slice_from (- n) l)%list
    /\ Z.of_nat (length (slice_from (- n) l)) = n.
Proof.
  intros Hn Hlen. unfold slice_from.
  destruct (- n <? 0) eqn:Hneg; [|lia].
  exists (take (Z.to_nat (Z.max (Z.of_nat (length l) + - n) 0)) l).
  split; [symmetry; apply take_drop|].
  rewrite length_drop. lia.
Qed.

Lemma allThinking_Forall (l : list Block.t) :
  forallb (fun b => String.eqb (Block.type b) "thinking") l = true
  <-> Forall (fun b => Block.type b = "thinking") l.
Proof.
  rewrite forallb_forall, Forall_forall. split; intros H b Hb.
  - apply String.eqb_eq, H, list_elem_of_In, Hb.
  - apply String.eqb_eq, H, list_elem_of_In, Hb.
Qed.

Lemma noToolCalls_nil {A} (l : list A) :
  (Z.of_nat (length l) =? 0) = true <-> l = [].
Proof.
  destruct l; cbn [length]; split; intros H; try reflexivity;
    try discriminate; lia.
Qed.

(** X19. What [checkForLoop] detects: with a positive threshold and no
    loop recorded yet, it reports a loop exactly when no tool call has
    been recorded and the last blocks, as many as the threshold, exist and
    are all thinking blocks; it records what it reports and leaves the
    accumulator as it is. *)
Theorem checkForLoop_detects (a : DeltaAccumulator.t) (d : LoopDetection.t) :
  0 < loopDetectionThreshold d ->
  loopDetected d = false ->
  exists b,
    checkForLoop (a, d) = Ok b (a, set_loopDetected b d)
    /\ (b = true
        <-> toolCalls a = []
            /\ exists older recent,
                contentBlocks a = (older ++ recent)%list
                /\ Z.of_nat (length recent) = loopDetectionThreshold d
                /\ Forall (fun block => Block.type block = "thinking")
                          recent).
Proof.
  intros Hpos Hd. destruct d as [n detected]. cbn in Hpos, Hd. subst detected.
  unfold checkForLoop, set_loopDetected.
  cbn [loopDetected loopDetectionThreshold].
  destruct (Z.of_nat (length (contentBlocks a)) <? n) eqn:Hshort.
  - exists false. split; [reflexivity|]. split; [discriminate|].
    intros (_ & older & recent & Hblocks & Hlen & _). cbn in Hlen.
    rewrite Hblocks, length_app in Hshort. apply Z.ltb_lt in Hshort. lia.
  - apply Z.ltb_ge in Hshort.
    destruct (slice_from_split n (contentBlocks a) Hpos Hshort)
      as (older & Hsplit & Hlen).
    destruct (forallb _ (slice_from (- n) (contentBlocks a))) eqn:Hall;
      [destruct (Z.of_nat (length (toolCalls a)) =? 0) eqn:Hnone|];
      cbn [andb].
    + exists true. split; [reflexivity|]. split; [|reflexivity]. intros _.
      split; [apply noToolCalls_nil, Hnone|].
      exists older, (slice_from (- n) (contentBlocks a)).
      split; [exact Hsplit|]. split; [exact Hlen|].
      apply allThinking_Forall, Hall.
    + exists false. split; [reflexivity|]. split; [discriminate|].
      intros (Hnil & _). apply noToolCalls_nil in Hnil. congruence.
    + exists false. split; [reflexivity|]. split; [discriminate|].
      intros (_ & older' & recent & Hblocks & Hlen' & Hthinking).
      cbn in Hlen'. rewrite Hblocks, (slice_from_last n older' recent Hpos Hlen') in Hall.
      apply allThinking_Forall in Hthinking. congruence.
Qed.

(** X20. A detected loop stays detected: once [checkForLoop] has reported
    a loop, it reports one on every later call, whatever blocks and tool
    calls the accumulator has by then, and changes nothing; after
    [resetLoopDetection] it looks at the accumulator again, and reports no
    loop when a tool call has been recorded. *)
Theorem loop_detection_latches (a a' later : DeltaAccumulator.t)
        (d d' : LoopDetection.t) :
  checkForLoop (a, d) = Ok true (a', d') ->
  checkForLoop (later, d') = Ok true (later, d')
  /\ exists d0,
      resetLoopDetection (later, d') = Ok tt (later, d0)
      /\ loopDetectionThreshold d0 = loopDetectionThreshold d
      /\ (toolCalls later <> [] ->
          checkForLoop (later, d0) = Ok false (later, d0)).
Proof.
  intros Hrun.
  assert (Hd' : loopDetected d' = true
                /\ loopDetectionThreshold d' = loopDetectionThreshold d).
  { unfold checkForLoop in Hrun.
    destruct (loopDetected d) eqn:Hd.
    - injection Hrun as _ <-. split; [exact Hd|reflexivity].
    - destruct (Z.of_nat (length (contentBlocks a)) <? loopDetectionThreshold d);
        [discriminate|].
      destruct (forallb _ _ && _); [|discriminate].
      injection Hrun as _ <-. split; reflexivity. }
  destruct Hd' as (Hdetected & Hthreshold). split.
  - unfold checkForLoop. rewrite Hdetected. reflexivity.
  - exists (set_loopDetected false d'). split; [reflexivity|].
    split; [exact Hthreshold|]. intros Htools.
    unfold checkForLoop. cbn [set_loopDetected loopDetected].
    destruct (_ <? _); [reflexivity|].
    destruct (Z.of_nat (length (toolCalls later)) =? 0) eqn:Hnone.
    + apply noToolCalls_nil in Hnone. contradiction.
    + rewrite andb_false_r. reflexivity.
Qed.

(** X21. A negative threshold reports a loop at once: with a threshold
    below zero, no loop recorded and no tool call recorded,
    [checkForLoop] reports a loop on every accumulator that has no more
    blocks than the threshold is below zero, the one with no block at all
    among them. *)
Theorem negative_threshold_reports_loop (a : DeltaAccumulator.t)
        (d : LoopDetection.t) :
  loopDetectionThreshold d < 0 ->
  loopDetected d = false ->
  toolCalls a = [] ->
  Z.of_nat (length (contentBlocks a)) <= - loopDetectionThreshold d ->
  checkForLoop (a, d) = Ok true (a, set_loopDetected true d).
Proof.
  intros Hneg Hd Htools Hlen. unfold checkForLoop. rewrite Hd, Htools.
  destruct (_ <? _) eqn:Hshort; [apply Z.ltb_lt in Hshort; lia|].
  unfold slice_from.
  destruct (- loopDetectionThreshold d <? 0) eqn:H;
    [apply Z.ltb_lt in H; lia|].
  rewrite drop_ge by lia. reflexivity.
Qed.

(** ** The buffered request transformation *)

Import Requests.

Lemma prop_Ok (k : string) (v : JSON) (o : option JSON) :
  prop k v tt = Ok o tt -> is_null v = false /\ o = get k v.
Proof.
  destruct v; cbn; intros H; try discriminate H;
    injection H as <-; split; reflexivity.
Qed.

Lemma prop_get (k : string) (v : JSON) :
  is_null v = false -> prop k v tt = Ok (get k v) tt.
Proof. destruct v; cbn; intros H; try discriminate H; reflexivity. Qed.

Lemma prop_null (k : string) (v : JSON) :
  is_null v = true -> exists e, prop k v tt = Throw e tt.
Proof. destruct v; cbn; intros H; try discriminate H. eauto. Qed.

Lemma is_string_eq (v : option JSON) (s : string) :
  is_string v s = true <-> v = Some (JString s).
Proof.
  destruct v as [[]|]; cbn; split; intros H; try discriminate H.
  - apply String.eqb_eq in H. subst. reflexivity.
  - injection H as ->. apply String.eqb_refl.
Qed.

Lemma filter_text_Ok (blocks l : list JSON) :
  filter_text blocks tt = Ok l tt ->
  l `sublist_of` blocks
  /\ Forall is_text_block l
  /\ forall b, b ∈ blocks -> is_text_block b -> b ∈ l.
Proof.
  revert l. induction blocks as [|b bs IH]; intros l H.
  - cbn in H. injection H as <-. split; [constructor|].
    split; [constructor|]. intros b Hb. inversion Hb.
  - cbn [filter_text] in H. unfold bind in H.
    destruct (prop "type" b tt) as [ty []|] eqn:Hty; [|discriminate H].
    destruct (filter_text bs tt) as [rest []|] eqn:Hrest; [|discriminate H].
    apply prop_Ok in Hty. destruct Hty as (_ & ->).
    destruct (IH rest eq_refl) as (Hsub & Htext & Hall).
    unfold ret in H. injection H as <-.
    destruct (is_string (get "type" b) "text") eqn:Hb.
    + apply is_string_eq in Hb. split; [constructor; exact Hsub|].
      split; [constructor; assumption|].
      intros b' Hb' Hb''. apply elem_of_cons in Hb'.
      destruct Hb' as [->|Hb']; [left|right; apply Hall; assumption].
    + split; [constructor; exact Hsub|]. split; [exact Htext|].
      intros b' Hb' Hb''. apply elem_of_cons in Hb'.
      destruct Hb' as [->|Hb']; [|apply Hall; assumption].
      apply is_string_eq in Hb''. congruence.
Qed.

Lemma mapM_Ok {A B} (f : A -> Pure B) (l : list A) (out : list B) :
  mapM f l tt = Ok out tt -> Forall2 (fun x y => f x tt = Ok y tt) l out.
Proof.
  revert out. induction l as [|x l IH]; intros out H.
  - cbn in H. injection H as <-. constructor.
  - cbn [mapM] in H. unfold bind in H.
    destruct (f x tt) as [y []|] eqn:Hy; [|discriminate H].
    destruct (mapM f l tt) as [ys []|] eqn:Hys; [|discriminate H].
    unfold ret in H. injection H as <-. constructor; [exact Hy|].
    apply IH. reflexivity.
Qed.





(** *** Directives *)

Lemma foldM_app {A B} (f : A -> B -> Pure A) (l1 l2 : list B) (a : A) :
  foldM f (l1 ++ l2) a tt
  = match foldM f l1 a tt with
    | Ok a' _ => foldM f l2 a' tt
    | Throw e s => Throw e s
    end.
Proof.
  revert a. induction l1 as [|x l1 IH]; intros a; [reflexivity|].
  cbn [foldM app]. unfold bind. destruct (f a x tt) as [a' []|e s].
  - apply IH.
  - reflexivity.
Qed.

Lemma extract_step_message (config : ThinkingConfig) (role content : string) :
  extract_step config (message role content) tt
  = Ok (if String.eqb role "user"
        then
          let config1 :=
            match match_thinking content with
            | Some m => mkThinkingConfig (String.eqb m "on") (effort config)
            | None => config
            end in
          match match_effort content with
          | Some m => mkThinkingConfig (thinking config1) (Some m)
          | None => config1
          end
        else config) tt.
Proof.
  unfold extract_step, message, bind, prop, ret. cbn [find fst snd fmap option_fmap option_map String.eqb Ascii.eqb Bool.eqb andb is_string negb].
  destruct (String.eqb role "user"); reflexivity.
Qed.

(** The messages of [rest], from the configuration [config]. *)
Lemma extract_without_thinking (rest : list (string * string))
      (config : ThinkingConfig) :
  Forall (fun rc => fst rc = "user" -> match_thinking (snd rc) = None) rest ->
  exists config',
    foldM extract_step ((fun rc => message (fst rc) (snd rc)) <$> rest)
          config tt
    = Ok config' tt
    /\ thinking config' = thinking config.
Proof.
  intros Hrest. revert config.
  induction Hrest as [|[role content] rest Hrc _ IH]; intros config.
  - exists config. split; reflexivity.
  - cbn [fmap list_fmap foldM fst snd]. unfold bind.
    rewrite extract_step_message.
    match goal with |- context [foldM _ _ ?c tt] =>
      destruct (IH c) as (config' & Hrun & Hthinking) end.
    exists config'. split; [exact Hrun|]. rewrite Hthinking.
    cbn [fst snd] in Hrc.
    destruct (String.eqb role "user") eqn:Hrole; [|reflexivity].
    apply String.eqb_eq in Hrole. rewrite (Hrc Hrole).
    destruct (match_effort content); reflexivity.
Qed.

Section Directives.

Variable defaultThinking : bool.

(** X23. The last directive wins, and only user messages carry one: when
    a user message has a thinking directive and no later user message has
    one, the configuration has thinking on or off as that directive says,
    whatever the messages before it say and whatever directives the later
    messages of other roles hold. *)
Theorem last_directive_wins (msgs : list JSON) (content m : string)
        (rest : list (string * string)) (config0 : ThinkingConfig) :
  _extractThinkingControl defaultThinking (JArray msgs) tt = Ok config0 tt ->
  match_thinking content = Some m ->
  Forall (fun rc => fst rc = "user" -> match_thinking (snd rc) = None) rest ->
  exists config,
    _extractThinkingControl
      defaultThinking
      (JArray (msgs ++ message "user" content
                    :: ((fun rc => message (fst rc) (snd rc)) <$> rest))) tt
    = Ok config tt
    /\ thinking config = String.eqb m "on".
Proof.
  unfold _extractThinkingControl, bind, iterate, ret. intros Hmsgs Hm Hrest.
  rewrite foldM_app, Hmsgs. cbn [foldM]. unfold bind.
  rewrite extract_step_message, Hm. cbn [String.eqb Ascii.eqb Bool.eqb andb].
  match goal with |- context [foldM _ _ ?c tt] =>
    destruct (extract_without_thinking rest c Hrest)
      as (config & Hrun & Hthinking) end.
  exists config. split; [exact Hrun|]. rewrite Hthinking.
  destruct (match_effort content); reflexivity.
Qed.

(** X24. Without a directive the defaults stand: when no user message has
    a thinking or an effort directive, the configuration is the default
    thinking setting of the transformer and medium effort, whatever the
    messages of other roles hold. *)
Theorem no_directive_defaults (msgs : list (string * string)) :
  Forall (fun rc => fst rc = "user" ->
                    match_thinking (snd rc) = None
                    /\ match_effort (snd rc) = None) msgs ->
  _extractThinkingControl
    defaultThinking (JArray ((fun rc => message (fst rc) (snd rc)) <$> msgs))
    tt
  = Ok (mkThinkingConfig defaultThinking (Some "medium")) tt.
Proof.
  unfold _extractThinkingControl, bind, iterate, ret.
  generalize (mkThinkingConfig defaultThinking (Some "medium")).
  induction 1 as [|[role content] rest Hrc _ IH]; [reflexivity|].
  cbn [fmap list_fmap foldM fst snd]. unfold bind.
  rewrite extract_step_message. cbn [fst snd] in Hrc.
  destruct (String.eqb role "user") eqn:Hrole; [|exact IH].
  apply String.eqb_eq in Hrole. destruct (Hrc Hrole) as (-> & ->). exact IH.
Qed.

End Directives.

(** *** Directive tags *)

Lemma toLowerCase_app (s1 s2 : string) :
  toLowerCase (s1 +:+ s2) = toLowerCase s1 +:+ toLowerCase s2.
Proof.
  induction s1 as [|c s1 IH]; [reflexivity|].
  rewrite append_cons. cbn [toLowerCase]. rewrite IH, append_cons. reflexivity.
Qed.

Lemma to_lower_lt (c : ascii) : to_lower c = "<"%char -> c = "<"%char.
Proof.
  destruct c as [[] [] [] [] [] [] [] []]; vm_compute; intros H;
    first [reflexivity | discriminate H].
Qed.

Lemma find_tag_none (tags : list (string * string)) (c : ascii) (s : string) :
  Forall (fun t => exists t', fst t = String "<" t') tags ->
  c <> "<"%char ->
  find (fun t => String.prefix (fst t) (String c s)) tags = None.
Proof.
  intros Htags Hc. induction Htags as [|[tag v] tags (t' & Htag) _ IH];
    [reflexivity|].
  cbn [find fst] in *. subst tag. cbn [String.prefix].
  destruct (ascii_dec "<" c) as [Heq|_]; [congruence|]. exact IH.
Qed.

Lemma first_match_skip (tags : list (string * string)) (pre s : string) :
  Forall (fun t => exists t', fst t = String "<" t') tags ->
  has_char "<" pre = false ->
  first_match tags (toLowerCase pre +:+ s) = first_match tags s.
Proof.
  intros Htags. induction pre as [|c pre IH]; intros Hpre; [reflexivity|].
  cbn [has_char] in Hpre. apply orb_false_elim in Hpre.
  destruct Hpre as (Hc & Hpre). cbn [toLowerCase]. rewrite append_cons.
  cbn [first_match]. rewrite find_tag_none.
  - apply IH, Hpre.
  - exact Htags.
  - intros H. apply to_lower_lt in H. subst c. discriminate Hc.
Qed.

Lemma first_match_here (tags : list (string * string)) (t : string * string)
      (s : string) :
  find (fun t => String.prefix (fst t) s) tags = Some t ->
  first_match tags s = Some (snd t).
Proof. intros H. destruct s; cbn [first_match]; rewrite H; reflexivity. Qed.

Lemma prefix_append (p s : string) : String.prefix p (p +:+ s) = true.
Proof. apply startsWith_append. Qed.

(** X25. A directive is found wherever it stands and in whatever letter
    case: a content that has a thinking tag, written in any mix of upper
    and lower case, after a text with no [<] in it, gives the word of the
    tag in lower case; and so for an effort tag. *)
Theorem directive_tag_recognized (pre tag post m : string) :
  has_char "<" pre = false ->
  (m ∈ ["on"; "off"] ->
   toLowerCase tag = "<thinking:" +:+ m +:+ ">" ->
   match_thinking (pre +:+ tag +:+ post) = Some m)
  /\ (m ∈ ["low"; "medium"; "high"] ->
      toLowerCase tag = "<effort:" +:+ m +:+ ">" ->
      match_effort (pre +:+ tag +:+ post) = Some m).
Proof.
  intros Hpre. split; intros Hm Htag.
  - unfold match_thinking. rewrite !toLowerCase_app, Htag, first_match_skip;
      [|repeat constructor; eexists; reflexivity|exact Hpre].
    repeat (apply elem_of_cons in Hm; destruct Hm as [->|Hm]);
      [| |inversion Hm].
    + apply (first_match_here _ ("<thinking:on>", "on")).
      cbn [find fst]. rewrite (prefix_append "<thinking:on>"). reflexivity.
    + apply (first_match_here _ ("<thinking:off>", "off")).
      cbn [find fst].
      change (String.prefix "<thinking:on>"
                            ("<thinking:" +:+ "off" +:+ ">"
                                          +:+ toLowerCase post))
        with false.
      rewrite (prefix_append "<thinking:off>"). reflexivity.
  - unfold match_effort. rewrite !toLowerCase_app, Htag, first_match_skip;
      [|repeat constructor; eexists; reflexivity|exact Hpre].
    repeat (apply elem_of_cons in Hm; destruct Hm as [->|Hm]);
      [| | |inversion Hm].
    + apply (first_match_here _ ("<effort:low>", "low")).
      cbn [find fst]. rewrite (prefix_append "<effort:low>"). reflexivity.
    + apply (first_match_here _ ("<effort:medium>", "medium")).
      cbn [find fst].
      change (String.prefix "<effort:low>"
                            ("<effort:" +:+ "medium" +:+ ">"
                                        +:+ toLowerCase post))
        with false.
      rewrite (prefix_append "<effort:medium>"). reflexivity.
    + apply (first_match_here _ ("<effort:high>", "high")).
      cbn [find fst].
      change (String.prefix "<effort:low>"
                            ("<effort:" +:+ "high" +:+ ">"
                                        +:+ toLowerCase post))
        with false.
      change (String.prefix "<effort:medium>"
                            ("<effort:" +:+ "high" +:+ ">"
                                        +:+ toLowerCase post))
        with false.
      rewrite (prefix_append "<effort:high>"). reflexivity.
Qed.

(** *** The transformed request *)

Section TransformedRequest.

Variable defaultThinking : bool.

(** X26. What the transformed request holds: when the request is
    transformed, the result records no error; its model is GLM-4.6 and
    its token budget 128000 whatever model the request names; sampling is
    on; [stream] is the one of the request, or false; [temperature] and
    [top_p] are those of the request, or absent; and the reasoning switch
    and effort are there exactly when the configuration extracted from the
    messages has thinking on. *)
Theorem transformed_request (anthropicRequest : JSON)
        (result : RequestResult) :
  transformRequest_body defaultThinking anthropicRequest tt = Ok result tt ->
  let out := openaiRequest result in
  let config := thinkingConfig result in
  error result = None
  /\ _extractThinkingControl
       defaultThinking (or_empty_array (get "messages" anthropicRequest)) tt
     = Ok config tt
  /\ get "model" out = Some (JString "GLM-4.6")
  /\ get "max_tokens" out = Some (JNumber (inject_Z 128000))
  /\ get "do_sample" out = Some (JBool true)
  /\ get "stream" out
     = Some (default (JBool false) (get "stream" anthropicRequest))
  /\ get "temperature" out = get "temperature" anthropicRequest
  /\ get "top_p" out = get "top_p" anthropicRequest
  /\ get "reasoning" out
     = (if thinking config then Some (JBool true) else None)
  /\ get "reasoning_effort" out
     = (if thinking config then JString <$> effort config else None).
Proof.
  unfold transformRequest_body. intros H.
  unfold bind in H.
  destruct (prop "messages" anthropicRequest tt) as [messages []|] eqn:Hmessages;
    [|discriminate H].
  apply prop_Ok in Hmessages. destruct Hmessages as (Hnull & ->).
  destruct (_extractThinkingControl _ _ tt) as [config []|] eqn:Hconfig;
    [|discriminate H].
  repeat (rewrite (prop_get _ anthropicRequest Hnull) in H;
          cbv beta iota in H).
  destruct (_sanitizeMessages _ tt) as [sanitized []|]; [|discriminate H].
  repeat (rewrite (prop_get _ anthropicRequest Hnull) in H;
          cbv beta iota in H).
  unfold ret in H. injection H as <-.
  cbn [openaiRequest thinkingConfig error]. cbv zeta.
  split; [reflexivity|]. split; [reflexivity|].
  unfold _injectReasoningParams.
  destruct (get "stream" anthropicRequest) as [stream|];
    destruct (get "temperature" anthropicRequest) as [temperature|];
    destruct (get "top_p" anthropicRequest) as [top_p|];
    destruct (thinking config); destruct (effort config) as [e|];
    repeat split; reflexivity.
Qed.

End TransformedRequest.

(** *** The requests that are transformed *)

Lemma extract_step_Ok (config config' : ThinkingConfig) (msg : JSON) :
  extract_step config msg tt = Ok config' tt -> is_null msg = false.
Proof.
  unfold extract_step, bind. intros H.
  destruct (prop "role" msg tt) as [role []|] eqn:Hrole; [|discriminate H].
  apply prop_Ok in Hrole. apply Hrole.
Qed.

Lemma extract_step_returns (config : ThinkingConfig) (msg : JSON) :
  is_null msg = false ->
  exists config', extract_step config msg tt = Ok config' tt.
Proof.
  intros Hmsg. unfold extract_step, bind. rewrite !(prop_get _ msg Hmsg).
  destruct (negb _); [eexists; reflexivity|].
  rewrite !(prop_get _ msg Hmsg).
  destruct (get "content" msg) as [[]|]; eexists; reflexivity.
Qed.

Lemma extract_Ok (msgs : list JSON) (config config' : ThinkingConfig) :
  foldM extract_step msgs config tt = Ok config' tt ->
  forallb (fun m => negb (is_null m)) msgs = true.
Proof.
  revert config. induction msgs as [|msg msgs IH]; intros config H;
    [reflexivity|].
  cbn [foldM] in H. unfold bind in H.
  destruct (extract_step config msg tt) as [c []|] eqn:Hstep; [|discriminate H].
  cbn [forallb]. rewrite (extract_step_Ok _ _ _ Hstep). exact (IH _ H).
Qed.

Lemma extract_returns (msgs : list JSON) (config : ThinkingConfig) :
  forallb (fun m => negb (is_null m)) msgs = true ->
  exists config', foldM extract_step msgs config tt = Ok config' tt.
Proof.
  revert config. induction msgs as [|msg msgs IH]; intros config H.
  - eexists. reflexivity.
  - cbn [forallb] in H. apply andb_prop in H. destruct H as (Hmsg & Hmsgs).
    apply negb_true_iff in Hmsg.
    destruct (extract_step_returns config msg Hmsg) as (c & Hc).
    destruct (IH c Hmsgs) as (config' & Hrun).
    exists config'. cbn [foldM]. unfold bind. rewrite Hc. exact Hrun.
Qed.

Lemma filter_text_nulls (blocks l : list JSON) :
  filter_text blocks tt = Ok l tt ->
  forallb (fun b => negb (is_null b)) blocks = true.
Proof.
  revert l. induction blocks as [|b bs IH]; intros l H; [reflexivity|].
  cbn [filter_text] in H. unfold bind in H.
  destruct (prop "type" b tt) as [ty []|] eqn:Hty; [|discriminate H].
  destruct (filter_text bs tt) as [rest []|] eqn:Hrest; [|discriminate H].
  apply prop_Ok in Hty. cbn [forallb]. rewrite (proj1 Hty).
  exact (IH rest eq_refl).
Qed.

Lemma filter_text_returns (blocks : list JSON) :
  forallb (fun b => negb (is_null b)) blocks = true ->
  exists l, filter_text blocks tt = Ok l tt.
Proof.
  induction blocks as [|b bs IH]; intros H; [eexists; reflexivity|].
  cbn [forallb] in H. apply andb_prop in H. destruct H as (Hb & Hbs).
  apply negb_true_iff in Hb. destruct (IH Hbs) as (rest & Hrest).
  cbn [filter_text]. unfold bind. rewrite (prop_get _ b Hb), Hrest.
  eexists. reflexivity.
Qed.

Lemma sanitize_message_ok (msg msg' : JSON) :
  sanitize_message msg tt = Ok msg' tt -> message_ok msg = true.
Proof.
  unfold sanitize_message, bind, message_ok. intros H.
  destruct (prop "content" msg tt) as [content []|] eqn:Hcontent;
    [|discriminate H].
  apply prop_Ok in Hcontent. destruct Hcontent as (-> & ->).
  destruct (get "content" msg) as [[| | | |blocks|]|]; try reflexivity.
  destruct (filter_text blocks tt) as [l []|] eqn:Hl; [|discriminate H].
  apply (filter_text_nulls _ _ Hl).
Qed.

Lemma sanitize_message_returns (msg : JSON) :
  message_ok msg = true -> exists msg', sanitize_message msg tt = Ok msg' tt.
Proof.
  unfold message_ok. intros H. apply andb_prop in H.
  destruct H as (Hmsg & Hblocks). apply negb_true_iff in Hmsg.
  unfold sanitize_message, bind. rewrite (prop_get _ msg Hmsg).
  destruct (get "content" msg) as [[| | | |blocks|]|];
    try (eexists; reflexivity).
  destruct (filter_text_returns blocks Hblocks) as (l & Hl). rewrite Hl.
  rewrite (prop_get _ msg Hmsg).
  destruct l as [|b [|b' l]]; try (eexists; reflexivity).
  apply filter_text_Ok in Hl. destruct Hl as (_ & Htext & _).
  assert (Hb : is_null b = false).
  { inversion Htext as [|? ? Hb _]. destruct b; try reflexivity.
    discriminate Hb. }
  rewrite (prop_get _ b Hb). eexists. reflexivity.
Qed.

Lemma sanitize_Ok (msgs : list JSON) (out : JSON) :
  _sanitizeMessages (JArray msgs) tt = Ok out tt ->
  forallb message_ok msgs = true.
Proof.
  unfold _sanitizeMessages, bind. intros H.
  destruct (mapM sanitize_message msgs tt) as [l []|] eqn:Hl; [|discriminate H].
  apply mapM_Ok in Hl. clear H.
  induction Hl as [|msg msg' msgs l Hmsg _ IH]; [reflexivity|].
  cbn [forallb]. rewrite (sanitize_message_ok _ _ Hmsg). exact IH.
Qed.

Lemma sanitize_returns (msgs : list JSON) :
  forallb message_ok msgs = true ->
  exists out, _sanitizeMessages (JArray msgs) tt = Ok out tt.
Proof.
  intros H. unfold _sanitizeMessages, bind.
  assert (Hl : exists l, mapM sanitize_message msgs tt = Ok l tt).
  { induction msgs as [|msg msgs IH]; [eexists; reflexivity|].
    cbn [forallb] in H. apply andb_prop in H. destruct H as (Hmsg & Hmsgs).
    destruct (sanitize_message_returns msg Hmsg) as (msg' & Hmsg').
    destruct (IH Hmsgs) as (l & Hl).
    cbn [mapM]. unfold bind. rewrite Hmsg', Hl. eexists. reflexivity. }
  destruct Hl as (l & ->). eexists. reflexivity.
Qed.

Lemma message_ok_not_null (msgs : list JSON) :
  forallb message_ok msgs = true ->
  forallb (fun m => negb (is_null m)) msgs = true.
Proof.
  induction msgs as [|msg msgs IH]; [reflexivity|]. cbn [forallb].
  intros H. apply andb_prop in H. destruct H as (Hmsg & Hmsgs).
  unfold message_ok in Hmsg. apply andb_prop in Hmsg.
  rewrite (proj1 Hmsg). exact (IH Hmsgs).
Qed.

Section Transformable.

Variable defaultThinking : bool.

Lemma transformRequest_body_Ok (anthropicRequest : JSON)
      (result : RequestResult) :
  transformRequest_body defaultThinking anthropicRequest tt = Ok result tt ->
  transformable anthropicRequest = true.
Proof.
  unfold transformRequest_body, transformable. intros H. unfold bind in H.
  destruct (prop "messages" anthropicRequest tt) as [messages []|] eqn:Hmessages;
    [|discriminate H].
  apply prop_Ok in Hmessages. destruct Hmessages as (Hnull & ->).
  rewrite Hnull. cbn [negb andb].
  destruct (_extractThinkingControl _ _ tt) as [config []|] eqn:Hconfig;
    [|discriminate H].
  repeat (rewrite (prop_get _ anthropicRequest Hnull) in H;
          cbv beta iota in H).
  destruct (_sanitizeMessages _ tt) as [sanitized []|] eqn:Hsanitized;
    [|discriminate H].
  clear H Hconfig. unfold or_empty_array in Hsanitized.
  destruct (get "messages" anthropicRequest) as [messages|]; [|reflexivity].
  destruct (js_truthy (Some messages)) eqn:Htruthy; [|reflexivity].
  cbn [negb orb].
  destruct messages as [| | | |msgs|]; try discriminate Hsanitized.
  apply (sanitize_Ok _ _ Hsanitized).
Qed.

Lemma transformRequest_body_returns (anthropicRequest : JSON) :
  transformable anthropicRequest = true ->
  exists result,
    transformRequest_body defaultThinking anthropicRequest tt = Ok result tt
    /\ error result = None.
Proof.
  unfold transformable. intros H. apply andb_prop in H.
  destruct H as (Hnull & Hmessages). apply negb_true_iff in Hnull.
  assert (Hmsgs : exists msgs,
             or_empty_array (get "messages" anthropicRequest) = JArray msgs
             /\ forallb message_ok msgs = true).
  { unfold or_empty_array.
    destruct (get "messages" anthropicRequest) as [messages|];
      [|exists []; split; reflexivity].
    destruct (js_truthy (Some messages)); [|exists []; split; reflexivity].
    cbn [negb orb] in Hmessages.
    destruct messages as [| | | |msgs|]; try discriminate Hmessages.
    exists msgs. split; [reflexivity|exact Hmessages]. }
  destruct Hmsgs as (msgs & Harray & Hok).
  destruct (extract_returns msgs (mkThinkingConfig defaultThinking
                                                   (Some "medium"))
                            (message_ok_not_null msgs Hok))
    as (config & Hconfig).
  destruct (sanitize_returns msgs Hok) as (sanitized & Hsanitized).
  unfold transformRequest_body, bind.
  rewrite (prop_get _ anthropicRequest Hnull), Harray.
  unfold _extractThinkingControl, iterate, bind, ret. rewrite Hconfig.
  repeat (rewrite (prop_get _ anthropicRequest Hnull); cbv beta iota).
  rewrite Harray, Hsanitized.
  repeat (rewrite (prop_get _ anthropicRequest Hnull); cbv beta iota).
  eexists. split; reflexivity.
Qed.

(** X27. The requests that take the fallback: [transformRequest] returns a
    result with no error exactly when the request is not [null], its
    [messages] are falsy or an array, no message is [null], and no
    message has a [null] in a content that is an array. *)
Theorem transformRequest_error_iff (anthropicRequest : JSON) :
  exists result,
    transformRequest defaultThinking anthropicRequest tt = Ok result tt
    /\ (error result = None <-> transformable anthropicRequest = true).
Proof.
  unfold transformRequest, try_catch.
  destruct (transformRequest_body defaultThinking anthropicRequest tt)
    as [result []|e []] eqn:Hbody.
  - exists result. split; [reflexivity|].
    pose proof (transformRequest_body_Ok _ _ Hbody) as Hok.
    destruct (transformRequest_body_returns _ Hok) as (result' & Hbody' & Herror).
    rewrite Hbody in Hbody'. injection Hbody' as <-. tauto.
  - eexists. split; [reflexivity|]. cbn [error]. split; [discriminate|].
    intros Hok.
    destruct (transformRequest_body_returns _ Hok) as (result' & Hbody' & _).
    rewrite Hbody in Hbody'. discriminate Hbody'.
Qed.

End Transformable.

(** ** The buffered response transformation *)

Import BufferedResponse.

Section ResponseProperties.

Variable JSON_parse : string -> option JSON.
Variable sha256_hex : string -> string.
Variable engine_message : ResponseError -> string.

Lemma tool_use_of_parsed (toolCall : MessageToolCall.t) (input : JSON) :
  parsed_input JSON_parse toolCall input ->
  tool_use_of JSON_parse toolCall
  = inr (tool_use_block
           (MessageToolCall.id toolCall)
           (mbind FunctionCall.name (MessageToolCall.function toolCall))
           input).
Proof.
  intros (f & Hf & Hinput). unfold tool_use_of. rewrite Hf, Hinput. reflexivity.
Qed.

Lemma tool_use_of_builds (toolCall : MessageToolCall.t) :
  builds JSON_parse toolCall = true ->
  exists input, parsed_input JSON_parse toolCall input.
Proof.
  unfold builds, parsed_input.
  destruct (MessageToolCall.function toolCall) as [f|]; [|discriminate].
  intros H. apply bool_decide_eq_true_1 in H. destruct H as [input Hinput].
  exists input, f. split; [reflexivity|exact Hinput].
Qed.

Lemma tool_use_of_fails (toolCall : MessageToolCall.t) :
  builds JSON_parse toolCall = false ->
  exists e, tool_use_of JSON_parse toolCall = inl e.
Proof.
  unfold builds, tool_use_of.
  destruct (MessageToolCall.function toolCall) as [f|]; [|eauto].
  destruct (JSON_parse (arguments_text f)) as [input|]; [|eauto].
  intros H. apply bool_decide_eq_false_1 in H. exfalso. apply H. eauto.
Qed.

Lemma forEach_tool_call_parsed (tool_calls : list MessageToolCall.t)
      (inputs : list JSON) (content : list ContentBlock) :
  Forall2 (parsed_input JSON_parse) tool_calls inputs ->
  forEach_tool_call JSON_parse tool_calls content
  = inr (content
           ++ zip_with (fun toolCall input =>
                          tool_use_block
                            (MessageToolCall.id toolCall)
                            (mbind FunctionCall.name
                                   (MessageToolCall.function toolCall))
                            input)
                       tool_calls inputs)%list.
Proof.
  intros H. revert content.
  induction H as [|toolCall input tool_calls inputs Hparsed _ IH];
    intros content.
  - cbn. rewrite app_nil_r. reflexivity.
  - cbn [forEach_tool_call zip_with].
    rewrite (tool_use_of_parsed _ _ Hparsed), IH. unfold push.
    rewrite <- app_assoc. reflexivity.
Qed.

Lemma forEach_tool_call_builds (tool_calls : list MessageToolCall.t) :
  forallb (builds JSON_parse) tool_calls = true ->
  exists inputs, Forall2 (parsed_input JSON_parse) tool_calls inputs.
Proof.
  induction tool_calls as [|toolCall tool_calls IH]; intros H.
  - exists []. constructor.
  - cbn [forallb] in H. apply andb_prop in H. destruct H as (Hcall & Hcalls).
    destruct (tool_use_of_builds _ Hcall) as (input & Hinput).
    destruct (IH Hcalls) as (inputs & Hinputs).
    exists (input :: inputs). constructor; assumption.
Qed.

Lemma forEach_tool_call_fails (tool_calls : list MessageToolCall.t)
      (content : list ContentBlock) :
  forallb (builds JSON_parse) tool_calls = false ->
  exists e, forEach_tool_call JSON_parse tool_calls content = inl e.
Proof.
  revert content. induction tool_calls as [|toolCall tool_calls IH];
    intros content H; [discriminate H|].
  cbn [forallb] in H. cbn [forEach_tool_call].
  destruct (builds JSON_parse toolCall) eqn:Hcall.
  - destruct (tool_use_of_builds _ Hcall) as (input & Hinput).
    rewrite (tool_use_of_parsed _ _ Hinput). apply IH. exact H.
  - destruct (tool_use_of_fails _ Hcall) as (e & He). rewrite He. eauto.
Qed.

Lemma response_content_shape (now : Z) (fresh_id error_id : string)
        (openaiResponse : Completion.t) (choice : MessageChoice.t)
        (message : Message.t) (inputs : list JSON) :
  head (default [] (Completion.choices openaiResponse)) = Some choice ->
  MessageChoice.message choice = Some message ->
  Forall2 (parsed_input JSON_parse)
          (default [] (Message.tool_calls message)) inputs ->
  transformResponse JSON_parse sha256_hex engine_message now fresh_id error_id
                    openaiResponse
  = AnthropicResponse.mk
      (default fresh_id (truthy (Completion.id openaiResponse)))
      "message" "assistant"
      (leading_blocks sha256_hex now message
         ++ zip_with (fun toolCall input =>
                        tool_use_block
                          (MessageToolCall.id toolCall)
                          (mbind FunctionCall.name
                                 (MessageToolCall.function toolCall))
                          input)
                     (default [] (Message.tool_calls message)) inputs)%list
      (Some (default "glm-4.6" (truthy (Completion.model openaiResponse))))
      (match MessageChoice.finish_reason choice with
       | Some reason => _mapStopReason reason
       | None => Reason "end_turn"
       end)
      (default zero_usage (Completion.usage openaiResponse)).
Proof.
  intros Hchoice Hmessage Hinputs.
  unfold transformResponse, transformResponse_body.
  rewrite Hchoice, Hmessage. cbv zeta.
  rewrite (forEach_tool_call_parsed _ _ _ Hinputs). unfold leading_blocks.
  destruct (truthy (Message.reasoning_content message));
    destruct (truthy (Message.content message)); reflexivity.
Qed.

Lemma response_fallback_shape (now : Z) (fresh_id error_id : string)
      (openaiResponse : Completion.t) :
  transformable_response JSON_parse openaiResponse = false ->
  exists e,
    transformResponse JSON_parse sha256_hex engine_message now fresh_id
                      error_id openaiResponse
    = error_response engine_message error_id e.
Proof.
  unfold transformResponse, transformResponse_body, transformable_response.
  destruct (head (default [] (Completion.choices openaiResponse)))
    as [choice|]; [|eauto].
  destruct (MessageChoice.message choice) as [message|]; [|eauto].
  cbv zeta. intros H.
  match goal with |- context [forEach_tool_call _ _ ?c] =>
    destruct (forEach_tool_call_fails _ c H) as (e & ->) end.
  eauto.
Qed.

(** X28. What a completion gives: when the first choice has a message
    and each tool call has a function with arguments that [JSON.parse]
    takes, the response has the thinking block, if the message has
    reasoning, then the text block, if it has text, then one tool-use
    block for each tool call, in their order, with the parsed input; its
    identifier and model are those of the completion, or the defaults;
    its usage is the usage object of the completion as it came, or zero
    counts. *)
Theorem response_content (now : Z) (fresh_id error_id : string)
        (openaiResponse : Completion.t) (choice : MessageChoice.t)
        (message : Message.t) (inputs : list JSON) :
  head (default [] (Completion.choices openaiResponse)) = Some choice ->
  MessageChoice.message choice = Some message ->
  Forall2 (parsed_input JSON_parse)
          (default [] (Message.tool_calls message)) inputs ->
  transformResponse JSON_parse sha256_hex engine_message now fresh_id error_id
                    openaiResponse
  = AnthropicResponse.mk
      (default fresh_id (truthy (Completion.id openaiResponse)))
      "message" "assistant"
      (leading_blocks sha256_hex now message
         ++ zip_with (fun toolCall input =>
                        tool_use_block
                          (MessageToolCall.id toolCall)
                          (mbind FunctionCall.name
                                 (MessageToolCall.function toolCall))
                          input)
                     (default [] (Message.tool_calls message)) inputs)%list
      (Some (default "glm-4.6" (truthy (Completion.model openaiResponse))))
      (match MessageChoice.finish_reason choice with
       | Some reason => _mapStopReason reason
       | None => Reason "end_turn"
       end)
      (default zero_usage (Completion.usage openaiResponse)).
Proof. apply response_content_shape. Qed.

(** X29. The response of a completion that cannot be transformed: when
    there is no first choice, or it has no message, or a tool call has no
    function or has arguments that [JSON.parse] rejects, the response is
    the error response, whose one block is a text that begins with
    [[Transformation Error]], with nothing of the reasoning, the text and
    the other tool calls of the completion; with no first choice the text
    is that of the transformer's own error.  The responses without a
    model are these. *)
Theorem response_fallback (now : Z) (fresh_id error_id : string)
        (openaiResponse : Completion.t) :
  let response :=
    transformResponse JSON_parse sha256_hex engine_message now fresh_id
                      error_id openaiResponse in
  (transformable_response JSON_parse openaiResponse = false ->
   exists e, response = error_response engine_message error_id e)
  /\ (head (default [] (Completion.choices openaiResponse)) = None ->
      AnthropicResponse.content response
      = [text_block
           "[Transformation Error] No choices in OpenAI response"])
  /\ (AnthropicResponse.model response = None
      <-> transformable_response JSON_parse openaiResponse = false).
Proof.
  cbv zeta. unfold transformResponse, transformResponse_body,
    transformable_response.
  destruct (head (default [] (Completion.choices openaiResponse)))
    as [choice|]; [|split; [eauto|split; [reflexivity|split; reflexivity]]].
  split; [|split; [discriminate|]].
  - destruct (MessageChoice.message choice) as [message|]; [|eauto].
    cbv zeta. intros H.
    match goal with |- context [forEach_tool_call _ _ ?c] =>
      destruct (forEach_tool_call_fails _ c H) as (e & ->) end.
    eauto.
  - destruct (MessageChoice.message choice) as [message|];
      [|split; reflexivity].
    cbv zeta.
    destruct (forallb (builds JSON_parse)
                      (default [] (Message.tool_calls message))) eqn:H.
    + destruct (forEach_tool_call_builds _ H) as (inputs & Hinputs).
      rewrite (forEach_tool_call_parsed _ _ _ Hinputs).
      split; discriminate.
    + match goal with |- context [forEach_tool_call _ _ ?c] =>
        destruct (forEach_tool_call_fails _ c H) as (e & ->) end.
      split; reflexivity.
Qed.

Lemma existsb_tool_use (p : ContentBlock -> bool)
      (tool_calls : list MessageToolCall.t) (inputs : list JSON) :
  (forall id name input, p (tool_use_block id name input) = false) ->
  existsb p (zip_with (fun toolCall input =>
                         tool_use_block
                           (MessageToolCall.id toolCall)
                           (mbind FunctionCall.name
                                  (MessageToolCall.function toolCall))
                           input)
                      tool_calls inputs) = false.
Proof.
  intros Hp. revert inputs.
  induction tool_calls as [|toolCall tool_calls IH]; intros [|input inputs];
    try reflexivity.
  cbn [zip_with existsb]. rewrite Hp, IH. reflexivity.
Qed.

(** X30. What validation says of a response: of the five checks, the
    structure and the usage checks pass on every response of
    [transformResponse]; on the error response four pass; and all five
    pass exactly when the completion could be transformed and its message
    had both reasoning and text. *)
Theorem validation_of_response (now : Z) (fresh_id error_id : string)
        (openaiResponse : Completion.t) :
  let validation :=
    _validateTransformation
      (transformResponse JSON_parse sha256_hex engine_message now fresh_id
                         error_id openaiResponse) in
  Validation.total validation = 5
  /\ Validation.validStructure (Validation.checks validation) = true
  /\ Validation.hasUsage (Validation.checks validation) = true
  /\ (transformable_response JSON_parse openaiResponse = false ->
      Validation.passed validation = 4)
  /\ (Validation.valid validation = true
      <-> exists choice message reasoning text,
          head (default [] (Completion.choices openaiResponse)) = Some choice
          /\ MessageChoice.message choice = Some message
          /\ truthy (Message.reasoning_content message) = Some reasoning
          /\ truthy (Message.content message) = Some text
          /\ forallb (builds JSON_parse)
                     (default [] (Message.tool_calls message)) = true).
Proof.
  cbv zeta.
  destruct (transformable_response JSON_parse openaiResponse) eqn:Hok.
  - unfold transformable_response in Hok.
    destruct (head (default [] (Completion.choices openaiResponse)))
      as [choice|] eqn:Hchoice; [|discriminate Hok].
    destruct (MessageChoice.message choice) as [message|] eqn:Hmessage;
      [|discriminate Hok].
    destruct (forEach_tool_call_builds _ Hok) as (inputs & Hinputs).
    rewrite (response_content_shape now fresh_id error_id openaiResponse choice
               message inputs Hchoice Hmessage Hinputs).
    unfold _validateTransformation, leading_blocks.
    cbn [AnthropicResponse.content AnthropicResponse.type
         AnthropicResponse.role Validation.total Validation.checks
         Validation.validStructure Validation.hasUsage Validation.valid
         Validation.passed Validation.hasContent Validation.hasThinking
         Validation.hasText].
    rewrite !existsb_app, !existsb_tool_use by reflexivity.
    split; [reflexivity|]. split; [reflexivity|]. split; [reflexivity|].
    split; [discriminate|].
    destruct (truthy (Message.reasoning_content message)) as [reasoning|]
      eqn:Hreasoning;
      destruct (truthy (Message.content message)) as [text|] eqn:Htext.
    + split; [|reflexivity]. intros _.
      exists choice, message, reasoning, text.
      repeat (split; [first [reflexivity | assumption]|]). exact Hok.
    + split.
      * destruct (zip_with _ _ _); intros H; discriminate H.
      * intros (c & m & r & t & Hc & Hm & _ & Ht & _).
        injection Hc as <-. rewrite Hmessage in Hm. injection Hm as <-.
        congruence.
    + split.
      * destruct (zip_with _ _ _); intros H; discriminate H.
      * intros (c & m & r & t & Hc & Hm & Hr & _).
        injection Hc as <-. rewrite Hmessage in Hm. injection Hm as <-.
        congruence.
    + split.
      * destruct (zip_with _ _ _); intros H; discriminate H.
      * intros (c & m & r & t & Hc & Hm & Hr & _).
        injection Hc as <-. rewrite Hmessage in Hm. injection Hm as <-.
        congruence.
  - destruct (response_fallback_shape now fresh_id error_id openaiResponse Hok)
      as (e & ->).
    split; [reflexivity|]. split; [reflexivity|]. split; [reflexivity|].
    split; [reflexivity|]. split; [discriminate|].
    intros (c & m & r & t & Hc & Hm & _ & _ & Hcalls).
    unfold transformable_response in Hok. rewrite Hc, Hm, Hcalls in Hok.
    discriminate Hok.
Qed.

End ResponseProperties.

(** * Instances *)

Import Samples.

Lemma well_indexed_new (msgId : string) (options : Options) :
  well_indexed (DeltaAccumulator.new msgId options).
Proof. split; [reflexivity|]. intros i block H. discriminate H. Qed.

Lemma tidy_new (msgId : string) (options : Options) :
  tidy (DeltaAccumulator.new msgId options).
Proof.
  split; [reflexivity|]. split; [|constructor].
  intros i block H. discriminate H.
Qed.

Lemma only_thinking_new (msgId : string) (options : Options) :
  only_thinking (DeltaAccumulator.new msgId options).
Proof. constructor. Qed.

Lemma parse_indices_witness :
  let p := SSEParser.mk "" 5 100 in
  let events := [mkEvent "done" JNull 6 None None;
                 mkEvent "done" JNull 7 None None] in
  parse parse_a1 two_sentinels p = Ok events (SSEParser.mk "" 7 100)
  /\ eventCount (SSEParser.mk "" 7 100)
     = eventCount p + Z.of_nat (length events)
  /\ forall k e, events !! k = Some e ->
                 SSEParser.index e = eventCount p + 1 + Z.of_nat k.
Proof.
  intros p events. split; [vm_compute; reflexivity|].
  apply (parse_indices parse_a1 two_sentinels p (SSEParser.mk "" 7 100) events).
  vm_compute. reflexivity.
Defined.

Lemma parse_carry_over_witness :
  let p' := SSEParser.mk chunk1 0 (1024 * 1024) in
  parse parse_a1 chunk1 (SSEParser.new None) = Ok [] p'
  /\ no_newline (SSEParser.buffer p')
  /\ exists lines,
      Forall no_newline lines
      /\ SSEParser.buffer (SSEParser.new None) +:+ chunk1
         = unlines lines +:+ SSEParser.buffer p'.
Proof.
  intros p'. split; [vm_compute; reflexivity|].
  apply (parse_carry_over parse_a1 chunk1 (SSEParser.new None) p' []).
  vm_compute. reflexivity.
Defined.

Lemma parse_chunks_witness :
  let p := SSEParser.new None in
  let p' := SSEParser.mk "" 1 (1024 * 1024) in
  let events := [mkEvent "message" payload_a1 1 None None] in
  parse parse_a1 (chunk1 +:+ chunk2) p = Ok events p'
  /\ exists events1 p1 events2,
      parse parse_a1 chunk1 p = Ok events1 p1
      /\ parse parse_a1 chunk2 p1 = Ok events2 p'
      /\ events = (events1 ++ events2)%list.
Proof.
  intros p p' events. split; [vm_compute; reflexivity|].
  apply (parse_chunks parse_a1 chunk1 chunk2 p p' events).
  - vm_compute. repeat constructor.
  - vm_compute. reflexivity.
Defined.

Lemma event_name_within_chunk_witness :
  let p := SSEParser.new None in
  let p' := SSEParser.mk "" 1 (1024 * 1024) in
  parse parse_a1 (unlines ["event: " +:+ "ping"; "data: " +:+ payload_text]) p
  = Ok [mkEvent "ping" payload_a1 1 None None] p'
  /\ exists p1,
      parse parse_a1 (unlines ["event: " +:+ "ping"]) p = Ok [] p1
      /\ parse parse_a1 (unlines ["data: " +:+ payload_text]) p1
         = Ok [mkEvent "message" payload_a1 1 None None] p'.
Proof.
  intros p p'.
  apply (event_name_within_chunk parse_a1 "ping" payload_text payload_a1 p).
  - reflexivity.
  - reflexivity.
  - reflexivity.
  - vm_compute. discriminate.
  - vm_compute. reflexivity.
  - vm_compute. discriminate.
Defined.

Lemma malformed_line_dropped_witness :
  let p := SSEParser.new None in
  exists events p',
    parse parse_a1
          (unlines (["data: [DONE]"]
                      ++ "data: oops" :: ["data: " +:+ payload_text])) p
    = Ok events p'
    /\ parse parse_a1
             (unlines (["data: [DONE]"] ++ ["data: " +:+ payload_text])) p
       = Ok events p'.
Proof.
  intros p.
  apply (malformed_line_dropped parse_a1 ["data: [DONE]"]
                                ["data: " +:+ payload_text] "data: oops" p).
  - reflexivity.
  - repeat constructor.
  - split; [reflexivity|]. split; [vm_compute; discriminate|reflexivity].
  - vm_compute. discriminate.
Defined.

Lemma sentinel_event_witness :
  let p := SSEParser.new None in
  exists events count,
    parse parse_a1 (unlines ["data: " +:+ payload_text]) p
    = Ok events (SSEParser.mk "" count (SSEParser.maxBufferSize p))
    /\ parse parse_a1
             (unlines (["data: " +:+ payload_text] ++ ["data: [DONE]"])) p
       = Ok (events ++ [mkEvent "done" JNull (count + 1) None None])%list
            (SSEParser.mk "" (count + 1) (SSEParser.maxBufferSize p)).
Proof.
  intros p.
  apply (sentinel_event parse_a1 ["data: " +:+ payload_text] p).
  - reflexivity.
  - repeat constructor.
  - vm_compute. discriminate.
Defined.

Lemma block_indices_witness :
  well_indexed fresh
  /\ well_indexed (state_of (transformAll no_digest sample_stream fresh)).
Proof.
  split; [apply well_indexed_new|].
  apply (block_indices no_digest sample_stream fresh), well_indexed_new.
Defined.


Lemma blocks_only_grow_witness :
  in_sync thinking_open
  /\ grown_from thinking_open
                (state_of (transformAll no_digest sample_stream thinking_open)).
Proof.
  assert (H : in_sync thinking_open).
  { apply transformDelta_in_sync, in_sync_new. }
  split; [exact H|].
  apply (blocks_only_grow no_digest sample_stream thinking_open H).
Defined.

Lemma start_indices_in_order_witness :
  let events := [message_start "msg_1" "assistant" "glm-4.6" 0 0;
                 content_block_start 0 "thinking"; thinking_delta 0 "plan";
                 signature_delta 0 "" 4 2; content_block_stop 0;
                 content_block_start 1 "text"; text_delta 1 "answer"] in
  let a' := state_of (transformAll no_digest sample_stream fresh) in
  transformAll no_digest sample_stream fresh = Ok events a'
  /\ start_indices events
     = seqZ (Z.of_nat (length (contentBlocks fresh)))
            (Z.of_nat (length (contentBlocks a'))
             - Z.of_nat (length (contentBlocks fresh))).
Proof.
  intros events a'.
  assert (H : transformAll no_digest sample_stream fresh = Ok events a').
  { vm_compute. reflexivity. }
  split; [exact H|].
  apply (start_indices_in_order no_digest sample_stream events fresh a');
    [reflexivity|exact H].
Defined.

Lemma tidy_thinking_open : tidy thinking_open.
Proof.
  apply transformDelta_tidy; [apply tidy_new|]. intros _. reflexivity.
Qed.

Lemma delta_events_witness :
  let delta := Delta.mk None None (Some "plan") [] in
  let payload := Payload.mk [Choice.mk (Some delta) None] None None in
  let events := [message_start "msg_1" "assistant" "glm-4.6" 0 0;
                 content_block_start 0 "thinking";
                 thinking_delta 0 "plan"] in
  transformDelta no_digest 1 (reasoning_event "plan") fresh
  = Ok events thinking_open
  /\ messageStarted thinking_open = true
  /\ exists extra,
      events
      = ((if messageStarted fresh then []
          else [message_start (messageId fresh) (role fresh)
                              (start_model payload fresh)
                              (inputTokens fresh) 0]) ++ extra)%list
      /\ Forall is_block_event extra.
Proof.
  intros delta payload events.
  assert (H : transformDelta no_digest 1 (reasoning_event "plan") fresh
              = Ok events thinking_open).
  { vm_compute. reflexivity. }
  split; [exact H|].
  apply (delta_events no_digest 1 (reasoning_event "plan") payload delta
                      events fresh thinking_open).
  - vm_compute. discriminate.
  - reflexivity.
  - reflexivity.
  - exact H.
Defined.

Lemma message_start_once_witness :
  let events := [message_start "msg_1" "assistant" "glm-4.6" 0 0;
                 content_block_start 0 "thinking"; thinking_delta 0 "plan";
                 signature_delta 0 "" 4 2; content_block_stop 0;
                 content_block_start 1 "text"; text_delta 1 "answer"] in
  let a' := state_of (transformAll no_digest sample_stream fresh) in
  transformAll no_digest sample_stream fresh = Ok events a'
  /\ (message_starts events <= if messageStarted fresh then 0 else 1)%nat.
Proof.
  intros events a'.
  assert (H : transformAll no_digest sample_stream fresh = Ok events a').
  { vm_compute. reflexivity. }
  split; [exact H|].
  apply (message_start_once no_digest sample_stream events fresh a' H).
Defined.

Lemma thinking_closes_before_text_witness :
  let block := Block.mk 0 "thinking" "plan" true false in
  getCurrentBlock thinking_open = Some block
  /\ exists a',
      transformDelta no_digest 2 (text_event "answer") thinking_open
      = Ok [signature_delta (Block.index block)
              (String.substring 0 16 (no_digest (Block.content block)))
              (strlen (Block.content block)) 2;
            content_block_stop (Block.index block);
            content_block_start (currentBlockIndex thinking_open + 1) "text";
            text_delta (currentBlockIndex thinking_open + 1) "answer"] a'
      /\ getCurrentBlock a'
         = Some (Block.mk (currentBlockIndex thinking_open + 1) "text"
                          "answer" true false)
      /\ contentBlocks a' !! Z.to_nat (currentBlockIndex thinking_open)
         = Some (Block.set_stopped true block).
Proof.
  intros block. split; [reflexivity|].
  apply (thinking_closes_before_text no_digest 2 "answer" thinking_open block).
  - reflexivity.
  - reflexivity.
  - reflexivity.
  - reflexivity.
  - reflexivity.
  - discriminate.
  - vm_compute. reflexivity.
  - vm_compute. discriminate.
Defined.

Lemma one_open_block_step_witness :
  tidy thinking_open
  /\ tidy (state_of (transformDelta no_digest 2 (text_event "answer")
                                    thinking_open))
  /\ (open_count (state_of (transformDelta no_digest 2 (text_event "answer")
                                           thinking_open)) <= 1)%nat.
Proof.
  split; [apply tidy_thinking_open|].
  apply (one_open_block_step no_digest 2 (text_event "answer") thinking_open).
  - apply tidy_thinking_open.
  - intros H. exfalso. apply H. reflexivity.
Defined.

Lemma one_open_block_witness :
  let input1 := [(1, reasoning_event "plan")] in
  let input2 := [(2, text_event "answer"); (3, finish_event "stop")] in
  tidy (state_of (transformAll no_digest (input1 ++ input2) fresh))
  /\ (open_count (state_of (transformAll no_digest (input1 ++ input2) fresh))
      <= 1)%nat.
Proof.
  intros input1 input2.
  apply (one_open_block no_digest input1 input2 fresh).
  - apply tidy_new.
  - apply only_thinking_new.
  - repeat constructor.
  - repeat constructor.
Defined.

Lemma finalizeDelta_closes_witness :
  exists closing a',
    finalizeDelta no_digest 4 thinking_open
    = Ok (closing
            ++ [message_delta
                  (_mapStopReason
                     (default "stop" (truthy (finishReason thinking_open))))
                  (outputTokens thinking_open);
                message_stop])%list a'
    /\ closing
       = match getCurrentBlock thinking_open with
         | Some b =>
             if Block.stopped b then []
             else if String.eqb (Block.type b) "thinking"
                  then [signature_delta
                          (Block.index b)
                          (String.substring 0 16
                                            (no_digest (Block.content b)))
                          (strlen (Block.content b)) 4;
                        content_block_stop (Block.index b)]
                  else [content_block_stop (Block.index b)]
         | None => []
         end
    /\ finalized a' = true
    /\ open_count a' = 0%nat.
Proof.
  apply (finalizeDelta_closes no_digest 4 thinking_open).
  - apply tidy_thinking_open.
  - reflexivity.
Defined.

Lemma tools_consistent_new (msgId : string) (options : Options) :
  tools_consistent (DeltaAccumulator.new msgId options).
Proof.
  split; [constructor|]. split.
  - intros k. cbn [toolCalls toolCallsIndex DeltaAccumulator.new].
    rewrite lookup_empty, elem_of_nil. split; [tauto|].
    intros [c Hc]. discriminate Hc.
  - intros k c Hc. cbn in Hc. rewrite lookup_empty in Hc. discriminate Hc.
Qed.

Lemma tool_calls_listed_once_witness :
  let fragments := [fragment 0 "call_1" "get" "{"; fragment 1 "call_2" "put" "";
                    fragment 0 "" "" "}"] in
  exists a',
    addToolCallDeltas fragments fresh = Ok tt a'
    /\ tools_consistent a'
    /\ toolCalls fresh `prefix_of` toolCalls a'
    /\ (forall k, k ∈ toolCalls a'
                  <-> k ∈ toolCalls fresh
                      \/ k ∈ (ToolCallDelta.index <$> fragments))
    /\ ToolCall.index <$> getToolCalls a' = toolCalls a'.
Proof.
  intros fragments.
  apply (tool_calls_listed_once fragments fresh), tools_consistent_new.
Defined.

Lemma checkForLoop_detects_witness :
  let d := LoopDetection.new (Some 1) in
  exists b,
    checkForLoop (thinking_open, d) = Ok b (thinking_open, set_loopDetected b d)
    /\ (b = true
        <-> toolCalls thinking_open = []
            /\ exists older recent,
                contentBlocks thinking_open = (older ++ recent)%list
                /\ Z.of_nat (length recent) = loopDetectionThreshold d
                /\ Forall (fun block => Block.type block = "thinking")
                          recent).
Proof.
  intros d. apply (checkForLoop_detects thinking_open d).
  - reflexivity.
  - reflexivity.
Defined.

Lemma loop_detection_latches_witness :
  let d := LoopDetection.new (Some 1) in
  let d' := set_loopDetected true d in
  checkForLoop (thinking_open, d) = Ok true (thinking_open, d')
  /\ checkForLoop (fresh, d') = Ok true (fresh, d')
  /\ exists d0,
      resetLoopDetection (fresh, d') = Ok tt (fresh, d0)
      /\ loopDetectionThreshold d0 = loopDetectionThreshold d
      /\ (toolCalls fresh <> [] ->
          checkForLoop (fresh, d0) = Ok false (fresh, d0)).
Proof.
  intros d d'.
  assert (H : checkForLoop (thinking_open, d) = Ok true (thinking_open, d')).
  { reflexivity. }
  split; [exact H|].
  apply (loop_detection_latches thinking_open thinking_open fresh d d' H).
Defined.

Lemma negative_threshold_reports_loop_witness :
  let d := LoopDetection.new (Some (-1)) in
  checkForLoop (fresh, d) = Ok true (fresh, set_loopDetected true d).
Proof.
  intros d. apply (negative_threshold_reports_loop fresh d).
  - reflexivity.
  - reflexivity.
  - reflexivity.
  - vm_compute. discriminate.
Defined.

Import Examples.


Lemma last_directive_wins_witness :
  exists config,
    _extractThinkingControl
      true
      (JArray ([message "user" "<Thinking:Off> first"]
                 ++ message "user" "now <thinking:ON> please"
                 :: ((fun rc => message (fst rc) (snd rc))
                       <$> [("assistant", "<Thinking:Off>")]))) tt
    = Ok config tt
    /\ thinking config = String.eqb "on" "on".
Proof.
  apply (last_directive_wins true [message "user" "<Thinking:Off> first"]
                             "now <thinking:ON> please" "on"
                             [("assistant", "<Thinking:Off>")]
                             (mkThinkingConfig false (Some "medium"))).
  - reflexivity.
  - reflexivity.
  - apply Forall_cons. split; [cbn; discriminate|]. constructor.
Defined.

Lemma no_directive_defaults_witness :
  _extractThinkingControl
    true
    (JArray ((fun rc => message (fst rc) (snd rc))
               <$> [("assistant", "<Thinking:Off>"); ("user", "hello")]))
    tt
  = Ok (mkThinkingConfig true (Some "medium")) tt.
Proof.
  apply (no_directive_defaults
           true [("assistant", "<Thinking:Off>"); ("user", "hello")]).
  apply Forall_cons. split; [cbn; discriminate|].
  apply Forall_cons. split; [|constructor].
  intros _. split; reflexivity.
Defined.

Lemma directive_tag_recognized_witness :
  match_thinking ("please " +:+ "<THINKING:Off>" +:+ " now") = Some "off"
  /\ match_effort ("" +:+ "<Effort:High>" +:+ "") = Some "high".
Proof.
  split.
  - apply (proj1 (directive_tag_recognized "please " "<THINKING:Off>" " now"
                                           "off" eq_refl)).
    + right. left.
    + reflexivity.
  - apply (proj2 (directive_tag_recognized "" "<Effort:High>" "" "high"
                                           eq_refl)).
    + right. right. left.
    + reflexivity.
Defined.

Lemma transformed_request_witness :
  exists result,
    transformRequest_body true sample_request tt = Ok result tt
    /\ error result = None
    /\ _extractThinkingControl
         true (or_empty_array (get "messages" sample_request)) tt
       = Ok (thinkingConfig result) tt
    /\ get "model" (openaiRequest result) = Some (JString "GLM-4.6")
    /\ get "max_tokens" (openaiRequest result)
       = Some (JNumber (inject_Z 128000))
    /\ get "do_sample" (openaiRequest result) = Some (JBool true)
    /\ get "stream" (openaiRequest result)
       = Some (default (JBool false) (get "stream" sample_request))
    /\ get "temperature" (openaiRequest result)
       = get "temperature" sample_request
    /\ get "top_p" (openaiRequest result) = get "top_p" sample_request
    /\ get "reasoning" (openaiRequest result)
       = (if thinking (thinkingConfig result) then Some (JBool true)
          else None)
    /\ get "reasoning_effort" (openaiRequest result)
       = (if thinking (thinkingConfig result)
          then JString <$> effort (thinkingConfig result) else None).
Proof.
  eexists. split; [reflexivity|].
  apply (transformed_request true sample_request). reflexivity.
Defined.

Lemma response_content_witness :
  transformResponse parse_a1 no_digest no_message 1 "msg_1" "msg_error_1"
                    sample_completion
  = AnthropicResponse.mk
      "chatcmpl_1" "message" "assistant"
      [thinking_block "plan" ("", 4, 1); text_block "answer";
       tool_use_block (Some "call_1") (Some "get") payload_a1]
      (Some "glm-4.6") (Reason "tool_use") zero_usage.
Proof.
  apply (response_content parse_a1 no_digest no_message 1 "msg_1"
                          "msg_error_1" sample_completion sample_choice
                          sample_message [payload_a1]).
  - reflexivity.
  - reflexivity.
  - repeat constructor. exists (FunctionCall.mk (Some "get") (Some payload_text)).
    split; reflexivity.
Defined.
